(** * Reverse-diffusion reconstruction: utils/reconstruction.py

    A shallow embedding of the four reconstruction routines of
    [utils/reconstruction.py] and the properties of their specification.

    Conventions of the embedding:
    - Python integers (timesteps, strides, indices) are [Z]; [//] is [Z.div],
      which rounds towards minus infinity as Python does, and raises
      [ZeroDivisionError] on a zero divisor.
    - Array and tensor entries are real numbers ([R]): the arithmetic is the
      exact one.  Where numpy and torch answer [nan] or [inf] (a division by
      zero, the root of a negative number) the total functions of [R] have
      some value: the statements that depend on it take the retention
      coefficients positive.  An array is the list of its entries in
      row-major order; the leading batch axis of length one that the code
      adds and drops again is not represented.
    - The cast to [uint8] is the one operation of the routines that is not
      continuous, so a rounding error in front of it changes the byte stored.
      The product by 255 in front of the cast is therefore the rounded one:
      [round64] in the float64 frame array, [round32] on the float32 tensors
      of the loop.  The two roundings are the fields of [FloatFormat], which
      the routines and the statements are parametric in; [exact_arithmetic],
      which rounds nothing, is the instance of the closed examples.
    - Exceptions are values of [PyError], carried by [result].
    - The noise predictor [net] is a function from the current sample and the
      timestep to the predicted noise, of the shape of the sample.
    - [torch.randn] reads a random source [rng]: entry [j] of the [k]-th
      tensor drawn during a call is [rng k j].
    - Module [Heap] gives the same routines on arrays held in a store, where
      a predictor may write into the tensor it is handed: it tells the
      copies from the views, on the cpu, where [.to(device)] returns the
      tensor itself. *)

From Stdlib Require Import Reals Lra Lia ZArith List Bool.
Import ListNotations.

Open Scope R_scope.

(** ** Python values: exceptions, indexing, ranges *)

Inductive PyError : Set :=
| IndexError
| ValueError
| ZeroDivisionError
| UnboundLocalError.

Inductive result (A : Type) : Type :=
| Ok (a : A)
| Err (e : PyError).

Arguments Ok {A} a.
Arguments Err {A} e.

Definition bind {A B : Type} (m : result A) (k : A -> result B) : result B :=
  match m with
  | Ok a => k a
  | Err e => Err e
  end.

Notation "x <- m ;; k" := (bind m (fun x => k))
  (at level 61, m at next level, right associativity).

Definition fmap {A B : Type} (f : A -> B) (m : result A) : result B :=
  x <- m ;; Ok (f x).

(** [l[i]] on a sequence: a negative index counts from the end, an index
    outside [-len, len) raises [IndexError]. *)
Definition py_index {A : Type} (l : list A) (i : Z) : result A :=
  let len := Z.of_nat (length l) in
  let j := (if i <? 0 then len + i else i)%Z in
  if ((0 <=? j) && (j <? len))%Z
  then match nth_error l (Z.to_nat j) with
       | Some v => Ok v
       | None => Err IndexError
       end
  else Err IndexError.

(** [l[i] = v]. *)
Fixpoint list_set {A : Type} (l : list A) (n : nat) (v : A) : list A :=
  match l, n with
  | [], _ => []
  | _ :: l', O => v :: l'
  | a :: l', S n' => a :: list_set l' n' v
  end.

Definition py_setitem {A : Type} (l : list A) (i : Z) (v : A) : result (list A) :=
  let len := Z.of_nat (length l) in
  let j := (if i <? 0 then len + i else i)%Z in
  if ((0 <=? j) && (j <? len))%Z
  then Ok (list_set l (Z.to_nat j) v)
  else Err IndexError.

(** [range(a, b)] and [reversed(range(a, b))]. *)
Definition py_range (a b : Z) : list Z :=
  map (fun k => (a + Z.of_nat k)%Z) (seq 0 (Z.to_nat (b - a))).

Definition py_reversed_range (a b : Z) : list Z := rev (py_range a b).

(** [a // b]. *)
Definition py_floordiv (a b : Z) : result Z :=
  if (b =? 0)%Z then Err ZeroDivisionError else Ok (a / b)%Z.

(** ** numpy and torch primitives *)

(** Elementwise combination of two arrays of one shape. *)
Fixpoint map2 {A B C : Type} (f : A -> B -> C) (l : list A) (m : list B) : list C :=
  match l, m with
  | a :: l', b :: m' => f a b :: map2 f l' m'
  | _, _ => []
  end.

Fixpoint map3 {A B C D : Type} (f : A -> B -> C -> D)
  (l : list A) (m : list B) (n : list C) : list D :=
  match l, m, n with
  | a :: l', b :: m', c :: n' => f a b c :: map3 f l' m' n'
  | _, _, _ => []
  end.

(** [np.clip(v, a_min, a_max)], that is [minimum(a_max, maximum(v, a_min))]. *)
Definition clip (a_min a_max v : R) : R := Rmin a_max (Rmax v a_min).

(** [np.zeros(n)] and [np.ones(n)] for an integer [n]: negative dimensions
    are not allowed. *)
Definition np_zeros (n : Z) : result (list R) :=
  if (n <? 0)%Z then Err ValueError else Ok (repeat 0 (Z.to_nat n)).

Definition np_ones (n : Z) : result (list R) :=
  if (n <? 0)%Z then Err ValueError else Ok (repeat 1 (Z.to_nat n)).

(** Truncation of a real towards zero. *)
Definition Rtrunc (r : R) : Z :=
  if Rle_dec 0 r then Int_part r else (- Int_part (- r))%Z.

(** The integers of a signed 32-bit word. *)
Definition int32_range (z : Z) : bool :=
  ((- 2147483648 <=? z) && (z <? 2147483648))%Z.

(** [.astype(np.uint8)] on a float.  The fractional part is dropped and
    the integer is converted through a signed 32-bit word, of which the low
    byte is kept: the integer modulo 256 when it fits the word, and 0 when it
    does not (the conversion of x86-64 then yields the word [0x80000000]). *)
Definition astype_uint8 (r : R) : Z :=
  if int32_range (Rtrunc r) then (Rtrunc r mod 256)%Z else 0%Z.

(** The floating-point products of the routines that are cast: the exact
    product rounded to the format of the array, float32 or float64. *)
Class FloatFormat : Type := {
  round32 : R -> R;
  round64 : R -> R
}.

(** Exact arithmetic: no product is rounded. *)
#[export] Instance exact_arithmetic : FloatFormat | 100 :=
  {| round32 := fun r => r; round64 := fun r => r |}.

(** [torch.randn(shape)], the [k]-th draw of a call, for a shape of [n]
    entries. *)
Definition randn (rng : nat -> nat -> R) (k n : nat) : list R :=
  map (rng k) (seq 0 n).

(** The [sigma] argument: [None], a scalar, or a sequence. *)
Inductive sigma_arg : Type :=
| SigmaNone
| SigmaScalar (s : R)
| SigmaSeq (l : list R).

(** Lines 115-119 and 183-187: [None] becomes [np.zeros(t)], a value
    without [__getitem__] becomes [np.ones(t) * sigma]. *)
Definition sigma_schedule (sigma : sigma_arg) (t : Z) : result (list R) :=
  match sigma with
  | SigmaNone => np_zeros t
  | SigmaScalar s => ones <- np_ones t ;; Ok (map (fun o => o * s) ones)
  | SigmaSeq l => Ok l
  end.

(** What [reconstruct] returns: the last sample, or the quantized
    sequence when [return_sequences] is set. *)
Inductive output : Type :=
| Final (x : list R)
| Sequences (frames : list (list Z)).

(** The state of the sampling loops: the current sample [x], the frames
    recorded so far ([reconstruct_sequentially] records none), the number of
    tensors drawn from the random source, and the local [t_tensor], unbound
    until the body has run once. *)
Record loop_state : Type := mkLoop {
  x : list R;
  reconstructions : list (list Z);
  draws : nat;
  t_tensor : option Z
}.

(** [for v in vs: body]: the first exception ends the loop. *)
Fixpoint py_for {S : Type} (body : S -> Z -> result S) (vs : list Z) (s : S)
  : result S :=
  match vs with
  | [] => Ok s
  | v :: vs' => s' <- body s v ;; py_for body vs' s'
  end.

(** [del t_tensor]. *)
Definition del_t_tensor (s : loop_state) : result unit :=
  match t_tensor s with
  | Some _ => Ok tt
  | None => Err UnboundLocalError
  end.

(** ** The reconstruction routines *)

Section Reconstruction.

(** [get_alpha_bar] is imported from [utils.diffusionDataset]; the routines
    only index the array it returns. *)
Variable get_alpha_bar : list R -> list R.

(** The noise predictor and the random source. *)
Variable net : list R -> Z -> list R.
Variable rng : nat -> nat -> R.

Context {fmt : FloatFormat}.

(** Line 25 and line 67: the estimate of the clean image.  The [clip]
    is applied to [np.sqrt(alpha_bar)], the divisor. *)
Definition x0_estimate (alpha_bar : R) (noisy_image noise : list R) : list R :=
  map2 (fun v n => (v - n * sqrt (1 - alpha_bar)) / clip 0 1 (sqrt alpha_bar))
       noisy_image noise.

Definition reconstruct_image_from_noise
  (noisy_image noise : list R) (t : Z) (variance_schedule : list R)
  : result (list R) :=
  alpha_bar <- py_index (get_alpha_bar variance_schedule) t ;;
  Ok (x0_estimate alpha_bar noisy_image noise).

Definition reconstruct_single_step
  (noisy_image : list R) (t : Z) (variance_schedule : list R)
  : result (list R) :=
  let pred_noise := net noisy_image t in
  alpha_bar <- py_index (get_alpha_bar variance_schedule) t ;;
  let rec_single_step := x0_estimate alpha_bar noisy_image pred_noise in
  Ok (map (clip 0 1) rec_single_step).

(** Line 141: the strided update of one entry. *)
Definition strided_update (overstep f a_ti s_ti : R) (v p z : R) : R :=
  (v - (1 + overstep) * p * (1 - f) / sqrt (1 - a_ti)) / sqrt f + s_ti * z.

(** [(a * 255).astype(np.uint8)] on an array whose products round by
    [round]. *)
Definition quantize_with (round : R -> R) (frame : list R) : list Z :=
  map (fun v => astype_uint8 (round (v * 255))) frame.

(** Line 144: a frame of the loop as stored, from a float32 tensor. *)
Definition quantize (frame : list R) : list Z := quantize_with round32 frame.

(** Line 131: the frames as stored before the loop, from the float64
    array [reconstructions]. *)
Definition quantize64 (frame : list R) : list Z := quantize_with round64 frame.

(** Lines 135-144: the body of the loop of [reconstruct]. *)
Definition reconstruct_body
  (alpha_bar sigma : list R) (n step_size : Z) (overstep : R)
  (return_sequences : bool) (s : loop_state) (i : Z) : result loop_state :=
  let ti := (i * step_size)%Z in
  let pred_noise := net (x s) ti in
  a_ti <- py_index alpha_bar ti ;;
  a_prev <- py_index alpha_bar (ti - step_size) ;;
  let f := a_ti / a_prev in
  s_ti <- py_index sigma ti ;;
  let z := randn rng (draws s) (length (x s)) in
  let x' := map3 (strided_update overstep f a_ti s_ti) (x s) pred_noise z in
  recs <- (if return_sequences
           then py_setitem (reconstructions s) (n - i)
                           (quantize (map (clip 0 1) x'))
           else Ok (reconstructions s)) ;;
  Ok (mkLoop x' recs (S (draws s)) (Some ti)).

Definition reconstruct
  (noisy_image : list R) (t : Z) (variance_schedule : list R) (step_size : Z)
  (overstep : R) (sigma : sigma_arg) (return_sequences : bool)
  : result output :=
  sigma <- sigma_schedule sigma t ;;
  let alpha_bar := get_alpha_bar variance_schedule in
  n <- py_floordiv t step_size ;;
  (* np.zeros((t//step_size,) + noisy_image.shape) *)
  _ <- np_zeros n ;;
  let zeros := repeat (repeat 0 (length noisy_image)) (Z.to_nat n) in
  (* reconstructions[0] = noisy_image.reshape(1, *noisy_image.shape) *)
  frames <- py_setitem zeros 0 noisy_image ;;
  (* x = torch.Tensor(reconstructions[:1]) *)
  let x0 := concat (firstn 1 frames) in
  (* reconstructions = (reconstructions*255).astype(np.uint8) *)
  let frames := map quantize64 frames in
  s <- py_for (reconstruct_body alpha_bar sigma n step_size overstep return_sequences)
              (py_reversed_range 1 n)
              (mkLoop x0 frames O None) ;;
  _ <- del_t_tensor s ;;
  if return_sequences
  then Ok (Sequences (reconstructions s))
  else Ok (Final (map (clip 0 1) (x s))).

(** Line 203: the unit update of one entry. *)
Definition unit_update (b a_ti s_ti : R) (v p z : R) : R :=
  (v - p * b / sqrt (1 - a_ti)) / sqrt (1 - b) + s_ti * z.

(** Lines 200-203: the body of the loop of [reconstruct_sequentially]. *)
Definition sequential_body
  (beta alpha_bar sigma : list R) (s : loop_state) (ti : Z) : result loop_state :=
  let pred_noise := net (x s) ti in
  b <- py_index beta ti ;;
  a_ti <- py_index alpha_bar ti ;;
  s_ti <- py_index sigma ti ;;
  let z := randn rng (draws s) (length (x s)) in
  let x' := map3 (unit_update b a_ti s_ti) (x s) pred_noise z in
  Ok (mkLoop x' (reconstructions s) (S (draws s)) (Some ti)).

Definition reconstruct_sequentially
  (noisy_image : list R) (t : Z) (variance_schedule : list R) (sigma : sigma_arg)
  : result (list R) :=
  sigma <- sigma_schedule sigma t ;;
  let beta := variance_schedule in
  let alpha_bar := get_alpha_bar variance_schedule in
  s <- py_for (sequential_body beta alpha_bar sigma)
              (py_reversed_range 1 t)
              (mkLoop noisy_image [] O None) ;;
  _ <- del_t_tensor s ;;
  Ok (map (clip 0 1) (x s)).

End Reconstruction.

(** ** The schedule transform *)

(** Modelled from the spec: [get_alpha_bar] of [utils/diffusionDataset.py],
    which is not among the sources.  Entry [t] of the result is the product
    of [1 - beta_i] over the first [t] variances and entry 0 is 1, so that
    the schedule [[0.1; 0.2; 0.3]] gives [[1; 0.9; 0.72; 0.504]]. *)
Fixpoint running_product (acc : R) (betas : list R) : list R :=
  match betas with
  | [] => [acc]
  | b :: betas' => acc :: running_product (acc * (1 - b)) betas'
  end.

(** Modelled from the spec: the schedule transform
    [compute_cumulative_retention], of length [T + 1] for [T] variances. *)
Definition compute_cumulative_retention (variance_schedule : list R) : list R :=
  running_product 1 variance_schedule.


(** A variance schedule of the data model: every variance is in (0, 1). *)
Definition valid_schedule (variance_schedule : list R) : Prop :=
  Forall (fun b => 0 < b < 1) variance_schedule.

(** A sample with entries in [0, 1]. *)
Definition in_unit_range (sample : list R) : Prop :=
  Forall (fun v => 0 <= v <= 1) sample.

(** [sigma] is identically zero. *)
Definition zero_sigma (sigma : sigma_arg) : Prop :=
  match sigma with
  | SigmaNone => True
  | SigmaScalar s => s = 0
  | SigmaSeq l => Forall (fun v => v = 0) l
  end.

(** The noise predictor that always returns zeros. *)
Definition zero_net (sample : list R) (ti : Z) : list R :=
  repeat 0 (length sample).

(** A predictor that answers ones at timestep 2 and zeros elsewhere. *)
Definition probe_net (sample : list R) (ti : Z) : list R :=
  if (ti =? 2)%Z then repeat 1 (length sample) else repeat 0 (length sample).

(** The sequence a [sigma] argument stands for has an entry for every
    timestep below [t]. *)
Definition sigma_covers (sigma : sigma_arg) (t : Z) : Prop :=
  match sigma with
  | SigmaSeq l => (t <= Z.of_nat (length l))%Z
  | _ => True
  end.

(** The retention coefficients follow the variances at the timesteps
    [1 .. t-1]: [alpha_bar[ti] = alpha_bar[ti-1] * (1 - beta[ti])], with
    [alpha_bar[ti-1]] positive. *)
Definition retention_recurrence (alpha_bar beta : list R) (t : Z) : Prop :=
  forall ti, (1 <= ti < t)%Z ->
    exists a_prev a_ti b,
      py_index alpha_bar (ti - 1) = Ok a_prev /\
      py_index alpha_bar ti = Ok a_ti /\
      py_index beta ti = Ok b /\
      a_ti = a_prev * (1 - b) /\ 0 < a_prev.

(** ** Relating two runs *)

(** Two outcomes are related: two results in the relation, or the same
    exception. *)
Definition result_rel {A B : Type} (Rel : A -> B -> Prop)
  (r1 : result A) (r2 : result B) : Prop :=
  match r1, r2 with
  | Ok a, Ok b => Rel a b
  | Err e1, Err e2 => e1 = e2
  | _, _ => False
  end.

(** The part of the loop state the samplers share. *)
Definition same_sample (s1 s2 : loop_state) : Prop :=
  x s1 = x s2 /\ draws s1 = draws s2 /\ t_tensor s1 = t_tensor s2.

(** The states a loop goes through, one per iteration. *)
Fixpoint py_scan {S : Type} (body : S -> Z -> result S) (vs : list Z) (s : S)
  : result (list S) :=
  match vs with
  | [] => Ok []
  | v :: vs' => s' <- body s v ;; rest <- py_scan body vs' s' ;; Ok (s' :: rest)
  end.

(** The samples [x] of [reconstruct] after each iteration of its loop, in
    the order they are computed. *)
Definition sample_path {fmt : FloatFormat}
  (get_alpha_bar : list R -> list R) (net : list R -> Z -> list R)
  (rng : nat -> nat -> R)
  (noisy_image : list R) (t : Z) (variance_schedule : list R) (step_size : Z)
  (overstep : R) (sigma : sigma_arg) : result (list (list R)) :=
  sigma <- sigma_schedule sigma t ;;
  n <- py_floordiv t step_size ;;
  states <- py_scan (reconstruct_body net rng (get_alpha_bar variance_schedule) sigma n
                       step_size overstep false)
                    (py_reversed_range 1 n) (mkLoop noisy_image [] O None) ;;
  Ok (map x states).

(** ** Arrays as buffers: which operations copy and which alias *)

Module Heap.

Inductive dtype : Set := float32 | float64.

(** A buffer holds the rows of an array along its first axis, as floats
    of one of two widths or as bytes.  A sample is a buffer of one row:
    the array and its [reshape(1, ...)] view are the same buffer. *)
Inductive buffer : Type :=
| FloatRows (d : dtype) (rows : list (list R))
| ByteRows (rows : list (list Z)).

(** The width of the result of numpy arithmetic on two arrays. *)
Definition promote (d1 d2 : dtype) : dtype :=
  match d1, d2 with
  | float32, float32 => float32
  | _, _ => float64
  end.

Definition loc : Set := nat.
Definition store : Type := list buffer.

(** Computations on the store that may raise. *)
Definition M (A : Type) : Type := store -> result A * store.

Definition ret {A : Type} (a : A) : M A := fun h => (Ok a, h).

Definition lift {A : Type} (r : result A) : M A := fun h => (r, h).

Definition bindM {A B : Type} (m : M A) (k : A -> M B) : M B :=
  fun h =>
    match m h with
    | (Ok a, h') => k a h'
    | (Err e, h') => (Err e, h')
    end.

Notation "x <~ m ;; k" := (bindM m (fun x => k))
  (at level 61, m at next level, right associativity).

(** A new array. *)
Definition alloc (b : buffer) : M loc := fun h => (Ok (length h), h ++ [b]).

(** The rows of an array. *)
Definition float_rows (l : loc) : M (list (list R)) :=
  fun h => (Ok match nth_error h l with
               | Some (FloatRows _ rows) => rows
               | _ => []
               end, h).

Definition byte_rows (l : loc) : M (list (list Z)) :=
  fun h => (Ok match nth_error h l with
               | Some (ByteRows rows) => rows
               | _ => []
               end, h).

Definition dtype_at (h : list buffer) (l : nat) : dtype :=
  match nth_error h l with
  | Some (FloatRows d _) => d
  | _ => float64
  end.

Definition dtype_of (l : loc) : M dtype := fun h => (Ok (dtype_at h l), h).

(** The entries of an array, in row-major order. *)
Definition entries (l : loc) : M (list R) :=
  rows <~ float_rows l ;; ret (concat rows).

(** Writing into an array in place. *)
Definition put (l : loc) (b : buffer) : M unit :=
  fun h => (Ok tt, list_set h l b).

(** The state of the sampling loops: the tensor [x], the number of
    tensors drawn, and the local [t_tensor]. *)
Record loop_state : Type := mkLoop {
  x : loc;
  draws : nat;
  t_tensor : option Z
}.

Fixpoint py_for {S : Type} (body : S -> Z -> M S) (vs : list Z) (s : S) : M S :=
  match vs with
  | [] => ret s
  | v :: vs' => s' <~ body s v ;; py_for body vs' s'
  end.

Section Reconstruction.

Variable get_alpha_bar : list R -> list R.

(** The noise predictor is handed a tensor: it answers with the entries
    it leaves in that tensor and with its prediction, a tensor of its own. *)
Variable net : list R -> Z -> list R * list R.
Variable rng : nat -> nat -> R.

Context {fmt : FloatFormat}.

Definition call_net (sample : loc) (ti : Z) : M loc :=
  c <~ entries sample ;;
  d <~ dtype_of sample ;;
  _ <~ put sample (FloatRows d [fst (net c ti)]) ;;
  alloc (FloatRows float32 [snd (net c ti)]).

(** [torch.Tensor(a)] for a numpy array [a], seen as one row.  The tensor
    is float32: an array that is float32 already is not copied, the tensor
    shares its memory; an array of another width is converted, which
    copies. *)
Definition torch_Tensor (a : loc) : M loc :=
  d <~ dtype_of a ;;
  match d with
  | float32 => ret a
  | float64 => c <~ entries a ;; alloc (FloatRows float32 [c])
  end.

Definition reconstruct_image_from_noise (noisy_image noise : loc) (t : Z)
  (variance_schedule : list R) : M loc :=
  alpha_bar <~ lift (py_index (get_alpha_bar variance_schedule) t) ;;
  v <~ entries noisy_image ;;
  n <~ entries noise ;;
  d1 <~ dtype_of noisy_image ;;
  d2 <~ dtype_of noise ;;
  alloc (FloatRows (promote d1 d2) [x0_estimate alpha_bar v n]).

Definition reconstruct_single_step (noisy_image : loc) (t : Z)
  (variance_schedule : list R) : M loc :=
  noisy_image_batch <~ torch_Tensor noisy_image ;;
  (* on the cpu [.to(device)] returns the tensor itself *)
  pred_noise_device <~ call_net noisy_image_batch t ;;
  pred_noise <~ entries pred_noise_device ;;
  alpha_bar <~ lift (py_index (get_alpha_bar variance_schedule) t) ;;
  v <~ entries noisy_image ;;
  d <~ dtype_of noisy_image ;;
  rec_single_step <~
    alloc (FloatRows (promote d float32) [x0_estimate alpha_bar v pred_noise]) ;;
  r <~ entries rec_single_step ;;
  alloc (FloatRows (promote d float32) [map (clip 0 1) r]).

Definition reconstruct_body
  (alpha_bar sigma : list R) (n step_size : Z) (overstep : R)
  (return_sequences : bool) (reconstructions : loc) (s : loop_state) (i : Z)
  : M loop_state :=
  let ti := (i * step_size)%Z in
  pred_noise <~ call_net (x s) ti ;;
  a_ti <~ lift (py_index alpha_bar ti) ;;
  a_prev <~ lift (py_index alpha_bar (ti - step_size)) ;;
  let f := a_ti / a_prev in
  v <~ entries (x s) ;;
  p <~ entries pred_noise ;;
  s_ti <~ lift (py_index sigma ti) ;;
  let z := randn rng (draws s) (length v) in
  x' <~ alloc (FloatRows float32 [map3 (strided_update overstep f a_ti s_ti) v p z]) ;;
  _ <~ (if return_sequences
        then v' <~ entries x' ;;
             frames <~ byte_rows reconstructions ;;
             frames' <~ lift (py_setitem frames (n - i) (quantize (map (clip 0 1) v'))) ;;
             put reconstructions (ByteRows frames')
        else ret tt) ;;
  ret (mkLoop x' (S (draws s)) (Some ti)).

Definition del_t_tensor (s : loop_state) : M unit :=
  match t_tensor s with
  | Some _ => ret tt
  | None => lift (Err UnboundLocalError)
  end.

Definition reconstruct (noisy_image : loc) (t : Z) (variance_schedule : list R)
  (step_size : Z) (overstep : R) (sigma : sigma_arg) (return_sequences : bool)
  : M loc :=
  sigma <~ lift (sigma_schedule sigma t) ;;
  let alpha_bar := get_alpha_bar variance_schedule in
  n <~ lift (py_floordiv t step_size) ;;
  noisy <~ entries noisy_image ;;
  _ <~ lift (np_zeros n) ;;
  recs <~ alloc (FloatRows float64 (repeat (repeat 0 (length noisy)) (Z.to_nat n))) ;;
  (* reconstructions[0] = noisy_image.reshape(1, *noisy_image.shape) *)
  rows <~ float_rows recs ;;
  rows' <~ lift (py_setitem rows 0 noisy) ;;
  _ <~ put recs (FloatRows float64 rows') ;;
  (* x = torch.Tensor(reconstructions[:1]): float64, so converted *)
  rows <~ float_rows recs ;;
  x0 <~ alloc (FloatRows float32 (firstn 1 rows)) ;;
  (* reconstructions = (reconstructions*255).astype(np.uint8) *)
  rows <~ float_rows recs ;;
  recs8 <~ alloc (ByteRows (map quantize64 rows)) ;;
  s <~ py_for (reconstruct_body alpha_bar sigma n step_size overstep return_sequences
                 recs8)
              (py_reversed_range 1 n) (mkLoop x0 O None) ;;
  _ <~ del_t_tensor s ;;
  if return_sequences
  then ret recs8
  else v <~ entries (x s) ;; alloc (FloatRows float32 [map (clip 0 1) v]).

Definition sequential_body
  (beta alpha_bar sigma : list R) (s : loop_state) (ti : Z) : M loop_state :=
  pred_noise <~ call_net (x s) ti ;;
  v <~ entries (x s) ;;
  p <~ entries pred_noise ;;
  b <~ lift (py_index beta ti) ;;
  a_ti <~ lift (py_index alpha_bar ti) ;;
  s_ti <~ lift (py_index sigma ti) ;;
  let z := randn rng (draws s) (length v) in
  x' <~ alloc (FloatRows float32 [map3 (unit_update b a_ti s_ti) v p z]) ;;
  ret (mkLoop x' (S (draws s)) (Some ti)).

Definition reconstruct_sequentially (noisy_image : loc) (t : Z)
  (variance_schedule : list R) (sigma : sigma_arg) : M loc :=
  sigma <~ lift (sigma_schedule sigma t) ;;
  let beta := variance_schedule in
  let alpha_bar := get_alpha_bar variance_schedule in
  x0 <~ torch_Tensor noisy_image ;;
  s <~ py_for (sequential_body beta alpha_bar sigma) (py_reversed_range 1 t)
              (mkLoop x0 O None) ;;
  _ <~ del_t_tensor s ;;
  v <~ entries (x s) ;;
  alloc (FloatRows float32 [map (clip 0 1) v]).

(** The predictor keeps its contract: it leaves the tensor it is handed
    as it is. *)
Definition side_effect_free : Prop := forall c ti, fst (net c ti) = c.

End Reconstruction.

(** *** The part of the store that exists before a call *)

Definition kept (h0 h : store) : Prop := exists ext, h = h0 ++ ext.

(** An array allocated after [h0]. *)
Definition fresh (h0 : store) (l : loc) : Prop := (length h0 <= l)%nat.

(** The array at [l] is a sample. *)
Definition sample_at (h : store) (l : loc) : Prop :=
  exists d v, nth_error h l = Some (FloatRows d [v]).

(** A tensor that may be handed to the predictor [net] without a change
    to [h0]: one allocated after [h0], or a sample of [h0] when [net] keeps
    its contract. *)
Definition safe_for (h0 : store) (net : list R -> Z -> list R * list R) (l : loc)
  : Prop :=
  fresh h0 l \/ (side_effect_free net /\ sample_at h0 l).

(** [m], started in a store that keeps [h0], ends in one, and what it
    returns satisfies [Q]. *)
Definition preserves (h0 : store) {A : Type} (m : M A) (Q : A -> Prop) : Prop :=
  forall h, kept h0 h ->
    kept h0 (snd (m h)) /\ (forall a, fst (m h) = Ok a -> Q a).

(** Run in [h0], [m] leaves the array at [l] as it was, whether it
    returns or raises, and the array it returns is another one. *)
Definition leaves_unchanged (h0 : store) (l : loc) (m : M loc) : Prop :=
  nth_error (snd (m h0)) l = nth_error h0 l
  /\ (forall l', fst (m h0) = Ok l' -> l' <> l).

End Heap.

(** *** Buffers and values *)

(** The array at [l] is the sample [v]. *)
Definition holds (h : Heap.store) (l : Heap.loc) (v : list R) : Prop :=
  exists d, nth_error h l = Some (Heap.FloatRows d [v]).

Definition holds_output (h : Heap.store) (l : Heap.loc) (out : output) : Prop :=
  match out with
  | Final y => holds h l y
  | Sequences frames => nth_error h l = Some (Heap.ByteRows frames)
  end.

(** A predictor that leaves the tensor it is handed as it is. *)
Definition quiet (net : list R -> Z -> list R) (c : list R) (ti : Z)
  : list R * list R :=
  (c, net c ti).

(** A predictor that zeroes the tensor it is handed, in place, and
    answers with what the tensor held. *)
Definition scrubbing_net (c : list R) (ti : Z) : list R * list R :=
  (repeat 0 (length c), c).

(** A run on buffers agrees with the run on values: the same exception,
    or an array that holds the value. *)
Definition agrees {A : Type} (P : Heap.store -> Heap.loc -> A -> Prop)
  (run : result Heap.loc * Heap.store) (r : result A) : Prop :=
  match run with
  | (Ok l, h') => exists a, r = Ok a /\ P h' l a
  | (Err e, _) => r = Err e
  end.

Definition agrees_state (Sim : Heap.store -> Heap.loop_state -> loop_state -> Prop)
  (run : result Heap.loop_state * Heap.store) (r : result loop_state) : Prop :=
  match run with
  | (Ok s', h') => exists ps', r = Ok ps' /\ Sim h' s' ps'
  | (Err e, _) => r = Err e
  end.

(** The loop states on buffers and on values: the tensor [x] holds the
    sample, and the byte array [recs] holds the frames. *)
Definition sim (recs : Heap.loc) (h : Heap.store) (s : Heap.loop_state)
  (ps : loop_state) : Prop :=
  holds h (Heap.x s) (x ps)
  /\ Heap.draws s = draws ps
  /\ Heap.t_tensor s = t_tensor ps
  /\ nth_error h recs = Some (Heap.ByteRows (reconstructions ps)).

(** [reconstruct_sequentially] keeps no frames. *)
Definition sim_sample (h : Heap.store) (s : Heap.loop_state) (ps : loop_state)
  : Prop :=
  holds h (Heap.x s) (x ps)
  /\ Heap.draws s = draws ps
  /\ Heap.t_tensor s = t_tensor ps
  /\ reconstructions ps = [].

(** ** Shapes and bytes *)

(** The predictor answers with a tensor of the shape of the sample. *)
Definition shape_preserving (net : list R -> Z -> list R) : Prop :=
  forall sample ti, length (net sample ti) = length sample.

(** A frame of [uint8] entries of the shape of [sample]. *)
Definition byte_frame (sample : list R) (frame : list Z) : Prop :=
  length frame = length sample /\ Forall (fun v => (0 <= v < 256)%Z) frame.

(** [sigma] was given as [None] or as a scalar. *)
Definition sigma_is_broadcast (sigma : sigma_arg) : Prop :=
  match sigma with
  | SigmaSeq _ => False
  | _ => True
  end.

(** The predictor that answers with the noise [z], whatever it is handed. *)
Definition oracle_net (z : list R) (sample : list R) (ti : Z) : list R := z.

(** The retention coefficients are in (0, 1], and below 1 after the
    first: every square root and every quotient of the updates is then that
    of a positive number. *)
Definition retention_in_range (alpha_bar : list R) : Prop :=
  Forall (fun a => 0 < a <= 1) alpha_bar /\ Forall (fun a => a < 1) (tl alpha_bar).

(** ** The sequential path as the specification words it *)

(** The unit update applied once at every integer timestep from [ti] down
    to 1, to the sample [sample]; the [k]-th tensor of noise is the next to
    be drawn. *)
Fixpoint unit_descent (net : list R -> Z -> list R) (rng : nat -> nat -> R)
  (beta alpha_bar sigma : list R) (ti k : nat) (sample : list R)
  : result (list R) :=
  match ti with
  | O => Ok sample
  | S ti' =>
      b <- py_index beta (Z.of_nat ti) ;;
      a_ti <- py_index alpha_bar (Z.of_nat ti) ;;
      s_ti <- py_index sigma (Z.of_nat ti) ;;
      let pred_noise := net sample (Z.of_nat ti) in
      let z := randn rng k (length sample) in
      unit_descent net rng beta alpha_bar sigma ti' (S k)
        (map3 (unit_update b a_ti s_ti) sample pred_noise z)
  end.

(** ** Bytes as the specification words them *)

(** [k] is [p] with its fractional part dropped. *)
Definition truncation (p : R) (k : Z) : Prop :=
  (0 <= p -> IZR k <= p < IZR k + 1) /\ (p <= 0 -> IZR k - 1 < p <= IZR k).

(** The byte [b] is the number [p] stored wrapped modulo 256: [p]
    without its fractional part is [k], and [b] is the residue of [k]; but
    when [k] does not fit a signed 32-bit word, [b] is 0. *)
Definition stored_byte (p : R) (b : Z) : Prop :=
  exists k,
    truncation p k
    /\ (0 <= b < 256)%Z
    /\ ((- 2147483648 <= k < 2147483648)%Z -> exists q, k = (256 * q + b)%Z)
    /\ (~ (- 2147483648 <= k < 2147483648)%Z -> b = 0%Z).

(** * Properties *)

(** ** Clamping *)

Lemma clip_unit_range (v : R) : 0 <= clip 0 1 v <= 1.
Proof.
  unfold clip, Rmin, Rmax.
  destruct (Rle_dec v 0); destruct (Rle_dec 1 _); lra.
Qed.

Lemma clip_id (v : R) : 0 <= v <= 1 -> clip 0 1 v = v.
Proof.
  intros Hv. unfold clip, Rmin, Rmax.
  destruct (Rle_dec v 0); destruct (Rle_dec 1 _); lra.
Qed.

Lemma map_clip_unit_range (l : list R) : in_unit_range (map (clip 0 1) l).
Proof.
  unfold in_unit_range. apply Forall_forall. intros v Hin.
  apply in_map_iff in Hin. destruct Hin as [u [<- _]]. apply clip_unit_range.
Qed.

(** ** Indexing and ranges *)

Lemma py_index_Ok {A : Type} (l : list A) (i : Z) (d : A) :
  (0 <= i < Z.of_nat (length l))%Z -> py_index l i = Ok (nth (Z.to_nat i) l d).
Proof.
  intros H. unfold py_index.
  replace (i <? 0)%Z with false by (symmetry; apply Z.ltb_ge; lia).
  replace (0 <=? i)%Z with true by (symmetry; apply Z.leb_le; lia).
  replace (i <? Z.of_nat (length l))%Z with true by (symmetry; apply Z.ltb_lt; lia).
  simpl. destruct (nth_error l (Z.to_nat i)) eqn:E.
  - f_equal. symmetry. now apply nth_error_nth.
  - apply nth_error_None in E. lia.
Qed.

Lemma py_index_In {A : Type} (l : list A) (i : Z) (v : A) :
  py_index l i = Ok v -> In v l.
Proof.
  unfold py_index. destruct (_ && _); [|discriminate].
  destruct (nth_error _ _) eqn:E; [|discriminate].
  intros [= <-]. eapply nth_error_In; eauto.
Qed.

Lemma py_index_zero (l : list R) (i : Z) (v : R) :
  Forall (fun v => v = 0) l -> py_index l i = Ok v -> v = 0.
Proof.
  intros Hl Hi. apply py_index_In in Hi.
  rewrite Forall_forall in Hl. now apply Hl.
Qed.

Lemma list_set_app {A : Type} (pre post : list A) (old v : A) :
  list_set (pre ++ old :: post) (length pre) v = pre ++ v :: post.
Proof. induction pre as [|a pre IH]; simpl; [reflexivity | now rewrite IH]. Qed.

Lemma py_setitem_app {A : Type} (pre post : list A) (old v : A) (i : Z) :
  i = Z.of_nat (length pre) ->
  py_setitem (pre ++ old :: post) i v = Ok (pre ++ v :: post).
Proof.
  intros ->. unfold py_setitem. rewrite length_app. simpl length.
  replace (Z.of_nat (length pre) <? 0)%Z with false by (symmetry; apply Z.ltb_ge; lia).
  replace (0 <=? Z.of_nat (length pre))%Z with true by (symmetry; apply Z.leb_le; lia).
  replace (Z.of_nat (length pre) <? Z.of_nat (length pre + S (length post)))%Z with true
    by (symmetry; apply Z.ltb_lt; lia).
  cbn [andb]. now rewrite Nat2Z.id, list_set_app.
Qed.

Lemma py_setitem_first {A : Type} (z v : A) (n : Z) :
  (1 <= n)%Z ->
  py_setitem (repeat z (Z.to_nat n)) 0 v = Ok (v :: repeat z (Z.to_nat (n - 1))).
Proof.
  intros H. replace (Z.to_nat n) with (S (Z.to_nat (n - 1))) by lia.
  apply (py_setitem_app [] (repeat z (Z.to_nat (n - 1))) z v 0). reflexivity.
Qed.

Lemma py_setitem_head {A : Type} (l l' : list A) (v : A) :
  py_setitem l 0 v = Ok l' -> exists tl, l' = v :: tl.
Proof.
  unfold py_setitem. cbn [Z.ltb Z.compare]. destruct l as [|a l].
  - cbn. discriminate.
  - destruct (_ && _); [|discriminate]. cbn. intros [= <-]. eauto.
Qed.

Lemma first_row {A : Type} (v : list A) (tl : list (list A)) :
  concat (firstn 1 (v :: tl)) = v.
Proof. cbn. apply app_nil_r. Qed.

Lemma py_range_nil (a b : Z) : (b <= a)%Z -> py_range a b = [].
Proof.
  intros H. unfold py_range. replace (Z.to_nat (b - a)) with O by lia. reflexivity.
Qed.

Lemma py_reversed_range_nil (a b : Z) : (b <= a)%Z -> py_reversed_range a b = [].
Proof. intros H. unfold py_reversed_range. now rewrite py_range_nil. Qed.

Lemma py_reversed_range_cons (a b : Z) :
  (a < b)%Z -> py_reversed_range a b = (b - 1)%Z :: py_reversed_range a (b - 1).
Proof.
  intros H. unfold py_reversed_range, py_range.
  replace (Z.to_nat (b - a)) with (S (Z.to_nat (b - 1 - a))) by lia.
  rewrite seq_S, map_app, rev_app_distr. simpl. f_equal. lia.
Qed.

Lemma py_reversed_range_bounds (a b : Z) :
  Forall (fun v => (a <= v < b)%Z) (py_reversed_range a b).
Proof.
  apply Forall_forall. intros v Hin. unfold py_reversed_range, py_range in Hin.
  apply in_rev, in_map_iff in Hin. destruct Hin as [k [<- Hk]].
  apply in_seq in Hk. lia.
Qed.

Lemma py_reversed_range_In (a b v : Z) :
  In v (py_reversed_range a b) -> (a <= v < b)%Z.
Proof.
  pose proof (py_reversed_range_bounds a b) as Hb.
  rewrite Forall_forall in Hb. apply Hb.
Qed.

Lemma length_py_reversed_range (a b : Z) :
  length (py_reversed_range a b) = Z.to_nat (b - a).
Proof.
  unfold py_reversed_range, py_range. now rewrite length_rev, length_map, length_seq.
Qed.

Lemma last_cons {A : Type} (a d : A) (l : list A) : last (a :: l) d = last l a.
Proof.
  revert a d. induction l as [|b l IH]; intros a d; [reflexivity|].
  change (last (a :: b :: l) d) with (last (b :: l) d). now rewrite !IH.
Qed.

Lemma last_map {A B : Type} (f : A -> B) (l : list A) (d : A) :
  last (map f l) (f d) = f (last l d).
Proof.
  revert d. induction l as [|a l IH]; intros d; [reflexivity|].
  cbn [map]. now rewrite !last_cons, IH.
Qed.

(** ** Loops *)

Lemma py_for_ext {S : Type} (body1 body2 : S -> Z -> result S) (vs : list Z) :
  (forall s v, In v vs -> body1 s v = body2 s v) ->
  forall s, py_for body1 vs s = py_for body2 vs s.
Proof.
  induction vs as [|v vs IH]; intros Hb s; simpl; auto.
  rewrite Hb by now left. destruct (body2 s v); simpl; auto.
  apply IH. intros; apply Hb; now right.
Qed.

(** Two loops whose bodies keep a relation between their states run in
    step: they end in related states or with the same exception. *)
Lemma py_for_rel {S1 S2 : Type} (Rel : S1 -> S2 -> Prop)
  (body1 : S1 -> Z -> result S1) (body2 : S2 -> Z -> result S2) (vs : list Z) :
  (forall s1 s2 v, In v vs -> Rel s1 s2 -> result_rel Rel (body1 s1 v) (body2 s2 v)) ->
  forall s1 s2, Rel s1 s2 -> result_rel Rel (py_for body1 vs s1) (py_for body2 vs s2).
Proof.
  induction vs as [|v vs IH]; intros Hbody s1 s2 Hrel; simpl; auto.
  assert (Hv := Hbody s1 s2 v (or_introl eq_refl) Hrel).
  destruct (body1 s1 v) as [s1'|e1], (body2 s2 v) as [s2'|e2]; simpl in *;
    try contradiction; try assumption.
  apply IH; [|exact Hv]. intros u1 u2 w Hw. apply Hbody. now right.
Qed.

(** A loop whose body cannot fail on its values does not fail. *)
Lemma py_for_Ok {S : Type} (body : S -> Z -> result S) (vs : list Z) :
  (forall s v, In v vs -> exists s', body s v = Ok s') ->
  forall s, exists s', py_for body vs s = Ok s'.
Proof.
  induction vs as [|v vs IH]; intros Hb s; simpl; eauto.
  destruct (Hb s v (or_introl eq_refl)) as [s1 ->]. simpl.
  apply IH. intros u w Hw. apply Hb. now right.
Qed.

(** What every iteration establishes holds after a loop that ran. *)
Lemma py_for_bound {S : Type} (P : S -> Prop) (body : S -> Z -> result S)
  (vs : list Z) :
  (forall s v s', body s v = Ok s' -> P s') ->
  vs <> [] -> forall s s', py_for body vs s = Ok s' -> P s'.
Proof.
  intros Hb. induction vs as [|v vs IH]; intros Hne s s' Hrun; [congruence|].
  simpl in Hrun. destruct (body s v) as [s1|] eqn:E; simpl in Hrun; [|discriminate].
  destruct vs as [|w vs].
  - simpl in Hrun. injection Hrun as <-. eauto.
  - eapply IH; eauto. discriminate.
Qed.

Lemma py_scan_Ok {S : Type} (body : S -> Z -> result S) (vs : list Z) :
  (forall s v, In v vs -> exists s', body s v = Ok s') ->
  forall s, exists states, py_scan body vs s = Ok states /\ length states = length vs.
Proof.
  induction vs as [|v vs IH]; intros Hb s; cbn [py_scan]; [eauto|].
  destruct (Hb s v (or_introl eq_refl)) as [s1 ->]. cbn [bind].
  destruct (IH (fun u w Hw => Hb u w (or_intror Hw)) s1) as (rest & -> & Hlen).
  cbn [bind]. eexists. split; [reflexivity|]. simpl. now rewrite Hlen.
Qed.

Lemma py_scan_for {S : Type} (body : S -> Z -> result S) (vs : list Z) (s : S)
  (states : list S) :
  py_scan body vs s = Ok states -> py_for body vs s = Ok (last states s).
Proof.
  revert s states. induction vs as [|v vs IH]; intros s states; cbn [py_scan py_for].
  - intros [= <-]. reflexivity.
  - destruct (body s v) as [s1|]; cbn [bind]; [|discriminate].
    destruct (py_scan body vs s1) as [rest|] eqn:E; cbn [bind]; [|discriminate].
    intros [= <-]. rewrite last_cons. now apply IH.
Qed.

(** ** The [sigma] argument and the random source *)

Lemma sigma_schedule_Ok (sigma : sigma_arg) (t : Z) :
  (0 <= t)%Z -> exists l, sigma_schedule sigma t = Ok l.
Proof.
  intros H. destruct sigma; simpl; unfold np_zeros, np_ones;
    replace (t <? 0)%Z with false by (symmetry; apply Z.ltb_ge; lia); simpl; eauto.
Qed.

Lemma sigma_schedule_zero (sigma : sigma_arg) (t : Z) (l : list R) :
  zero_sigma sigma -> sigma_schedule sigma t = Ok l -> Forall (fun v => v = 0) l.
Proof.
  destruct sigma as [|s|l']; simpl; intros Hz.
  - unfold np_zeros. destruct (t <? 0)%Z; [discriminate|]. intros [= <-].
    apply Forall_forall. intros v Hv. now apply repeat_spec in Hv.
  - unfold np_ones. destruct (t <? 0)%Z; [discriminate|]. simpl. intros [= <-].
    apply Forall_forall. intros v Hv. apply in_map_iff in Hv.
    destruct Hv as [o [<- _]]. subst s. ring.
  - intros [= <-]. exact Hz.
Qed.

Lemma sigma_schedule_length (sigma : sigma_arg) (t : Z) (l : list R) :
  (0 <= t)%Z -> sigma_covers sigma t -> sigma_schedule sigma t = Ok l ->
  (t <= Z.of_nat (length l))%Z.
Proof.
  intros Ht. destruct sigma as [|s|l']; simpl; unfold np_zeros, np_ones;
    replace (t <? 0)%Z with false by (symmetry; apply Z.ltb_ge; lia); simpl;
    intros Hc [= <-]; rewrite ?length_map, ?repeat_length; lia.
Qed.

Lemma length_randn (rng : nat -> nat -> R) (k n : nat) : length (randn rng k n) = n.
Proof. unfold randn. now rewrite length_map, length_seq. Qed.

Lemma map3_ext {A B C D : Type} (f g : A -> B -> C -> D)
  (l : list A) (m : list B) (n1 n2 : list C) :
  (forall a b c c', f a b c = g a b c') -> length n1 = length n2 ->
  map3 f l m n1 = map3 g l m n2.
Proof.
  intros Hfg. revert m n1 n2.
  induction l as [|a l IH]; intros [|b m] [|c n1] [|c' n2] Hlen; simpl in *;
    try discriminate; auto.
  f_equal; auto.
Qed.

(** ** The schedule transform *)

Lemma length_running_product (acc : R) (betas : list R) :
  length (running_product acc betas) = S (length betas).
Proof. revert acc. induction betas; intros; simpl; auto. Qed.

Lemma nth_running_product_const (b : R) (n k : nat) (acc : R) :
  (k <= n)%nat ->
  nth k (running_product acc (repeat b n)) 0 = acc * (1 - b) ^ k.
Proof.
  revert k acc. induction n as [|n IH]; intros k acc Hk.
  - replace k with O by lia. simpl. ring.
  - destruct k as [|k]; simpl.
    + ring.
    + rewrite IH by lia. ring.
Qed.

(** On a constant schedule the retention at [k] is the [k]-th power. *)
Lemma py_index_retention_const (b : R) (n k : nat) :
  (k <= n)%nat ->
  py_index (compute_cumulative_retention (repeat b n)) (Z.of_nat k) = Ok ((1 - b) ^ k).
Proof.
  intros Hk. unfold compute_cumulative_retention.
  rewrite (py_index_Ok _ _ 0).
  - rewrite Nat2Z.id, nth_running_product_const by lia. f_equal. ring.
  - rewrite length_running_product, repeat_length. lia.
Qed.

(** The example of the specification: [[0.1; 0.2; 0.3]] gives
    [[1; 0.9; 0.72; 0.504]]. *)
Example compute_cumulative_retention_example :
  Forall2 eq (compute_cumulative_retention [1 / 10; 2 / 10; 3 / 10])
    [1; 9 / 10; 72 / 100; 504 / 1000].
Proof. cbn. repeat constructor; lra. Qed.

Lemma sqrt_stride_ratio (r : R) (k : nat) :
  0 < r -> sqrt (r ^ S (S k) / r ^ k) = r.
Proof.
  intros Hr. assert (Hk : r ^ k <> 0) by (apply pow_nonzero; lra).
  replace (r ^ S (S k) / r ^ k) with (r * r).
  - apply sqrt_square. lra.
  - cbn [pow]. field. exact Hk.
Qed.

Lemma sqrt_one_quarter : sqrt (1 - 3 / 4) = 1 / 2.
Proof. apply sqrt_lem_1; lra. Qed.

Lemma sqrt_quarter : sqrt (1 * (1 - 3 / 4)) = 1 / 2.
Proof. apply sqrt_lem_1; lra. Qed.

Lemma sqrt_sixteenth : sqrt (1 * (1 - 3 / 4) * (1 - 3 / 4)) = 1 / 4.
Proof. apply sqrt_lem_1; lra. Qed.

(** ** One-shot direct reconstruction *)

Lemma x0_estimate_roundtrip (alpha_bar : R) (x0 z : list R) :
  0 < alpha_bar <= 1 -> length z = length x0 ->
  x0_estimate alpha_bar
    (map2 (fun v n => sqrt alpha_bar * v + sqrt (1 - alpha_bar) * n) x0 z) z
  = x0.
Proof.
  intros Hab.
  assert (Hs : 0 < sqrt alpha_bar) by (apply sqrt_lt_R0; lra).
  assert (Hs1 : sqrt alpha_bar <= 1) by (rewrite <- sqrt_1; apply sqrt_le_1; lra).
  revert z. induction x0 as [|v x0 IH]; intros [|n z] Hlen; simpl in *;
    try discriminate; auto.
  unfold x0_estimate in *. simpl. rewrite IH by lia. f_equal.
  rewrite clip_id by lra. field. lra.
Qed.

(** C5: for a timestep [t] of the schedule, whose retention coefficient
    [alpha_bar[t]] is in (0, 1], every clean sample [x0] (its entries need
    not even be in [0, 1]) and every noise [z] of the shape of [x0]:
    [reconstruct_image_from_noise] applied to
    [sqrt(alpha_bar[t])*x0 + sqrt(1 - alpha_bar[t])*z] and the same [z] returns
    [x0], in exact arithmetic. *)
Theorem image_from_noise_roundtrip
  (get_alpha_bar : list R -> list R) (variance_schedule : list R) (t : Z)
  (alpha_bar : R) (x0 z : list R) :
  py_index (get_alpha_bar variance_schedule) t = Ok alpha_bar ->
  0 < alpha_bar <= 1 ->
  length z = length x0 ->
  reconstruct_image_from_noise get_alpha_bar
    (map2 (fun v n => sqrt alpha_bar * v + sqrt (1 - alpha_bar) * n) x0 z)
    z t variance_schedule = Ok x0.
Proof.
  intros Hidx Hab Hlen. unfold reconstruct_image_from_noise.
  rewrite Hidx. simpl. f_equal. now apply x0_estimate_roundtrip.
Qed.

Lemma image_from_noise_roundtrip_witness :
  reconstruct_image_from_noise compute_cumulative_retention
    (map2 (fun v n => sqrt (1 * (1 - 3 / 4)) * v + sqrt (1 - 1 * (1 - 3 / 4)) * n)
          [1 / 2; 1] [2; -1])
    [2; -1] 1 [3 / 4] = Ok [1 / 2; 1].
Proof.
  apply (image_from_noise_roundtrip compute_cumulative_retention [3 / 4] 1
           (1 * (1 - 3 / 4)) [1 / 2; 1] [2; -1]).
  - reflexivity.
  - lra.
  - reflexivity.
Defined.

(** The retention coefficients of a valid schedule are in (0, 1], so the
    round trip holds at every timestep of a valid schedule. *)
Lemma running_product_range (acc : R) (betas : list R) :
  0 < acc <= 1 -> valid_schedule betas ->
  Forall (fun a => 0 < a <= 1) (running_product acc betas).
Proof.
  revert acc. induction betas as [|b betas IH]; intros acc Hacc Hv; simpl.
  - constructor; [lra | constructor].
  - inversion Hv as [|? ? Hb Hv']; subst. constructor; [lra|].
    apply IH; [nra | exact Hv'].
Qed.

Corollary image_from_noise_roundtrip_valid
  (variance_schedule : list R) (t : Z) (x0 z : list R) :
  valid_schedule variance_schedule ->
  (0 <= t <= Z.of_nat (length variance_schedule))%Z ->
  length z = length x0 ->
  exists alpha_bar,
    py_index (compute_cumulative_retention variance_schedule) t = Ok alpha_bar
    /\ reconstruct_image_from_noise compute_cumulative_retention
         (map2 (fun v n => sqrt alpha_bar * v + sqrt (1 - alpha_bar) * n) x0 z)
         z t variance_schedule = Ok x0.
Proof.
  intros Hv Ht Hlen.
  assert (Hidx : py_index (compute_cumulative_retention variance_schedule) t
                 = Ok (nth (Z.to_nat t) (compute_cumulative_retention variance_schedule) 0)).
  { apply py_index_Ok. unfold compute_cumulative_retention.
    rewrite length_running_product. lia. }
  eexists. split; [exact Hidx|].
  unfold reconstruct_image_from_noise. rewrite Hidx. cbn [bind]. f_equal.
  apply x0_estimate_roundtrip; [|exact Hlen].
  pose proof (running_product_range 1 variance_schedule ltac:(lra) Hv) as Hr.
  rewrite Forall_forall in Hr. apply Hr. eapply py_index_In. exact Hidx.
Qed.

(** C4: [reconstruct_image_from_noise] clamps the divisor
    [sqrt(alpha_bar)], not the quotient: on the sample [1.0] with zero noise,
    at [t = 1] of the schedule [[0.75; 0.75]], it returns [2.0], which is not
    in [0, 1]. *)
Theorem image_from_noise_unclamped :
  reconstruct_image_from_noise compute_cumulative_retention [1] [0] 1 [3 / 4; 3 / 4]
  = Ok [2]
  /\ ~ in_unit_range [2].
Proof.
  split.
  - unfold reconstruct_image_from_noise.
    change (py_index (compute_cumulative_retention [3 / 4; 3 / 4]) 1)
      with (Ok (1 * (1 - 3 / 4))).
    cbn. rewrite sqrt_quarter. rewrite clip_id by lra. do 2 f_equal. field.
  - unfold in_unit_range. intros H. inversion H; subst. lra.
Qed.

(** The three routines that end in [.clip(0, 1)] return samples in
    [0, 1]. *)
Lemma reconstruct_single_step_unit_range get_alpha_bar net noisy_image t
  variance_schedule y :
  reconstruct_single_step get_alpha_bar net noisy_image t variance_schedule = Ok y ->
  in_unit_range y.
Proof.
  unfold reconstruct_single_step.
  destruct (py_index _ _); cbn [bind]; [|discriminate].
  intros [= <-]. apply map_clip_unit_range.
Qed.

Lemma reconstruct_unit_range {fmt : FloatFormat} get_alpha_bar net rng noisy_image t variance_schedule
  step_size overstep sigma y :
  reconstruct get_alpha_bar net rng noisy_image t variance_schedule step_size overstep
    sigma false = Ok (Final y) ->
  in_unit_range y.
Proof.
  unfold reconstruct.
  destruct (sigma_schedule _ _); cbn [bind]; [|discriminate].
  destruct (py_floordiv _ _); cbn [bind]; [|discriminate].
  destruct (np_zeros _); cbn [bind]; [|discriminate].
  destruct (py_setitem _ _ _); cbn [bind]; [|discriminate].
  destruct (py_for _ _ _); cbn [bind]; [|discriminate].
  destruct (del_t_tensor _); cbn [bind]; [|discriminate].
  intros [= <-]. apply map_clip_unit_range.
Qed.

Lemma reconstruct_sequentially_unit_range get_alpha_bar net rng noisy_image t
  variance_schedule sigma y :
  reconstruct_sequentially get_alpha_bar net rng noisy_image t variance_schedule sigma
  = Ok y ->
  in_unit_range y.
Proof.
  unfold reconstruct_sequentially.
  destruct (sigma_schedule _ _); cbn [bind]; [|discriminate].
  destruct (py_for _ _ _); cbn [bind]; [|discriminate].
  destruct (del_t_tensor _); cbn [bind]; [|discriminate].
  intros [= <-]. apply map_clip_unit_range.
Qed.

(** ** Runs that end in an exception *)

Section Boundary.

Variable get_alpha_bar : list R -> list R.
Variable net : list R -> Z -> list R.
Variable rng : nat -> nat -> R.

Context {fmt : FloatFormat}.

(** A stride above the start timestep leaves no frame to hold the input:
    line 128 indexes an empty array. *)
Lemma reconstruct_empty_buffer noisy_image t variance_schedule step_size overstep
  sigma return_sequences :
  (0 <= t < step_size)%Z ->
  reconstruct get_alpha_bar net rng noisy_image t variance_schedule step_size
    overstep sigma return_sequences = Err IndexError.
Proof.
  intros H. unfold reconstruct.
  destruct (sigma_schedule_Ok sigma t) as [l ->]; [lia|]. simpl.
  unfold py_floordiv.
  replace (step_size =? 0)%Z with false by (symmetry; apply Z.eqb_neq; lia).
  simpl. rewrite Z.div_small by lia. reflexivity.
Qed.

(** When [t // step_size] is 1 the loop has no iteration, and
    [del t_tensor] finds the name unbound. *)
Lemma reconstruct_single_iteration_unbound noisy_image t variance_schedule step_size
  overstep sigma return_sequences :
  (1 <= step_size <= t)%Z -> (t < 2 * step_size)%Z ->
  reconstruct get_alpha_bar net rng noisy_image t variance_schedule step_size
    overstep sigma return_sequences = Err UnboundLocalError.
Proof.
  intros H1 H2. unfold reconstruct.
  destruct (sigma_schedule_Ok sigma t) as [l ->]; [lia|]. simpl.
  unfold py_floordiv.
  replace (step_size =? 0)%Z with false by (symmetry; apply Z.eqb_neq; lia).
  simpl. replace (t / step_size)%Z with 1%Z.
  - reflexivity.
  - apply Z.div_unique with (r := (t - step_size)%Z); lia.
Qed.

Lemma reconstruct_sequentially_unbound noisy_image t variance_schedule sigma :
  (0 <= t <= 1)%Z ->
  reconstruct_sequentially get_alpha_bar net rng noisy_image t variance_schedule sigma
  = Err UnboundLocalError.
Proof.
  intros H. unfold reconstruct_sequentially.
  destruct (sigma_schedule_Ok sigma t) as [l ->]; [lia|]. simpl.
  rewrite py_reversed_range_nil by lia. reflexivity.
Qed.

Lemma py_index_error {A : Type} (l : list A) (i : Z) (e : PyError) :
  py_index l i = Err e -> e = IndexError.
Proof.
  unfold py_index. destruct (_ && _); [|congruence].
  destruct (nth_error _ _); congruence.
Qed.

Lemma py_index_in_range {A : Type} (l : list A) (i : Z) (v : A) :
  (0 <= i)%Z -> py_index l i = Ok v -> (i < Z.of_nat (length l))%Z.
Proof.
  intros Hi. unfold py_index.
  replace (i <? 0)%Z with false by (symmetry; apply Z.ltb_ge; lia).
  destruct (i <? Z.of_nat (length l))%Z eqn:E.
  - intros _. now apply Z.ltb_lt.
  - rewrite andb_false_r. discriminate.
Qed.

Lemma sigma_schedule_error (sigma : sigma_arg) (t : Z) (e : PyError) :
  sigma_schedule sigma t = Err e -> e = ValueError.
Proof.
  destruct sigma as [|s|l]; cbn [sigma_schedule]; unfold np_zeros, np_ones;
    try destruct (t <? 0)%Z; cbn [bind]; congruence.
Qed.

(** C7, as amended: called with a stride above the start timestep
    [t >= 0], [reconstruct] fails with [IndexError].  The unit-rule path,
    [reconstruct_sequentially], fails with [IndexError] exactly when
    [t >= 2] and the variance schedule, the retention array or a [sigma]
    given as a sequence has no entry at the timestep [t - 1], an index past
    its end: never on account of a timestep that is 0 or negative. *)
Theorem out_of_range_stride
  noisy_image t variance_schedule step_size overstep sigma return_sequences :
  ((0 <= t < step_size)%Z ->
   reconstruct get_alpha_bar net rng noisy_image t variance_schedule step_size
     overstep sigma return_sequences = Err IndexError)
  /\ (reconstruct_sequentially get_alpha_bar net rng noisy_image t variance_schedule
        sigma = Err IndexError
      <-> (2 <= t)%Z
          /\ ((Z.of_nat (length variance_schedule) < t)%Z
              \/ (Z.of_nat (length (get_alpha_bar variance_schedule)) < t)%Z
              \/ ~ sigma_covers sigma t)).
Proof.
  split; [apply reconstruct_empty_buffer|].
  unfold reconstruct_sequentially.
  destruct (sigma_schedule sigma t) as [l|e] eqn:El; cbn [bind].
  - assert (Hcov : (0 <= t)%Z -> sigma_covers sigma t <-> (t <= Z.of_nat (length l))%Z).
    { intros Ht. destruct sigma as [|s|l']; cbn [sigma_schedule sigma_covers] in *;
        unfold np_zeros, np_ones in El;
        try (replace (t <? 0)%Z with false in El by (symmetry; apply Z.ltb_ge; lia));
        cbn [bind] in El; injection El as <-;
        rewrite ?length_map, ?repeat_length; intuition lia. }
    destruct (Z_lt_dec t 2) as [Hlt|Hge].
    + rewrite py_reversed_range_nil by lia. cbn [py_for bind del_t_tensor t_tensor].
      split; [discriminate | lia].
    + rewrite py_reversed_range_cons by lia. cbn [py_for].
      unfold sequential_body at 1.
      destruct (py_index variance_schedule (t - 1)) as [b|e] eqn:Eb; cbn [bind].
      2:{ pose proof (py_index_error _ _ _ Eb) as ->.
          split; [intros _|reflexivity]. split; [lia|]. left.
          destruct (Z_lt_dec (Z.of_nat (length variance_schedule)) t) as [H|H];
            [exact H|].
          rewrite (py_index_Ok variance_schedule (t - 1) 0) in Eb by lia.
          discriminate. }
      destruct (py_index (get_alpha_bar variance_schedule) (t - 1)) as [a_ti|e] eqn:Ea;
        cbn [bind].
      2:{ pose proof (py_index_error _ _ _ Ea) as ->.
          split; [intros _|reflexivity]. split; [lia|]. right. left.
          destruct (Z_lt_dec (Z.of_nat (length (get_alpha_bar variance_schedule))) t)
            as [H|H]; [exact H|].
          rewrite (py_index_Ok (get_alpha_bar variance_schedule) (t - 1) 0) in Ea
            by lia.
          discriminate. }
      destruct (py_index l (t - 1)) as [s_ti|e] eqn:Es; cbn [bind].
      2:{ pose proof (py_index_error _ _ _ Es) as ->.
          split; [intros _|reflexivity]. split; [lia|]. right. right.
          intros Hc. apply Hcov in Hc; [|lia].
          rewrite (py_index_Ok l (t - 1) 0) in Es by lia. discriminate. }
      apply py_index_in_range in Eb; [|lia].
      apply py_index_in_range in Ea; [|lia].
      apply py_index_in_range in Es; [|lia].
      match goal with
      | |- context [py_for ?body ?vs ?s1] =>
          destruct (py_for_Ok body vs) with (s := s1) as [s' Hrun]
      end.
      { intros s v Hv. apply py_reversed_range_In in Hv. unfold sequential_body.
        rewrite (py_index_Ok variance_schedule v 0) by lia. cbn [bind].
        rewrite (py_index_Ok (get_alpha_bar variance_schedule) v 0) by lia.
        cbn [bind]. rewrite (py_index_Ok l v 0) by lia. cbn [bind]. eauto. }
      rewrite Hrun. cbn [bind]. unfold del_t_tensor.
      split.
      * destruct (t_tensor s'); cbn [bind]; discriminate.
      * intros [_ [H|[H|H]]]; try lia. exfalso. apply H. apply Hcov; lia.
  - pose proof (sigma_schedule_error _ _ _ El) as ->. split; [discriminate|].
    intros [Ht _]. destruct (sigma_schedule_Ok sigma t) as [l El']; [lia|].
    congruence.
Qed.

End Boundary.

Lemma out_of_range_stride_witness :
  reconstruct compute_cumulative_retention zero_net (fun _ _ => 0) [1 / 2] 1 [3 / 4] 2
    (1 / 2) SigmaNone false = Err IndexError
  /\ reconstruct_sequentially compute_cumulative_retention zero_net (fun _ _ => 0)
       [1 / 2] 3 [3 / 4; 3 / 4] SigmaNone = Err IndexError.
Proof.
  destruct (out_of_range_stride compute_cumulative_retention zero_net (fun _ _ => 0)
              [1 / 2] 1 [3 / 4] 2 (1 / 2) SigmaNone false) as [H1 _].
  destruct (out_of_range_stride compute_cumulative_retention zero_net (fun _ _ => 0)
              [1 / 2] 3 [3 / 4; 3 / 4] 2 (1 / 2) SigmaNone false) as [_ H2].
  split.
  - apply H1. lia.
  - apply H2. split; [lia|]. left. simpl. lia.
Defined.

(** C7, as stated, fails for the unit-rule path: started at the timestep 0
    or at a negative one, [reconstruct_sequentially] does not fail with an
    index error; at the timestep -1 it fails with [ValueError]. *)
Lemma index_error_counterexample :
  reconstruct_sequentially compute_cumulative_retention zero_net (fun _ _ => 0)
    [1 / 2] 0 [3 / 4] SigmaNone <> Err IndexError
  /\ reconstruct_sequentially compute_cumulative_retention zero_net (fun _ _ => 0)
       [1 / 2] (- 1) [3 / 4] SigmaNone = Err ValueError.
Proof.
  split; [discriminate | reflexivity].
Qed.

(** C2: with [step_size = t = 2] the unified sampler makes no iteration and
    ends in [UnboundLocalError] at [del t_tensor], where
    [reconstruct_single_step] returns the direct estimate, here [0.5] from the
    sample [0.125]. *)
Theorem single_step_mode_diverges {fmt : FloatFormat} (rng : nat -> nat -> R) (overstep : R) :
  reconstruct compute_cumulative_retention zero_net rng [1 / 8] 2
    [3 / 4; 3 / 4; 3 / 4] 2 overstep SigmaNone false = Err UnboundLocalError
  /\ reconstruct_single_step compute_cumulative_retention zero_net [1 / 8] 2
       [3 / 4; 3 / 4; 3 / 4] = Ok [1 / 2].
Proof.
  split.
  - apply reconstruct_single_iteration_unbound; lia.
  - unfold reconstruct_single_step.
    change (py_index (compute_cumulative_retention [3 / 4; 3 / 4; 3 / 4]) 2)
      with (Ok (1 * (1 - 3 / 4) * (1 - 3 / 4))).
    cbn [bind zero_net length repeat x0_estimate map2 map].
    rewrite sqrt_sixteenth. rewrite (clip_id (1 / 4)) by lra.
    replace ((1 / 8 - 0 * sqrt (1 - 1 * (1 - 3 / 4) * (1 - 3 / 4))) / (1 / 4))
      with (1 / 2) by (unfold Rdiv; lra).
    rewrite clip_id by lra. reflexivity.
Qed.

(** ** The start timestep *)

(** What the predictor answers at the start timestep has no part in the
    result of [reconstruct_sequentially]. *)
Lemma sequential_ignores_start
  (get_alpha_bar : list R -> list R) (net1 net2 : list R -> Z -> list R)
  (rng : nat -> nat -> R) noisy_image t variance_schedule sigma :
  (forall sample ti, ti <> t -> net1 sample ti = net2 sample ti) ->
  reconstruct_sequentially get_alpha_bar net1 rng noisy_image t variance_schedule sigma
  = reconstruct_sequentially get_alpha_bar net2 rng noisy_image t variance_schedule sigma.
Proof.
  intros Hnet. unfold reconstruct_sequentially.
  destruct (sigma_schedule sigma t) as [l|]; cbn [bind]; [|reflexivity].
  rewrite (py_for_ext (sequential_body net1 rng variance_schedule
                         (get_alpha_bar variance_schedule) l)
             (sequential_body net2 rng variance_schedule
                (get_alpha_bar variance_schedule) l)).
  - reflexivity.
  - intros s v Hv. unfold sequential_body. rewrite Hnet; [reflexivity|].
    apply py_reversed_range_In in Hv. lia.
Qed.

(** Nor in the result of [reconstruct], for a stride of one or more: its
    loop visits the timesteps [step_size, ..., t - step_size] at most. *)
Lemma reconstruct_ignores_start {fmt : FloatFormat}
  (get_alpha_bar : list R -> list R) (net1 net2 : list R -> Z -> list R)
  (rng : nat -> nat -> R) noisy_image t variance_schedule step_size overstep sigma
  return_sequences :
  (1 <= step_size)%Z ->
  (forall sample ti, ti <> t -> net1 sample ti = net2 sample ti) ->
  reconstruct get_alpha_bar net1 rng noisy_image t variance_schedule step_size overstep
    sigma return_sequences
  = reconstruct get_alpha_bar net2 rng noisy_image t variance_schedule step_size
      overstep sigma return_sequences.
Proof.
  intros Hstep Hnet. unfold reconstruct.
  destruct (sigma_schedule sigma t) as [l|]; cbn [bind]; [|reflexivity].
  unfold py_floordiv.
  replace (step_size =? 0)%Z with false by (symmetry; apply Z.eqb_neq; lia).
  cbn [bind].
  destruct (np_zeros (t / step_size)); cbn [bind]; [|reflexivity].
  destruct (py_setitem _ 0 noisy_image) as [frames|]; cbn [bind]; [|reflexivity].
  rewrite (py_for_ext
             (reconstruct_body net1 rng (get_alpha_bar variance_schedule) l
                (t / step_size) step_size overstep return_sequences)
             (reconstruct_body net2 rng (get_alpha_bar variance_schedule) l
                (t / step_size) step_size overstep return_sequences)).
  - reflexivity.
  - intros s v Hv. unfold reconstruct_body. rewrite Hnet; [reflexivity|].
    apply py_reversed_range_In in Hv.
    pose proof (Z.mul_div_le t step_size ltac:(lia)). nia.
Qed.

(** Started at [t = 2], [reconstruct_sequentially] visits the timestep 1
    only.  With the predictor that answers ones at timestep 2 it returns
    what it returns with the zero predictor, [0.5] from the sample [0.25]. *)
Lemma sequential_skips_start_timestep (rng : nat -> nat -> R) :
  py_reversed_range 1 2 = [1%Z]
  /\ reconstruct_sequentially compute_cumulative_retention probe_net rng [1 / 4] 2
       [3 / 4; 3 / 4; 3 / 4] SigmaNone = Ok [1 / 2]
  /\ reconstruct_sequentially compute_cumulative_retention zero_net rng [1 / 4] 2
       [3 / 4; 3 / 4; 3 / 4] SigmaNone = Ok [1 / 2].
Proof.
  split; [reflexivity|].
  assert (H : reconstruct_sequentially compute_cumulative_retention zero_net rng
                [1 / 4] 2 [3 / 4; 3 / 4; 3 / 4] SigmaNone = Ok [1 / 2]).
  { unfold reconstruct_sequentially.
    change (sigma_schedule SigmaNone 2) with (Ok [0; 0]). cbn [bind].
    change (py_reversed_range 1 2) with [1%Z]. cbn [py_for].
    unfold sequential_body.
    change (py_index [3 / 4; 3 / 4; 3 / 4] 1) with (Ok (3 / 4)).
    change (py_index (compute_cumulative_retention [3 / 4; 3 / 4; 3 / 4]) 1)
      with (Ok (1 * (1 - 3 / 4))).
    change (py_index [0; 0] 1) with (Ok 0).
    cbn [bind x draws reconstructions del_t_tensor t_tensor length randn seq map
         zero_net repeat map3].
    unfold unit_update. rewrite sqrt_one_quarter.
    replace ((1 / 4 - 0 * (3 / 4) / sqrt (1 - 1 * (1 - 3 / 4))) / (1 / 2)
             + 0 * rng 0%nat 0%nat)
      with (1 / 2) by (unfold Rdiv; lra).
    rewrite clip_id by lra. reflexivity. }
  split; [|exact H].
  rewrite <- H. apply sequential_ignores_start.
  intros sample ti Hti. unfold probe_net, zero_net.
  destruct (ti =? 2)%Z eqn:E; [apply Z.eqb_eq in E; contradiction | reflexivity].
Qed.

Section StartTimestep.

Variable get_alpha_bar : list R -> list R.
Variable net : list R -> Z -> list R.
Variable rng : nat -> nat -> R.

Context {fmt : FloatFormat}.

(** The loop of [reconstruct_sequentially] over [reversed(range(1, m + 1))]
    is the descent from the timestep [m]. *)
Lemma py_for_unit_descent beta alpha_bar sigma :
  forall (m : nat) (s : loop_state),
    match py_for (sequential_body net rng beta alpha_bar sigma)
            (py_reversed_range 1 (Z.of_nat m + 1)) s with
    | Ok s' =>
        unit_descent net rng beta alpha_bar sigma m (draws s) (x s) = Ok (x s')
        /\ (t_tensor s <> None \/ m <> O -> t_tensor s' <> None)
    | Err e => unit_descent net rng beta alpha_bar sigma m (draws s) (x s) = Err e
    end.
Proof.
  induction m as [|m IH]; intros s.
  - rewrite py_reversed_range_nil by lia. cbn [py_for unit_descent].
    split; [reflexivity|]. intros [H|H]; congruence.
  - rewrite py_reversed_range_cons by lia.
    replace (Z.of_nat (S m) + 1 - 1)%Z with (Z.of_nat m + 1)%Z by lia.
    cbn [py_for unit_descent]. unfold sequential_body at 1.
    replace (Z.of_nat (S m)) with (Z.of_nat m + 1)%Z by lia.
    destruct (py_index beta (Z.of_nat m + 1)) as [b|]; cbn [bind]; [|reflexivity].
    destruct (py_index alpha_bar (Z.of_nat m + 1)) as [a_ti|]; cbn [bind];
      [|reflexivity].
    destruct (py_index sigma (Z.of_nat m + 1)) as [s_ti|]; cbn [bind]; [|reflexivity].
    match goal with
    | |- context [py_for _ _ ?s1] => specialize (IH s1)
    end.
    cbn [x draws t_tensor] in IH.
    destruct (py_for _ _ _) as [s'|e]; [|exact IH].
    destruct IH as [IH Hb]. split; [exact IH|]. intros _. apply Hb. left. discriminate.
Qed.

(** C6, as amended: started at [t >= 2], [reconstruct_sequentially] applies
    the unit update once at every integer timestep from [t - 1] down to 1
    and returns the outcome clamped; the predictor is not invoked at the
    timestep [t]: what it answers outside the timesteps [1 .. t - 1] has no
    part in the outcome of [reconstruct_sequentially], nor in that of
    [reconstruct] with [step_size = 1]. *)
Theorem sequential_updates_below_start noisy_image t variance_schedule sigma :
  (2 <= t)%Z ->
  reconstruct_sequentially get_alpha_bar net rng noisy_image t variance_schedule sigma
  = (l <- sigma_schedule sigma t ;;
     y <- unit_descent net rng variance_schedule (get_alpha_bar variance_schedule) l
            (Z.to_nat (t - 1)) 0 noisy_image ;;
     Ok (map (clip 0 1) y))
  /\ forall net' : list R -> Z -> list R,
       (forall sample ti, (1 <= ti <= t - 1)%Z -> net' sample ti = net sample ti) ->
       reconstruct_sequentially get_alpha_bar net' rng noisy_image t variance_schedule
         sigma
       = reconstruct_sequentially get_alpha_bar net rng noisy_image t variance_schedule
           sigma
       /\ forall overstep return_sequences,
            reconstruct get_alpha_bar net' rng noisy_image t variance_schedule 1
              overstep sigma return_sequences
            = reconstruct get_alpha_bar net rng noisy_image t variance_schedule 1
                overstep sigma return_sequences.
Proof.
  intros Ht. split; [|intros net' Hnet; split; [|intros overstep return_sequences]].
  - unfold reconstruct_sequentially.
    destruct (sigma_schedule sigma t) as [l|]; cbn [bind]; [|reflexivity].
    pose proof (py_for_unit_descent variance_schedule
                  (get_alpha_bar variance_schedule) l (Z.to_nat (t - 1))
                  (mkLoop noisy_image [] O None)) as H.
    replace (Z.of_nat (Z.to_nat (t - 1)) + 1)%Z with t in H by lia.
    cbn [x draws t_tensor] in H.
    destruct (py_for _ _ _) as [s'|e]; cbn [bind].
    + destruct H as [-> Hb]. cbn [bind]. unfold del_t_tensor.
      destruct (t_tensor s'); [reflexivity|].
      exfalso. apply Hb; [right; lia | reflexivity].
    + now rewrite H.
  - unfold reconstruct_sequentially.
    destruct (sigma_schedule sigma t) as [l|]; cbn [bind]; [|reflexivity].
    rewrite (py_for_ext (sequential_body net' rng variance_schedule
                           (get_alpha_bar variance_schedule) l)
               (sequential_body net rng variance_schedule
                  (get_alpha_bar variance_schedule) l)).
    + reflexivity.
    + intros s v Hv. unfold sequential_body. rewrite Hnet; [reflexivity|].
      apply py_reversed_range_In in Hv. lia.
  - unfold reconstruct.
    destruct (sigma_schedule sigma t) as [l|]; cbn [bind]; [|reflexivity].
    unfold py_floordiv. cbn [Z.eqb bind]. rewrite Z.div_1_r.
    destruct (np_zeros t); cbn [bind]; [|reflexivity].
    destruct (py_setitem _ 0 noisy_image) as [frames|]; cbn [bind]; [|reflexivity].
    rewrite (py_for_ext
               (reconstruct_body net' rng (get_alpha_bar variance_schedule) l t 1
                  overstep return_sequences)
               (reconstruct_body net rng (get_alpha_bar variance_schedule) l t 1
                  overstep return_sequences)).
    + reflexivity.
    + intros s v Hv. unfold reconstruct_body. rewrite Hnet; [reflexivity|].
      apply py_reversed_range_In in Hv. lia.
Qed.

End StartTimestep.

Lemma sequential_updates_below_start_witness :
  reconstruct_sequentially compute_cumulative_retention probe_net (fun _ _ => 1)
    [3 / 8; 1 / 2] 3 [9 / 25; 7 / 16; 3 / 4] (SigmaScalar (1 / 10))
  = (l <- sigma_schedule (SigmaScalar (1 / 10)) 3 ;;
     y <- unit_descent probe_net (fun _ _ => 1) [9 / 25; 7 / 16; 3 / 4]
            (compute_cumulative_retention [9 / 25; 7 / 16; 3 / 4]) l
            (Z.to_nat (3 - 1)) 0 [3 / 8; 1 / 2] ;;
     Ok (map (clip 0 1) y))
  /\ forall net' : list R -> Z -> list R,
       (forall sample ti, (1 <= ti <= 3 - 1)%Z -> net' sample ti = probe_net sample ti) ->
       reconstruct_sequentially compute_cumulative_retention net' (fun _ _ => 1)
         [3 / 8; 1 / 2] 3 [9 / 25; 7 / 16; 3 / 4] (SigmaScalar (1 / 10))
       = reconstruct_sequentially compute_cumulative_retention probe_net
           (fun _ _ => 1) [3 / 8; 1 / 2] 3 [9 / 25; 7 / 16; 3 / 4]
           (SigmaScalar (1 / 10))
       /\ forall overstep return_sequences,
            reconstruct compute_cumulative_retention net' (fun _ _ => 1)
              [3 / 8; 1 / 2] 3 [9 / 25; 7 / 16; 3 / 4] 1 overstep
              (SigmaScalar (1 / 10)) return_sequences
            = reconstruct compute_cumulative_retention probe_net (fun _ _ => 1)
                [3 / 8; 1 / 2] 3 [9 / 25; 7 / 16; 3 / 4] 1 overstep
                (SigmaScalar (1 / 10)) return_sequences.
Proof.
  apply (sequential_updates_below_start compute_cumulative_retention probe_net
           (fun _ _ => 1) [3 / 8; 1 / 2] 3 [9 / 25; 7 / 16; 3 / 4]
           (SigmaScalar (1 / 10))).
  lia.
Defined.

(** C6, as stated, fails: on the schedule [[9/25; 7/16; 3/4]], started at
    [t = 2] on the sample [3/8] with the predictor that answers ones at the
    timestep 2, [reconstruct_sequentially] returns [1/2], the outcome of the
    one update at the timestep 1; the update applied at the timesteps 2 and
    1 gives [-3/2], clamped [0]. *)
Lemma start_timestep_counterexample :
  reconstruct_sequentially compute_cumulative_retention probe_net (fun _ _ => 1)
    [3 / 8] 2 [9 / 25; 7 / 16; 3 / 4] (SigmaSeq [0; 0; 0])
  = Ok [1 / 2]
  /\ (y <- unit_descent probe_net (fun _ _ => 1) [9 / 25; 7 / 16; 3 / 4]
            (compute_cumulative_retention [9 / 25; 7 / 16; 3 / 4]) [0; 0; 0]
            2 0 [3 / 8] ;;
      Ok (map (clip 0 1) y))
     = Ok [0].
Proof.
  assert (S1 : sqrt (1 - 7 / 16) = 3 / 4) by (apply sqrt_lem_1; lra).
  assert (S2 : sqrt (1 - 3 / 4) = 1 / 2) by (apply sqrt_lem_1; lra).
  assert (S3 : sqrt (1 - 1 * (1 - 9 / 25) * (1 - 7 / 16)) = 4 / 5)
    by (apply sqrt_lem_1; lra).
  split.
  - unfold reconstruct_sequentially. cbn [sigma_schedule bind].
    change (py_reversed_range 1 2) with [1%Z]. cbn [py_for].
    unfold sequential_body.
    change (py_index [9 / 25; 7 / 16; 3 / 4] 1) with (Ok (7 / 16)).
    change (py_index (compute_cumulative_retention [9 / 25; 7 / 16; 3 / 4]) 1)
      with (Ok (1 * (1 - 9 / 25))).
    change (py_index [0; 0; 0] 1) with (Ok 0).
    cbn [bind x draws reconstructions del_t_tensor t_tensor length randn seq map
         repeat map3].
    change (probe_net [3 / 8] 1) with [0].
    cbn [map3 map]. unfold unit_update. rewrite S1.
    replace ((3 / 8 - 0 * (7 / 16) / sqrt (1 - 1 * (1 - 9 / 25))) / (3 / 4)
             + 0 * 1)
      with (1 / 2) by (unfold Rdiv; lra).
    rewrite clip_id by lra. reflexivity.
  - cbn [unit_descent].
    change (py_index [9 / 25; 7 / 16; 3 / 4] (Z.of_nat 2)) with (Ok (3 / 4)).
    change (py_index (compute_cumulative_retention [9 / 25; 7 / 16; 3 / 4])
              (Z.of_nat 2))
      with (Ok (1 * (1 - 9 / 25) * (1 - 7 / 16))).
    change (py_index [0; 0; 0] (Z.of_nat 2)) with (Ok 0).
    change (py_index [9 / 25; 7 / 16; 3 / 4] (Z.of_nat 1)) with (Ok (7 / 16)).
    change (py_index (compute_cumulative_retention [9 / 25; 7 / 16; 3 / 4])
              (Z.of_nat 1))
      with (Ok (1 * (1 - 9 / 25))).
    change (py_index [0; 0; 0] (Z.of_nat 1)) with (Ok 0).
    cbn [bind length randn seq map].
    change (probe_net [3 / 8] (Z.of_nat 2)) with [1].
    cbn [map3 length randn seq map].
    change (probe_net _ (Z.of_nat 1)) with [0].
    cbn [map3 map]. unfold unit_update. rewrite S1, S2, S3.
    do 2 f_equal.
    replace (((3 / 8 - 1 * (3 / 4) / (4 / 5)) / (1 / 2) + 0 * 1
              - 0 * (7 / 16) / sqrt (1 - 1 * (1 - 9 / 25))) / (3 / 4) + 0 * 1)
      with (- 3 / 2) by (unfold Rdiv; lra).
    unfold clip, Rmin, Rmax.
    destruct (Rle_dec (- 3 / 2) 0); destruct (Rle_dec 1 _); lra.
Qed.

(** ** Zero sigma *)

Section Determinism.

Variable get_alpha_bar : list R -> list R.
Variable net : list R -> Z -> list R.
Variables rng1 rng2 : nat -> nat -> R.

Context {fmt : FloatFormat}.

Lemma reconstruct_body_zero_sigma alpha_bar sigma n step_size overstep rs s i :
  Forall (fun v => v = 0) sigma ->
  reconstruct_body net rng1 alpha_bar sigma n step_size overstep rs s i
  = reconstruct_body net rng2 alpha_bar sigma n step_size overstep rs s i.
Proof.
  intros Hz. unfold reconstruct_body.
  destruct (py_index alpha_bar (i * step_size)) as [a_ti|]; simpl; auto.
  destruct (py_index alpha_bar (i * step_size - step_size)) as [a_prev|]; simpl; auto.
  destruct (py_index sigma (i * step_size)) as [s_ti|] eqn:Es; simpl; auto.
  apply (py_index_zero _ _ _ Hz) in Es. subst s_ti.
  rewrite (map3_ext _ (strided_update overstep (a_ti / a_prev) a_ti 0) (x s) _
             (randn rng1 (draws s) (length (x s)))
             (randn rng2 (draws s) (length (x s)))).
  - reflexivity.
  - intros. unfold strided_update. ring.
  - now rewrite !length_randn.
Qed.

Lemma sequential_body_zero_sigma beta alpha_bar sigma s ti :
  Forall (fun v => v = 0) sigma ->
  sequential_body net rng1 beta alpha_bar sigma s ti
  = sequential_body net rng2 beta alpha_bar sigma s ti.
Proof.
  intros Hz. unfold sequential_body.
  destruct (py_index beta ti) as [b|]; simpl; auto.
  destruct (py_index alpha_bar ti) as [a_ti|]; simpl; auto.
  destruct (py_index sigma ti) as [s_ti|] eqn:Es; simpl; auto.
  apply (py_index_zero _ _ _ Hz) in Es. subst s_ti.
  rewrite (map3_ext _ (unit_update b a_ti 0) (x s) _
             (randn rng1 (draws s) (length (x s)))
             (randn rng2 (draws s) (length (x s)))).
  - reflexivity.
  - intros. unfold unit_update. ring.
  - now rewrite !length_randn.
Qed.

(** C8: with [sigma] identically zero, two runs of [reconstruct] on the
    same arguments, and two runs of [reconstruct_sequentially], have the same
    outcome whatever the two random sources draw. *)
Theorem zero_sigma_deterministic
  noisy_image t variance_schedule step_size overstep sigma return_sequences :
  zero_sigma sigma ->
  reconstruct get_alpha_bar net rng1 noisy_image t variance_schedule step_size
    overstep sigma return_sequences
  = reconstruct get_alpha_bar net rng2 noisy_image t variance_schedule step_size
      overstep sigma return_sequences
  /\ reconstruct_sequentially get_alpha_bar net rng1 noisy_image t variance_schedule
       sigma
     = reconstruct_sequentially get_alpha_bar net rng2 noisy_image t variance_schedule
         sigma.
Proof.
  intros Hz. split.
  - unfold reconstruct.
    destruct (sigma_schedule sigma t) as [l|] eqn:El; simpl; auto.
    pose proof (sigma_schedule_zero _ _ _ Hz El) as Hl.
    destruct (py_floordiv t step_size) as [n|]; simpl; auto.
    destruct (np_zeros n); simpl; auto.
    destruct (py_setitem _ 0 noisy_image) as [frames|]; simpl; auto.
    rewrite (py_for_ext _ (reconstruct_body net rng2 (get_alpha_bar variance_schedule)
                             l n step_size overstep return_sequences)).
    + reflexivity.
    + intros. now apply reconstruct_body_zero_sigma.
  - unfold reconstruct_sequentially.
    destruct (sigma_schedule sigma t) as [l|] eqn:El; simpl; auto.
    pose proof (sigma_schedule_zero _ _ _ Hz El) as Hl.
    rewrite (py_for_ext _ (sequential_body net rng2 variance_schedule
                             (get_alpha_bar variance_schedule) l)).
    + reflexivity.
    + intros. now apply sequential_body_zero_sigma.
Qed.

End Determinism.

Lemma zero_sigma_deterministic_witness :
  reconstruct compute_cumulative_retention probe_net (fun _ _ => 1) [1 / 2; 1 / 4] 6
    (repeat (1 / 10) 6) 2 (1 / 2) (SigmaSeq (repeat 0 6)) true
  = reconstruct compute_cumulative_retention probe_net (fun k j => INR (k + j))
      [1 / 2; 1 / 4] 6 (repeat (1 / 10) 6) 2 (1 / 2) (SigmaSeq (repeat 0 6)) true
  /\ reconstruct_sequentially compute_cumulative_retention probe_net (fun _ _ => 1)
       [1 / 2; 1 / 4] 6 (repeat (1 / 10) 6) (SigmaSeq (repeat 0 6))
     = reconstruct_sequentially compute_cumulative_retention probe_net
         (fun k j => INR (k + j)) [1 / 2; 1 / 4] 6 (repeat (1 / 10) 6)
         (SigmaSeq (repeat 0 6)).
Proof.
  apply (zero_sigma_deterministic compute_cumulative_retention probe_net
           (fun _ _ => 1) (fun k j => INR (k + j))).
  simpl. repeat constructor.
Defined.

(** ** Stride one and the sequential sampler *)


Section UnitStride.

Variable get_alpha_bar : list R -> list R.
Variable net : list R -> Z -> list R.
Variables rng1 rng2 : nat -> nat -> R.

Context {fmt : FloatFormat}.



Lemma sequential_body_binds beta alpha_bar sigma s ti s' :
  sequential_body net rng2 beta alpha_bar sigma s ti = Ok s' -> t_tensor s' <> None.
Proof.
  unfold sequential_body.
  destruct (py_index beta ti); cbn [bind]; [|discriminate].
  destruct (py_index alpha_bar ti); cbn [bind]; [|discriminate].
  destruct (py_index sigma ti); cbn [bind]; [|discriminate].
  intros [= <-]. discriminate.
Qed.


End UnitStride.

Lemma constant_schedule_recurrence :
  retention_recurrence (compute_cumulative_retention [1 / 2; 1 / 2; 1 / 2])
    [1 / 2; 1 / 2; 1 / 2] 3.
Proof.
  intros ti Hti. assert (Hc : ti = 1%Z \/ ti = 2%Z) by lia.
  destruct Hc as [-> | ->].
  - exists 1, (1 * (1 - 1 / 2)), (1 / 2). repeat split; try reflexivity; lra.
  - exists (1 * (1 - 1 / 2)), (1 * (1 - 1 / 2) * (1 - 1 / 2)), (1 / 2).
    repeat split; try reflexivity; lra.
Defined.





(** ** A predictor that returns zeros *)

Lemma map3_zero_noise (overstep f a_ti : R) (sample z : list R) :
  length z = length sample ->
  map3 (strided_update overstep f a_ti 0) sample (repeat 0 (length sample)) z
  = map (fun v => v / sqrt f) sample.
Proof.
  revert z. induction sample as [|v sample IH]; intros [|c z] Hlen; simpl in *;
    try discriminate; auto.
  rewrite IH by lia. f_equal. unfold strided_update, Rdiv. ring.
Qed.

(** With zero predicted noise and zero sigma an iteration divides the
    sample by [sqrt(alpha_bar[ti] / alpha_bar[ti - step_size])]. *)
Lemma reconstruct_body_zero_net {fmt : FloatFormat} (rng : nat -> nat -> R) alpha_bar sigma n step_size
  overstep s i a_ti a_prev :
  py_index alpha_bar (i * step_size) = Ok a_ti ->
  py_index alpha_bar (i * step_size - step_size) = Ok a_prev ->
  py_index sigma (i * step_size) = Ok 0 ->
  reconstruct_body zero_net rng alpha_bar sigma n step_size overstep false s i
  = Ok (mkLoop (map (fun v => v / sqrt (a_ti / a_prev)) (x s)) (reconstructions s)
          (S (draws s)) (Some (i * step_size)%Z)).
Proof.
  intros Hti Hprev Hs. unfold reconstruct_body. rewrite Hti, Hprev, Hs.
  cbn [bind]. unfold zero_net. now rewrite map3_zero_noise by apply length_randn.
Qed.

(** One iteration on the schedule [[0.01]*10] with stride 2, at the
    timestep [k + 2]. *)
Ltac scenario_step rng k :=
  rewrite (reconstruct_body_zero_net rng _ _ _ _ _ _ _
             ((1 - 1 / 100) ^ (k + 2)) ((1 - 1 / 100) ^ k));
  [ cbn [bind x draws reconstructions]
  | apply (py_index_retention_const (1 / 100) 10 (k + 2)); lia
  | apply (py_index_retention_const (1 / 100) 10 k); lia
  | rewrite (py_index_Ok _ _ 0) by (rewrite repeat_length; lia);
    f_equal; apply nth_repeat ].

(** On the schedule [[0.01]*10], from [t = 10] with [step_size = 2],
    zero sigma and the zero predictor, the loop runs at the timesteps 8, 6,
    4 and 2: the sample [0.5] comes back as [0.5 / 0.99^4], that is divided
    by [sqrt(alpha_bar[8])], which differs from [0.5 / sqrt(alpha_bar[10])]
    clamped to [0, 1]. *)
Lemma strided_zero_noise_scenario {fmt : FloatFormat} (rng : nat -> nat -> R) (overstep : R) :
  let beta := repeat (1 / 100) 10 in
  reconstruct compute_cumulative_retention zero_net rng [1 / 2] 10 beta 2 overstep
    SigmaNone false
  = Ok (Final [1 / 2 / (99 / 100) ^ 4])
  /\ py_index (compute_cumulative_retention beta) 10 = Ok ((99 / 100) ^ 10)
  /\ 1 / 2 / (99 / 100) ^ 4 <> clip 0 1 (1 / 2 * (1 / sqrt ((99 / 100) ^ 10))).
Proof.
  intros beta. split; [|split].
  - unfold reconstruct.
    change (sigma_schedule SigmaNone 10) with (Ok (repeat 0 10)).
    change (py_floordiv 10 2) with (Ok 5%Z).
    cbn [bind]. change (np_zeros 5) with (Ok (repeat 0 5)). cbn [bind].
    rewrite (py_setitem_first _ _ 5) by lia. cbn [bind].
    rewrite first_row.
    change (py_reversed_range 1 5) with [4; 3; 2; 1]%Z.
    cbn [py_for].
    scenario_step rng 6%nat. scenario_step rng 4%nat.
    scenario_step rng 2%nat. scenario_step rng 0%nat.
    cbn [del_t_tensor t_tensor bind map].
    change (6 + 2)%nat with 8%nat. change (4 + 2)%nat with 6%nat.
    change (2 + 2)%nat with 4%nat. change (0 + 2)%nat with 2%nat.
    rewrite !sqrt_stride_ratio by lra.
    rewrite clip_id by lra.
    replace (1 / 2 / (1 - 1 / 100) / (1 - 1 / 100) / (1 - 1 / 100) / (1 - 1 / 100))
      with (1 / 2 / (99 / 100) ^ 4) by (cbn [pow]; field).
    reflexivity.
  - replace (99 / 100) with (1 - 1 / 100) by lra.
    apply (py_index_retention_const (1 / 100) 10 10). lia.
  - replace ((99 / 100) ^ 10) with ((99 / 100) ^ 5 * (99 / 100) ^ 5)
      by (rewrite <- pow_add; reflexivity).
    rewrite sqrt_square by (apply pow_le; lra).
    rewrite clip_id; cbn [pow]; lra.
Qed.


(** ** Quantization *)

Lemma Rtrunc_nonneg (r : R) (z : Z) :
  0 <= r -> IZR z <= r < IZR z + 1 -> Rtrunc r = z.
Proof.
  intros H0 Hz. unfold Rtrunc. destruct (Rle_dec 0 r) as [_|Hn]; [|contradiction].
  symmetry. apply Int_part_spec. lra.
Qed.

Lemma Rtrunc_neg (r : R) (z : Z) :
  r < 0 -> IZR z <= - r < IZR z + 1 -> Rtrunc r = (- z)%Z.
Proof.
  intros H0 Hz. unfold Rtrunc. destruct (Rle_dec 0 r) as [Hp|_]; [lra|].
  f_equal. symmetry. apply Int_part_spec. lra.
Qed.

(** [Rtrunc] drops the fractional part, and nothing else does. *)
Lemma truncation_Rtrunc (p : R) : truncation p (Rtrunc p).
Proof.
  unfold truncation, Rtrunc. destruct (Rle_dec 0 p) as [Hp|Hn].
  - destruct (base_Int_part p) as [H1 H2]. split; intros H; [lra|].
    assert (E : p = 0) by lra. subst p.
    rewrite <- (Int_part_spec 0 0) by (simpl; lra). simpl. lra.
  - apply Rnot_le_lt in Hn. destruct (base_Int_part (- p)) as [H1 H2].
    rewrite opp_IZR. split; intros H; lra.
Qed.

Lemma Rtrunc_truncation (p : R) (k : Z) : truncation p k -> Rtrunc p = k.
Proof.
  intros [H1 H2]. destruct (Rle_dec 0 p) as [Hp|Hn].
  - apply Rtrunc_nonneg; [exact Hp | now apply H1].
  - apply Rnot_le_lt in Hn. rewrite <- (Z.opp_involutive k).
    apply Rtrunc_neg; [exact Hn|]. rewrite opp_IZR.
    assert (H := H2 ltac:(lra)). lra.
Qed.

Lemma int32_range_spec (z : Z) :
  int32_range z = true <-> (- 2147483648 <= z < 2147483648)%Z.
Proof.
  unfold int32_range. rewrite andb_true_iff, Z.leb_le, Z.ltb_lt. reflexivity.
Qed.

Lemma astype_uint8_byte (p : R) : (0 <= astype_uint8 p < 256)%Z.
Proof.
  unfold astype_uint8. destruct (int32_range _); [apply Z.mod_pos_bound|]; lia.
Qed.

(** The cast stores what the specification words say. *)
Lemma astype_uint8_stored (p : R) : stored_byte p (astype_uint8 p).
Proof.
  exists (Rtrunc p). split; [apply truncation_Rtrunc|].
  split; [apply astype_uint8_byte|].
  unfold astype_uint8. destruct (int32_range (Rtrunc p)) eqn:E; split.
  - intros _. exists (Rtrunc p / 256)%Z. apply Z.div_mod. lia.
  - intros Hn. exfalso. apply Hn. now apply int32_range_spec.
  - intros Hr. apply int32_range_spec in Hr. congruence.
  - reflexivity.
Qed.

Lemma quantize_with_stored (round : R -> R) (frame : list R) :
  Forall2 (fun v b => stored_byte (round (v * 255)) b) frame
    (quantize_with round frame).
Proof.
  induction frame as [|v frame IH]; cbn [quantize_with map]; constructor.
  - apply astype_uint8_stored.
  - exact IH.
Qed.

Lemma quantize_clamped_stored (round : R -> R) (frame : list R) :
  Forall2 (fun v b => stored_byte (round (clip 0 1 v * 255)) b) frame
    (quantize_with round (map (clip 0 1) frame)).
Proof.
  induction frame as [|v frame IH]; cbn [quantize_with map]; constructor.
  - apply astype_uint8_stored.
  - exact IH.
Qed.

(** In exact arithmetic, stored without clamping, 1.5 becomes 126 (382
    modulo 256) and -0.5 becomes 129 (-127 modulo 256); clamped first they
    become 255 and 0. *)
Example quantize_wraps :
  quantize64 [3 / 2; - 1 / 2; 1 / 2] = [126; 129; 127]%Z
  /\ quantize (map (clip 0 1) [3 / 2; - 1 / 2; 1 / 2]) = [255; 0; 127]%Z.
Proof.
  assert (H1 : clip 0 1 (3 / 2) = 1).
  { unfold clip, Rmin, Rmax.
    destruct (Rle_dec (3 / 2) 0); destruct (Rle_dec 1 _); lra. }
  assert (H2 : clip 0 1 (- 1 / 2) = 0).
  { unfold clip, Rmin, Rmax.
    destruct (Rle_dec (- 1 / 2) 0); destruct (Rle_dec 1 _); lra. }
  split; unfold quantize64, quantize, quantize_with, astype_uint8;
    cbn [map round32 round64 exact_arithmetic].
  - rewrite (Rtrunc_nonneg (3 / 2 * 255) 382) by lra.
    rewrite (Rtrunc_neg (- 1 / 2 * 255) 127) by lra.
    rewrite (Rtrunc_nonneg (1 / 2 * 255) 127) by lra.
    reflexivity.
  - rewrite H1, H2, (clip_id (1 / 2)) by lra.
    rewrite (Rtrunc_nonneg (1 * 255) 255) by lra.
    rewrite (Rtrunc_nonneg (0 * 255) 0) by lra.
    rewrite (Rtrunc_nonneg (1 / 2 * 255) 127) by lra.
    reflexivity.
Qed.

(** A product past the 32-bit range is stored as 0, not as its residue:
    [8421505 * 255] is [2^31 + 127]. *)
Example quantize_out_of_range : quantize64 [8421505] = [0%Z].
Proof.
  unfold quantize64, quantize_with, astype_uint8.
  cbn [map round64 exact_arithmetic].
  rewrite (Rtrunc_nonneg (8421505 * 255) 2147483775) by lra.
  reflexivity.
Qed.

(** ** The recorded sequence *)

Section Trajectory.

Variable get_alpha_bar : list R -> list R.
Variable net : list R -> Z -> list R.
Variable rng : nat -> nat -> R.

Context {fmt : FloatFormat}.

(** One iteration with and without recording: the same sample, and the
    frame of index [n - i] is the new sample, clamped and quantized. *)
Lemma reconstruct_body_records alpha_bar sigma n step_size overstep s s0 i pre old post :
  same_sample s s0 ->
  reconstructions s = pre ++ old :: post ->
  (n - i)%Z = Z.of_nat (length pre) ->
  match reconstruct_body net rng alpha_bar sigma n step_size overstep false s0 i with
  | Ok s0' =>
      exists s', reconstruct_body net rng alpha_bar sigma n step_size overstep true s i
                 = Ok s'
                 /\ same_sample s' s0'
                 /\ reconstructions s'
                    = pre ++ quantize (map (clip 0 1) (x s0')) :: post
                 /\ t_tensor s' <> None
  | Err e =>
      reconstruct_body net rng alpha_bar sigma n step_size overstep true s i = Err e
  end.
Proof.
  intros (Hx & Hd & _) Hrec Hidx. unfold reconstruct_body.
  rewrite Hx, Hd, Hrec.
  destruct (py_index alpha_bar (i * step_size)) as [a_ti|]; cbn [bind]; [|reflexivity].
  destruct (py_index alpha_bar (i * step_size - step_size)) as [a_prev|]; cbn [bind];
    [|reflexivity].
  destruct (py_index sigma (i * step_size)) as [s_ti|]; cbn [bind]; [|reflexivity].
  rewrite (py_setitem_app pre post old _ _ Hidx). cbn [bind].
  eexists. split; [reflexivity|]. cbn [x reconstructions t_tensor].
  repeat split. discriminate.
Qed.

(** The loop with recording, against the states of the loop without: the
    [m] frames still to be written are written in order. *)
Lemma py_for_records alpha_bar sigma n step_size overstep :
  forall (m : nat) s s0 pre post,
    same_sample s s0 ->
    reconstructions s = pre ++ post ->
    length post = m ->
    (n - Z.of_nat m)%Z = Z.of_nat (length pre) ->
    match py_scan (reconstruct_body net rng alpha_bar sigma n step_size overstep false)
            (py_reversed_range 1 (Z.of_nat m + 1)) s0 with
    | Ok states =>
        exists s',
          py_for (reconstruct_body net rng alpha_bar sigma n step_size overstep true)
            (py_reversed_range 1 (Z.of_nat m + 1)) s = Ok s'
          /\ same_sample s' (last states s0)
          /\ reconstructions s'
             = pre ++ map (fun st => quantize (map (clip 0 1) (x st))) states
          /\ (t_tensor s <> None \/ m <> O -> t_tensor s' <> None)
    | Err e =>
        py_for (reconstruct_body net rng alpha_bar sigma n step_size overstep true)
          (py_reversed_range 1 (Z.of_nat m + 1)) s = Err e
    end.
Proof.
  induction m as [|m IH]; intros s s0 pre post Hsame Hrec Hlen Hidx.
  - rewrite py_reversed_range_nil by lia. cbn [py_scan py_for].
    destruct post; [|discriminate]. rewrite app_nil_r in Hrec.
    exists s. cbn [map last]. rewrite app_nil_r.
    repeat split; try apply Hsame; auto. intros [H|H]; congruence.
  - rewrite py_reversed_range_cons by lia.
    replace (Z.of_nat (S m) + 1 - 1)%Z with (Z.of_nat m + 1)%Z by lia.
    destruct post as [|old post]; [discriminate|]. injection Hlen as Hlen.
    cbn [py_scan py_for].
    assert (Hpos : (n - (Z.of_nat m + 1))%Z = Z.of_nat (length pre)) by lia.
    pose proof (reconstruct_body_records alpha_bar sigma n step_size overstep
                  s s0 (Z.of_nat m + 1) pre old post Hsame Hrec Hpos) as Hbody.
    destruct (reconstruct_body net rng alpha_bar sigma n step_size overstep false s0
                (Z.of_nat m + 1)) as [s0'|e]; cbn [bind].
    + destruct Hbody as (s1 & -> & Hsame1 & Hrec1 & Hbound1). cbn [bind].
      specialize (IH s1 s0' (pre ++ [quantize (map (clip 0 1) (x s0'))]) post Hsame1).
      rewrite <- app_assoc in IH. specialize (IH Hrec1 Hlen).
      rewrite length_app in IH. cbn [length] in IH.
      assert (Hpos' : (n - Z.of_nat m)%Z = Z.of_nat (length pre + 1)) by lia.
      specialize (IH Hpos').
      destruct (py_scan _ _ s0') as [rest|e]; cbn [bind]; [|exact IH].
      destruct IH as (s' & Hrun & Hsame' & Hrec' & Hbound').
      exists s'. rewrite last_cons. cbn [map]. rewrite <- app_assoc in Hrec'.
      repeat split; try apply Hsame'; auto.
    + now rewrite Hbody.
Qed.

Lemma reconstruct_body_same_sample alpha_bar sigma n step_size overstep s1 s2 i :
  same_sample s1 s2 ->
  result_rel same_sample
    (reconstruct_body net rng alpha_bar sigma n step_size overstep false s1 i)
    (reconstruct_body net rng alpha_bar sigma n step_size overstep false s2 i).
Proof.
  intros (Hx & Hd & _). unfold reconstruct_body. rewrite Hx, Hd.
  destruct (py_index alpha_bar (i * step_size)); cbn [bind result_rel]; [|reflexivity].
  destruct (py_index alpha_bar (i * step_size - step_size)); cbn [bind result_rel];
    [|reflexivity].
  destruct (py_index sigma (i * step_size)); cbn [bind result_rel]; [|reflexivity].
  repeat split.
Qed.

Lemma reconstruct_body_binds alpha_bar sigma n step_size overstep rs s i s' :
  reconstruct_body net rng alpha_bar sigma n step_size overstep rs s i = Ok s' ->
  t_tensor s' <> None.
Proof.
  unfold reconstruct_body.
  destruct (py_index alpha_bar (i * step_size)); cbn [bind]; [|discriminate].
  destruct (py_index alpha_bar (i * step_size - step_size)); cbn [bind]; [|discriminate].
  destruct (py_index sigma (i * step_size)); cbn [bind]; [|discriminate].
  destruct (if rs then _ else _); cbn [bind]; [|discriminate].
  intros [= <-]. discriminate.
Qed.

(** Within the schedule no lookup of an iteration fails. *)
Lemma reconstruct_body_Ok alpha_bar sigma n step_size overstep s i t :
  (1 <= step_size)%Z -> (t / step_size = n)%Z -> (1 <= i < n)%Z ->
  (t - step_size < Z.of_nat (length alpha_bar))%Z ->
  (t <= Z.of_nat (length sigma))%Z ->
  exists s', reconstruct_body net rng alpha_bar sigma n step_size overstep false s i
             = Ok s'.
Proof.
  intros Hstep Hn Hi Hab Hsig.
  assert (Hle : (step_size * n <= t)%Z) by (subst n; apply Z.mul_div_le; lia).
  assert (Hti : (step_size <= i * step_size <= t - step_size)%Z) by nia.
  unfold reconstruct_body.
  rewrite (py_index_Ok alpha_bar (i * step_size) 0) by lia. cbn [bind].
  rewrite (py_index_Ok alpha_bar (i * step_size - step_size) 0) by lia. cbn [bind].
  rewrite (py_index_Ok sigma (i * step_size) 0) by lia. cbn [bind].
  eauto.
Qed.

Lemma frames_stored (states : list loop_state) :
  Forall2
    (fun xk frame =>
       Forall2 (fun v b => stored_byte (round32 (clip 0 1 v * 255)) b) xk frame)
    (map x states)
    (map (fun st => quantize (map (clip 0 1) (x st))) states).
Proof.
  induction states as [|st states IH]; cbn [map]; constructor.
  - apply quantize_clamped_stored.
  - exact IH.
Qed.

(** C9, as amended: for a stride [step_size >= 1], a start timestep
    [t >= 2*step_size] and a schedule and a sigma that cover the timesteps,
    [reconstruct] with [return_sequences] returns a first frame and one
    frame per sample of the loop.  The first frame is the input without
    clamping: the byte of the entry [v] is the product [v * 255], as the
    float64 array computes it, stored wrapped modulo 256 when its integer
    part fits a signed 32-bit word and as 0 when it does not.  The frame of
    a sample holds, for its entry [v], the product [clip(v, 0, 1) * 255], as
    the float32 tensor computes it, stored the same way.  The samples are
    those of the run without [return_sequences], which returns the last of
    them clamped. *)
Theorem trajectory_frames
  noisy_image t variance_schedule step_size overstep sigma :
  (1 <= step_size)%Z ->
  (2 * step_size <= t)%Z ->
  (t - step_size < Z.of_nat (length (get_alpha_bar variance_schedule)))%Z ->
  sigma_covers sigma t ->
  exists samples first rest,
    sample_path get_alpha_bar net rng noisy_image t variance_schedule step_size
      overstep sigma = Ok samples
    /\ length samples = Z.to_nat (t / step_size - 1)
    /\ reconstruct get_alpha_bar net rng noisy_image t variance_schedule step_size
         overstep sigma true
       = Ok (Sequences (first :: rest))
    /\ Forall2 (fun v b => stored_byte (round64 (v * 255)) b) noisy_image first
    /\ Forall2
         (fun xk frame =>
            Forall2 (fun v b => stored_byte (round32 (clip 0 1 v * 255)) b) xk frame)
         samples rest
    /\ reconstruct get_alpha_bar net rng noisy_image t variance_schedule step_size
         overstep sigma false
       = Ok (Final (map (clip 0 1) (last samples noisy_image))).
Proof.
  intros Hstep Ht Hab Hcov.
  destruct (sigma_schedule_Ok sigma t) as [l El]; [lia|].
  assert (Hlen : (t <= Z.of_nat (length l))%Z)
    by (apply (sigma_schedule_length sigma); auto; lia).
  set (n := (t / step_size)%Z).
  assert (Hn : (2 <= n)%Z) by (unfold n; apply Z.div_le_lower_bound; lia).
  set (alpha_bar := get_alpha_bar variance_schedule) in *.
  set (init := mkLoop noisy_image [] O None).
  destruct (py_scan_Ok (reconstruct_body net rng alpha_bar l n step_size overstep false)
              (py_reversed_range 1 n)) with (s := init) as (states & Hscan & Hlens).
  { intros s v Hv. apply reconstruct_body_Ok with (t := t); auto.
    now apply py_reversed_range_In in Hv. }
  rewrite length_py_reversed_range in Hlens.
  exists (map x states), (quantize64 noisy_image),
    (map (fun st => quantize (map (clip 0 1) (x st))) states).
  assert (Hfloor : py_floordiv t step_size = Ok n).
  { unfold py_floordiv. replace (step_size =? 0)%Z with false; [reflexivity|].
    symmetry. apply Z.eqb_neq. lia. }
  assert (Hzeros : np_zeros n = Ok (repeat 0 (Z.to_nat n))).
  { unfold np_zeros. now replace (n <? 0)%Z with false by (symmetry; apply Z.ltb_ge; lia). }
  set (zero_frames := map quantize64 (repeat (repeat 0 (length noisy_image))
                                        (Z.to_nat (n - 1)))).
  set (start := mkLoop noisy_image (quantize64 noisy_image :: zero_frames) O None).
  split; [|split; [|split; [|split; [|split]]]].
  - unfold sample_path. rewrite El, Hfloor. cbn [bind]. fold alpha_bar init.
    now rewrite Hscan.
  - rewrite length_map, Hlens. reflexivity.
  - unfold reconstruct. rewrite El, Hfloor. cbn [bind]. fold alpha_bar.
    rewrite Hzeros. cbn [bind]. rewrite py_setitem_first by lia. cbn [bind].
    rewrite first_row. cbn [map]. fold zero_frames start.
    pose proof (py_for_records alpha_bar l n step_size overstep (Z.to_nat (n - 1))
                  start init [quantize64 noisy_image] zero_frames) as Hrun.
    replace (Z.of_nat (Z.to_nat (n - 1)) + 1)%Z with n in Hrun by lia.
    rewrite Hscan in Hrun.
    destruct Hrun as (s' & -> & Hsame & Hrec & Hbound).
    + repeat split.
    + reflexivity.
    + unfold zero_frames. now rewrite length_map, repeat_length.
    + cbn [length]. lia.
    + cbn [bind]. unfold del_t_tensor.
      destruct (t_tensor s') eqn:Et; [|exfalso; apply Hbound; [right; lia | reflexivity]].
      cbn [bind]. rewrite Hrec. reflexivity.
  - apply quantize_with_stored.
  - apply frames_stored.
  - unfold reconstruct. rewrite El, Hfloor. cbn [bind]. fold alpha_bar.
    rewrite Hzeros. cbn [bind]. rewrite py_setitem_first by lia. cbn [bind].
    rewrite first_row. cbn [map]. fold zero_frames start.
    pose proof (py_scan_for _ _ _ _ Hscan) as Hfor.
    pose proof (py_for_rel same_sample _ _ (py_reversed_range 1 n)
                  (fun s1 s2 v _ H =>
                     reconstruct_body_same_sample alpha_bar l n step_size overstep
                       s1 s2 v H)
                  start init (conj eq_refl (conj eq_refl eq_refl))) as Hrel.
    rewrite Hfor in Hrel.
    destruct (py_for _ _ start) as [s'|e]; [|contradiction].
    destruct Hrel as (Hx & _ & Ht').
    cbn [bind]. unfold del_t_tensor. rewrite Ht'.
    assert (Hb : t_tensor (last states init) <> None).
    { eapply (py_for_bound (fun s => t_tensor s <> None)); [| |exact Hfor].
      - intros s v s1. apply reconstruct_body_binds.
      - rewrite py_reversed_range_cons by lia. discriminate. }
    destruct (t_tensor (last states init)); [|congruence]. cbn [bind].
    rewrite Hx. now rewrite <- (last_map x states init).
Qed.

End Trajectory.

Lemma trajectory_frames_witness :
  exists samples first rest,
    sample_path compute_cumulative_retention zero_net (fun _ _ => 1)
      [3 / 2; - 1 / 2; 1 / 2] 2 [3 / 4; 3 / 4] 1 (1 / 2) SigmaNone = Ok samples
    /\ length samples = Z.to_nat (2 / 1 - 1)
    /\ reconstruct compute_cumulative_retention zero_net (fun _ _ => 1)
         [3 / 2; - 1 / 2; 1 / 2] 2 [3 / 4; 3 / 4] 1 (1 / 2) SigmaNone true
       = Ok (Sequences (first :: rest))
    /\ Forall2 (fun v b => stored_byte (round64 (v * 255)) b)
         [3 / 2; - 1 / 2; 1 / 2] first
    /\ Forall2
         (fun xk frame =>
            Forall2 (fun v b => stored_byte (round32 (clip 0 1 v * 255)) b) xk frame)
         samples rest
    /\ reconstruct compute_cumulative_retention zero_net (fun _ _ => 1)
         [3 / 2; - 1 / 2; 1 / 2] 2 [3 / 4; 3 / 4] 1 (1 / 2) SigmaNone false
       = Ok (Final (map (clip 0 1) (last samples [3 / 2; - 1 / 2; 1 / 2]))).
Proof.
  apply (trajectory_frames compute_cumulative_retention zero_net (fun _ _ => 1)
           [3 / 2; - 1 / 2; 1 / 2] 2 [3 / 4; 3 / 4] 1 (1 / 2) SigmaNone).
  - lia.
  - lia.
  - simpl. lia.
  - exact I.
Defined.

(** ** The arrays of the caller *)

Lemma kept_refl (h0 : Heap.store) : Heap.kept h0 h0.
Proof. exists []. now rewrite app_nil_r. Qed.

Lemma nth_error_grow {A : Type} (h ext : list A) l b :
  nth_error h l = Some b -> nth_error (h ++ ext) l = Some b.
Proof.
  intros H. rewrite nth_error_app1; [exact H|]. apply nth_error_Some. congruence.
Qed.

Lemma kept_nth_error (h0 h : Heap.store) (l : Heap.loc) (b : Heap.buffer) :
  Heap.kept h0 h -> nth_error h0 l = Some b -> nth_error h l = Some b.
Proof. intros [ext ->] Hl. now apply nth_error_grow. Qed.

Lemma list_set_app_r {A : Type} (l1 l2 : list A) (n : nat) (v : A) :
  (length l1 <= n)%nat -> list_set (l1 ++ l2) n v = l1 ++ list_set l2 (n - length l1) v.
Proof.
  revert n. induction l1 as [|a l1 IH]; intros n Hn; simpl in *.
  - now rewrite Nat.sub_0_r.
  - destruct n as [|n]; [lia|]. simpl. f_equal. apply IH. lia.
Qed.

Lemma list_set_same {A : Type} (h : list A) l b :
  nth_error h l = Some b -> list_set h l b = h.
Proof.
  revert l. induction h as [|a h IH]; intros [|l]; simpl; try discriminate.
  - now intros [= ->].
  - intros H. now rewrite IH.
Qed.

Section FrameRules.

Variable h0 : Heap.store.

Lemma preserves_ret {A : Type} (a : A) (Q : A -> Prop) :
  Q a -> Heap.preserves h0 (Heap.ret a) Q.
Proof. intros Ha h Hh. split; [exact Hh|]. simpl. now intros ? [= <-]. Qed.

Lemma preserves_lift {A : Type} (r : result A) :
  Heap.preserves h0 (Heap.lift r) (fun _ => True).
Proof. intros h Hh. split; [exact Hh | trivial]. Qed.

Lemma preserves_bind {A B : Type} (m : Heap.M A) (k : A -> Heap.M B)
  (P : A -> Prop) (Q : B -> Prop) :
  Heap.preserves h0 m P -> (forall a, P a -> Heap.preserves h0 (k a) Q) ->
  Heap.preserves h0 (Heap.bindM m k) Q.
Proof.
  intros Hm Hk h Hh. unfold Heap.bindM. destruct (Hm h Hh) as [Hkept Hres].
  destruct (m h) as [[a|e] h']; simpl in *.
  - apply Hk; auto.
  - split; [exact Hkept | discriminate].
Qed.

(** A new array is allocated past [h0]. *)
Lemma preserves_alloc (b : Heap.buffer) :
  Heap.preserves h0 (Heap.alloc b) (Heap.fresh h0).
Proof.
  intros h [ext ->]. split; simpl.
  - exists (ext ++ [b]). now rewrite app_assoc.
  - intros l [= <-]. unfold Heap.fresh. rewrite length_app. lia.
Qed.

(** Writing into an array allocated past [h0] keeps [h0]. *)
Lemma preserves_put (l : Heap.loc) (b : Heap.buffer) :
  Heap.fresh h0 l -> Heap.preserves h0 (Heap.put l b) (fun _ => True).
Proof.
  intros Hl h [ext ->]. split; [|trivial]. simpl.
  rewrite list_set_app_r by exact Hl. now eexists.
Qed.

Lemma preserves_float_rows (l : Heap.loc) :
  Heap.preserves h0 (Heap.float_rows l) (fun _ => True).
Proof. intros h Hh. split; [exact Hh | trivial]. Qed.

Lemma preserves_byte_rows (l : Heap.loc) :
  Heap.preserves h0 (Heap.byte_rows l) (fun _ => True).
Proof. intros h Hh. split; [exact Hh | trivial]. Qed.

Lemma preserves_dtype_of (l : Heap.loc) :
  Heap.preserves h0 (Heap.dtype_of l) (fun _ => True).
Proof. intros h Hh. split; [exact Hh | trivial]. Qed.

Lemma preserves_entries (l : Heap.loc) :
  Heap.preserves h0 (Heap.entries l) (fun _ => True).
Proof.
  unfold Heap.entries. eapply preserves_bind; [apply preserves_float_rows|].
  intros. now apply preserves_ret.
Qed.

Lemma preserves_for {S : Type} (Inv : S -> Prop) (body : S -> Z -> Heap.M S)
  (vs : list Z) :
  (forall s v, Inv s -> Heap.preserves h0 (body s v) Inv) ->
  forall s, Inv s -> Heap.preserves h0 (Heap.py_for body vs s) Inv.
Proof.
  intros Hb. induction vs as [|v vs IH]; intros s Hs; simpl.
  - now apply preserves_ret.
  - eapply preserves_bind; [now apply Hb | exact IH].
Qed.

(** [torch.Tensor(a)] is a new tensor, or [a] itself when [a] is a
    float32 array. *)
Lemma preserves_torch_Tensor (a : Heap.loc) :
  Heap.preserves h0 (Heap.torch_Tensor a)
    (fun l => Heap.fresh h0 l
              \/ (l = a /\ exists rows,
                     nth_error h0 a = Some (Heap.FloatRows Heap.float32 rows))).
Proof.
  intros h [ext ->]. unfold Heap.torch_Tensor, Heap.bindM, Heap.dtype_of, Heap.dtype_at.
  destruct (nth_error (h0 ++ ext) a) as [[[|] rows|rows]|] eqn:E; cbn.
  - split; [now exists ext|]. intros l [= <-].
    destruct (Nat.lt_ge_cases a (length h0)) as [Hlt|Hge]; [right | now left].
    split; [reflexivity|]. exists rows. now rewrite nth_error_app1 in E.
  - rewrite E. cbn. split.
    + eexists. now rewrite <- app_assoc.
    + intros l [= <-]. left. unfold Heap.fresh. rewrite length_app. lia.
  - rewrite E. cbn. split.
    + eexists. now rewrite <- app_assoc.
    + intros l [= <-]. left. unfold Heap.fresh. rewrite length_app. lia.
  - rewrite E. cbn. split.
    + eexists. now rewrite <- app_assoc.
    + intros l [= <-]. left. unfold Heap.fresh. rewrite length_app. lia.
Qed.

End FrameRules.

Create HintDb frame.
#[local] Hint Resolve preserves_lift preserves_entries preserves_float_rows
  preserves_byte_rows preserves_dtype_of preserves_alloc preserves_put : frame.

(** One statement of a routine: its rule, then the rest. *)
Ltac frame_step :=
  lazymatch goal with
  | |- Heap.preserves _ (Heap.bindM _ _) _ =>
      eapply preserves_bind; [solve [eauto with frame] | intros ? ?]
  | |- Heap.preserves _ (Heap.ret _) _ => apply preserves_ret
  | |- Heap.preserves _ (if ?b then _ else _) _ => destruct b
  end.

Section Frame.

Variable get_alpha_bar : list R -> list R.
Variable net : list R -> Z -> list R * list R.
Variable rng : nat -> nat -> R.
Variable h0 : Heap.store.

Context {fmt : FloatFormat}.

(** The predictor writes into the tensor it is handed and allocates its
    answer: the tensor is past [h0], or what is written is what it held. *)
Lemma preserves_call_net sample ti :
  Heap.safe_for h0 net sample ->
  Heap.preserves h0 (Heap.call_net net sample ti) (Heap.fresh h0).
Proof.
  intros [Hs | [Hc (d & v & Hv)]]; unfold Heap.call_net.
  - repeat frame_step. apply preserves_alloc.
  - intros h Hh. pose proof (kept_nth_error _ _ _ _ Hh Hv) as Hv'.
    destruct Hh as [ext ->].
    cbv beta delta [Heap.bindM Heap.entries Heap.float_rows Heap.dtype_of
                      Heap.dtype_at Heap.ret Heap.put Heap.alloc].
    rewrite Hv'. cbn. rewrite Hc, app_nil_r, Hv', (list_set_same _ _ _ Hv'). split.
    + eexists. now rewrite <- app_assoc.
    + intros l [= <-]. unfold Heap.fresh. rewrite length_app. lia.
Qed.

Lemma preserves_del_t_tensor s :
  Heap.preserves h0 (Heap.del_t_tensor s) (fun _ => True).
Proof.
  unfold Heap.del_t_tensor.
  destruct (Heap.t_tensor s); [now apply preserves_ret | apply preserves_lift].
Qed.

#[local] Hint Resolve preserves_call_net preserves_del_t_tensor : frame.

Lemma fresh_safe_for l : Heap.fresh h0 l -> Heap.safe_for h0 net l.
Proof. now left. Qed.

#[local] Hint Resolve fresh_safe_for : frame.

Lemma preserves_reconstruct_body alpha_bar sigma n step_size overstep rs recs s i :
  Heap.fresh h0 recs -> Heap.fresh h0 (Heap.x s) ->
  Heap.preserves h0
    (Heap.reconstruct_body net rng alpha_bar sigma n step_size overstep rs recs s i)
    (fun s' => Heap.fresh h0 (Heap.x s')).
Proof.
  intros Hr Hx. unfold Heap.reconstruct_body. do 7 frame_step.
  eapply preserves_bind with (P := fun _ => True).
  - destruct rs; [repeat frame_step; auto with frame | now apply preserves_ret].
  - intros _ _. now apply preserves_ret.
Qed.

Lemma preserves_sequential_body beta alpha_bar sigma s ti :
  Heap.safe_for h0 net (Heap.x s) ->
  Heap.preserves h0 (Heap.sequential_body net rng beta alpha_bar sigma s ti)
    (fun s' => Heap.safe_for h0 net (Heap.x s')).
Proof.
  intros Hx. unfold Heap.sequential_body. repeat frame_step. now left.
Qed.

Lemma preserves_reconstruct_image_from_noise noisy_image noise t variance_schedule :
  Heap.preserves h0
    (Heap.reconstruct_image_from_noise get_alpha_bar noisy_image noise t
       variance_schedule)
    (Heap.fresh h0).
Proof.
  unfold Heap.reconstruct_image_from_noise. repeat frame_step. apply preserves_alloc.
Qed.

(** Whatever the predictor does, [reconstruct] keeps every array of [h0]:
    the tensors it hands over are its own. *)
Lemma preserves_reconstruct noisy_image t variance_schedule step_size overstep sigma rs :
  Heap.preserves h0
    (Heap.reconstruct get_alpha_bar net rng noisy_image t variance_schedule step_size
       overstep sigma rs)
    (Heap.fresh h0).
Proof.
  unfold Heap.reconstruct. do 12 frame_step.
  eapply preserves_bind.
  - apply preserves_for with (Inv := fun s => Heap.fresh h0 (Heap.x s)); [|assumption].
    intros s v Hs. now apply preserves_reconstruct_body.
  - intros s Hs. repeat frame_step; [assumption | apply preserves_alloc].
Qed.

Section SharedInput.

Variable noisy_image : Heap.loc.
Variable d : Heap.dtype.
Variable v : list R.
Hypothesis Hinput : nth_error h0 noisy_image = Some (Heap.FloatRows d [v]).
Hypothesis Hcontract : d = Heap.float32 -> Heap.side_effect_free net.

Lemma torch_Tensor_safe :
  Heap.preserves h0 (Heap.torch_Tensor noisy_image) (Heap.safe_for h0 net).
Proof.
  intros h Hh. destruct (preserves_torch_Tensor h0 noisy_image h Hh) as [Hk Hq].
  split; [exact Hk|]. intros l Hl. destruct (Hq l Hl) as [Hf | [-> [rows Hrows]]].
  - now left.
  - right. rewrite Hinput in Hrows. injection Hrows as Hd _.
    split; [now apply Hcontract | now exists d, v].
Qed.

Lemma preserves_reconstruct_single_step t variance_schedule :
  Heap.preserves h0
    (Heap.reconstruct_single_step get_alpha_bar net noisy_image t variance_schedule)
    (Heap.fresh h0).
Proof.
  unfold Heap.reconstruct_single_step.
  eapply preserves_bind; [apply torch_Tensor_safe|]. intros batch Hbatch.
  repeat frame_step. apply preserves_alloc.
Qed.

Lemma preserves_reconstruct_sequentially t variance_schedule sigma :
  Heap.preserves h0
    (Heap.reconstruct_sequentially get_alpha_bar net rng noisy_image t
       variance_schedule sigma)
    (Heap.fresh h0).
Proof.
  unfold Heap.reconstruct_sequentially. frame_step.
  eapply preserves_bind; [apply torch_Tensor_safe|]. intros x0 Hx0.
  eapply preserves_bind.
  - apply preserves_for with (Inv := fun s => Heap.safe_for h0 net (Heap.x s));
      [|assumption].
    intros s w Hs. now apply preserves_sequential_body.
  - intros s Hs. repeat frame_step. apply preserves_alloc.
Qed.

End SharedInput.

Lemma preserves_unchanged (m : Heap.M Heap.loc) (l : Heap.loc) :
  Heap.preserves h0 m (Heap.fresh h0) ->
  (l < length h0)%nat ->
  Heap.leaves_unchanged h0 l m.
Proof.
  intros Hm Hl. destruct (Hm h0 (kept_refl h0)) as [Hkept Hfresh]. split.
  - destruct (nth_error h0 l) as [b|] eqn:E.
    + eapply kept_nth_error; eauto.
    + apply nth_error_None in E. lia.
  - intros l' Hl'. apply Hfresh in Hl'. unfold Heap.fresh in Hl'. lia.
Qed.

(** C10, as amended: the array [noisy_image] of the caller holds a
    sample, and the predictor keeps its contract (it does not write into the
    tensor it is handed) in the case where the array is float32, in which
    [torch.Tensor(noisy_image)] shares its memory; for an array of another
    width the predictor is any.  Then each of the four routines leaves
    [noisy_image] as it was, whether it returns or raises, and the array it
    returns is not [noisy_image]. *)
Theorem input_array_unchanged
  (noisy_image noise : Heap.loc) (d : Heap.dtype) (v : list R)
  (t : Z) (variance_schedule : list R)
  (step_size : Z) (overstep : R) (sigma : sigma_arg) (return_sequences : bool) :
  nth_error h0 noisy_image = Some (Heap.FloatRows d [v]) ->
  (d = Heap.float32 -> Heap.side_effect_free net) ->
  Heap.leaves_unchanged h0 noisy_image
    (Heap.reconstruct_image_from_noise get_alpha_bar noisy_image noise t
       variance_schedule)
  /\ Heap.leaves_unchanged h0 noisy_image
       (Heap.reconstruct_single_step get_alpha_bar net noisy_image t variance_schedule)
  /\ Heap.leaves_unchanged h0 noisy_image
       (Heap.reconstruct get_alpha_bar net rng noisy_image t variance_schedule
          step_size overstep sigma return_sequences)
  /\ Heap.leaves_unchanged h0 noisy_image
       (Heap.reconstruct_sequentially get_alpha_bar net rng noisy_image t
          variance_schedule sigma).
Proof.
  intros Hv Hc.
  assert (Hl : (noisy_image < length h0)%nat) by (apply nth_error_Some; congruence).
  split; [|split; [|split]]; apply preserves_unchanged; auto.
  - apply preserves_reconstruct_image_from_noise.
  - eapply preserves_reconstruct_single_step; eauto.
  - apply preserves_reconstruct.
  - eapply preserves_reconstruct_sequentially; eauto.
Qed.

End Frame.

Lemma input_array_unchanged_witness :
  let h0 := [Heap.FloatRows Heap.float32 [[1 / 2; 3 / 2]];
             Heap.FloatRows Heap.float32 [[0; 1]]] in
  Heap.leaves_unchanged h0 0%nat
    (Heap.reconstruct_image_from_noise compute_cumulative_retention 0%nat 1%nat 3
       [3 / 4; 3 / 4; 3 / 4])
  /\ Heap.leaves_unchanged h0 0%nat
       (Heap.reconstruct_single_step compute_cumulative_retention (quiet probe_net)
          0%nat 3 [3 / 4; 3 / 4; 3 / 4])
  /\ Heap.leaves_unchanged h0 0%nat
       (Heap.reconstruct compute_cumulative_retention (quiet probe_net)
          (fun _ _ => 1) 0%nat 3 [3 / 4; 3 / 4; 3 / 4] 1 (1 / 2) (SigmaScalar 1) true)
  /\ Heap.leaves_unchanged h0 0%nat
       (Heap.reconstruct_sequentially compute_cumulative_retention (quiet probe_net)
          (fun _ _ => 1) 0%nat 3 [3 / 4; 3 / 4; 3 / 4] (SigmaScalar 1)).
Proof.
  intros h0.
  apply (input_array_unchanged compute_cumulative_retention (quiet probe_net)
           (fun _ _ => 1) h0 0%nat 1%nat Heap.float32 [1 / 2; 3 / 2]).
  - reflexivity.
  - intros _ c ti. reflexivity.
Defined.

(** The contract is needed for a float32 input: the tensor handed to the
    predictor by [reconstruct_sequentially] is then the array of the caller,
    and a predictor that writes into it changes that array. *)
Remark float32_input_is_shared :
  let h0 := [Heap.FloatRows Heap.float32 [[1 / 2; 3 / 2]]] in
  nth_error
    (snd (Heap.reconstruct_sequentially compute_cumulative_retention scrubbing_net
            (fun _ _ => 1) 0%nat 2 [3 / 4; 3 / 4; 3 / 4] SigmaNone h0)) 0%nat
  = Some (Heap.FloatRows Heap.float32 [[0; 0]]).
Proof. reflexivity. Qed.

(** C10, as stated, fails: the float32 array of the caller is the tensor
    that [reconstruct_sequentially] hands to the predictor, not a fresh
    buffer, and a predictor that zeroes its input in place leaves zeros in
    the array of the caller. *)
Lemma shared_input_counterexample :
  ~ Heap.leaves_unchanged [Heap.FloatRows Heap.float32 [[1 / 2; 3 / 2]]] 0%nat
      (Heap.reconstruct_sequentially compute_cumulative_retention scrubbing_net
         (fun _ _ => 1) 0%nat 2 [3 / 4; 3 / 4; 3 / 4] SigmaNone).
Proof.
  intros [H _]. rewrite float32_input_is_shared in H. cbn [nth_error] in H.
  injection H as H _. lra.
Qed.

(** ** The routines on buffers and on values agree *)

Lemma bindM_Ok {A B : Type} (m : Heap.M A) (k : A -> Heap.M B) h a h' :
  m h = (Ok a, h') -> Heap.bindM m k h = k a h'.
Proof. intros E. unfold Heap.bindM. now rewrite E. Qed.

Lemma bindM_Err {A B : Type} (m : Heap.M A) (k : A -> Heap.M B) h e h' :
  m h = (Err e, h') -> Heap.bindM m k h = (Err e, h').
Proof. intros E. unfold Heap.bindM. now rewrite E. Qed.

Lemma bindM_lift {A B : Type} (r : result A) (k : A -> Heap.M B) h :
  Heap.bindM (Heap.lift r) k h
  = match r with Ok a => k a h | Err e => (Err e, h) end.
Proof. unfold Heap.bindM, Heap.lift. now destruct r. Qed.

Lemma bindM_dtype_of {B : Type} (l : Heap.loc) (k : Heap.dtype -> Heap.M B) h :
  Heap.bindM (Heap.dtype_of l) k h = k (Heap.dtype_at h l) h.
Proof. reflexivity. Qed.

Lemma entries_holds h l v : holds h l v -> Heap.entries l h = (Ok v, h).
Proof.
  intros [d H]. unfold Heap.entries, Heap.bindM, Heap.float_rows, Heap.ret.
  rewrite H. simpl. now rewrite app_nil_r.
Qed.

Lemma holds_alloc h d v : holds (h ++ [Heap.FloatRows d [v]]) (length h) v.
Proof.
  exists d. rewrite nth_error_app2 by lia. now rewrite Nat.sub_diag.
Qed.

Lemma holds_grow h ext l v : holds h l v -> holds (h ++ ext) l v.
Proof. intros [d H]. exists d. now apply nth_error_grow. Qed.

Lemma list_set_last {A : Type} (h : list A) (b b' : A) :
  list_set (h ++ [b]) (length h) b' = h ++ [b'].
Proof. induction h as [|a h IH]; simpl; [reflexivity | now rewrite IH]. Qed.

Lemma nth_error_list_set_eq {A : Type} (h : list A) l b b' :
  nth_error h l = Some b -> nth_error (list_set h l b') l = Some b'.
Proof.
  revert l. induction h as [|a h IH]; intros [|l]; simpl; try discriminate; auto.
Qed.

Lemma nth_error_list_set_neq {A : Type} (h : list A) l l' b' :
  l <> l' -> nth_error (list_set h l b') l' = nth_error h l'.
Proof.
  revert l l'. induction h as [|a h IH]; intros [|l] [|l'] Hne; simpl; auto;
    try congruence.
Qed.

Lemma float_rows_alloc h d rows :
  Heap.float_rows (length h) (h ++ [Heap.FloatRows d rows])
  = (Ok rows, h ++ [Heap.FloatRows d rows]).
Proof.
  unfold Heap.float_rows. rewrite nth_error_app2 by lia. now rewrite Nat.sub_diag.
Qed.

(** A quiet predictor only allocates its answer. *)
Lemma call_net_quiet net h l v ti :
  holds h l v ->
  Heap.call_net (quiet net) l ti h
  = (Ok (length h), h ++ [Heap.FloatRows Heap.float32 [net v ti]]).
Proof.
  intros H. unfold Heap.call_net.
  rewrite (bindM_Ok _ _ _ _ _ (entries_holds _ _ _ H)).
  destruct H as [d H].
  unfold Heap.bindM, Heap.dtype_of, Heap.dtype_at, Heap.put, Heap.alloc, quiet.
  cbn [fst snd]. rewrite H. now rewrite (list_set_same h l _ H).
Qed.

(** [torch.Tensor] of a sample is a tensor that holds it, in a store that
    has grown at most. *)
Lemma torch_Tensor_holds h a v :
  holds h a v ->
  exists l ext,
    Heap.torch_Tensor a h = (Ok l, h ++ ext) /\ holds (h ++ ext) l v.
Proof.
  intros [d H]. unfold Heap.torch_Tensor. rewrite bindM_dtype_of.
  unfold Heap.dtype_at. rewrite H. destruct d.
  - exists a, []. rewrite app_nil_r. split; [reflexivity | now exists Heap.float32].
  - rewrite (bindM_Ok _ _ _ _ _ (entries_holds _ _ _ (ex_intro _ _ H))).
    eexists _, _. split; [reflexivity | apply holds_alloc].
Qed.

Lemma py_for_agrees (Sim : Heap.store -> Heap.loop_state -> loop_state -> Prop)
  (hbody : Heap.loop_state -> Z -> Heap.M Heap.loop_state)
  (pbody : loop_state -> Z -> result loop_state) (vs : list Z) :
  (forall h s ps v, Sim h s ps -> agrees_state Sim (hbody s v h) (pbody ps v)) ->
  forall h s ps, Sim h s ps ->
    agrees_state Sim (Heap.py_for hbody vs s h) (py_for pbody vs ps).
Proof.
  intros Hb. induction vs as [|v vs IH]; intros h s ps Hs; cbn [Heap.py_for py_for].
  - unfold Heap.ret. cbn [agrees_state]. eauto.
  - specialize (Hb h s ps v Hs). unfold Heap.bindM.
    destruct (hbody s v h) as [[s1|e] h1]; cbn [agrees_state] in Hb.
    + destruct Hb as (ps1 & -> & Hs1). cbn [bind]. now apply IH.
    + rewrite Hb. reflexivity.
Qed.

Section Agreement.

Variable get_alpha_bar : list R -> list R.
Variable net : list R -> Z -> list R.
Variable rng : nat -> nat -> R.

Context {fmt : FloatFormat}.

Lemma reconstruct_image_from_noise_agrees h noisy_image noise v n t variance_schedule :
  holds h noisy_image v -> holds h noise n ->
  agrees holds
    (Heap.reconstruct_image_from_noise get_alpha_bar noisy_image noise t
       variance_schedule h)
    (reconstruct_image_from_noise get_alpha_bar v n t variance_schedule).
Proof.
  intros Hv Hn. unfold Heap.reconstruct_image_from_noise, reconstruct_image_from_noise.
  rewrite bindM_lift.
  destruct (py_index (get_alpha_bar variance_schedule) t) as [alpha_bar|e];
    cbn [bind agrees]; [|reflexivity].
  rewrite (bindM_Ok _ _ _ _ _ (entries_holds _ _ _ Hv)).
  rewrite (bindM_Ok _ _ _ _ _ (entries_holds _ _ _ Hn)).
  rewrite !bindM_dtype_of.
  unfold Heap.alloc, agrees. eexists. split; [reflexivity | apply holds_alloc].
Qed.

(** With a quiet predictor, [reconstruct_single_step] on buffers raises
    what it raises on values, or returns an array that holds the sample it
    returns on values: whether [torch.Tensor] shares the input or copies
    it. *)
Lemma reconstruct_single_step_agrees h noisy_image v t variance_schedule :
  holds h noisy_image v ->
  agrees holds
    (Heap.reconstruct_single_step get_alpha_bar (quiet net) noisy_image t
       variance_schedule h)
    (reconstruct_single_step get_alpha_bar net v t variance_schedule).
Proof.
  intros Hv. unfold Heap.reconstruct_single_step, reconstruct_single_step.
  destruct (torch_Tensor_holds h noisy_image v Hv) as (batch & ext & Hrun & Hbatch).
  rewrite (bindM_Ok _ _ _ _ _ Hrun).
  rewrite (bindM_Ok _ _ _ _ _ (call_net_quiet net _ _ v t Hbatch)).
  rewrite (bindM_Ok _ _ _ _ _ (entries_holds _ _ _ (holds_alloc _ _ (net v t)))).
  rewrite bindM_lift.
  destruct (py_index (get_alpha_bar variance_schedule) t) as [alpha_bar|e];
    cbn [bind agrees]; [|reflexivity].
  assert (Hv' : holds ((h ++ ext) ++ [Heap.FloatRows Heap.float32 [net v t]])
                  noisy_image v) by now do 2 apply holds_grow.
  rewrite (bindM_Ok _ _ _ _ _ (entries_holds _ _ _ Hv')).
  rewrite bindM_dtype_of.
  rewrite (bindM_Ok _ _ _ _ _ (eq_refl : Heap.alloc _ _ = _)).
  rewrite (bindM_Ok _ _ _ _ _ (entries_holds _ _ _ (holds_alloc _ _ _))).
  unfold Heap.alloc, agrees. eexists. split; [reflexivity | apply holds_alloc].
Qed.

Lemma reconstruct_body_agrees alpha_bar sigma n step_size overstep rs recs h s ps i :
  sim recs h s ps ->
  agrees_state (sim recs)
    (Heap.reconstruct_body (quiet net) rng alpha_bar sigma n step_size overstep rs recs
       s i h)
    (reconstruct_body net rng alpha_bar sigma n step_size overstep rs ps i).
Proof.
  intros (Hx & Hd & Ht & Hrecs). unfold Heap.reconstruct_body, reconstruct_body.
  rewrite (bindM_Ok _ _ _ _ _ (call_net_quiet net _ _ _ _ Hx)).
  rewrite bindM_lift.
  destruct (py_index alpha_bar (i * step_size)) as [a_ti|]; cbn [bind agrees_state];
    [|reflexivity].
  rewrite bindM_lift.
  destruct (py_index alpha_bar (i * step_size - step_size)) as [a_prev|];
    cbn [bind agrees_state]; [|reflexivity].
  rewrite (bindM_Ok _ _ _ _ _ (entries_holds _ _ _ (holds_grow _ _ _ _ Hx))).
  rewrite (bindM_Ok _ _ _ _ _ (entries_holds _ _ _ (holds_alloc _ _ _))).
  rewrite bindM_lift.
  destruct (py_index sigma (i * step_size)) as [s_ti|]; cbn [bind agrees_state];
    [|reflexivity].
  rewrite (bindM_Ok _ _ _ _ _ (eq_refl : Heap.alloc _ _ = _)).
  rewrite Hd.
  set (x' := map3 _ _ _ _).
  set (h2 := (h ++ _) ++ _).
  assert (Hx' : holds h2
                  (length (h ++ [Heap.FloatRows Heap.float32
                                   [net (x ps) (i * step_size)]])) x')
    by apply holds_alloc.
  assert (Hrecs2 : nth_error h2 recs = Some (Heap.ByteRows (reconstructions ps)))
    by (unfold h2; now do 2 apply nth_error_grow).
  destruct rs.
  - match goal with
    | |- context [Heap.bindM ?inner _ h2] =>
        assert (Hin : inner h2
                      = match py_setitem (reconstructions ps) (n - i)
                                (quantize (map (clip 0 1) x')) with
                        | Ok frames' =>
                            (Ok tt, list_set h2 recs (Heap.ByteRows frames'))
                        | Err e => (Err e, h2)
                        end)
    end.
    { rewrite (bindM_Ok _ _ _ _ _ (entries_holds _ _ _ Hx')).
      erewrite bindM_Ok; [|unfold Heap.byte_rows; rewrite Hrecs2; reflexivity].
      rewrite bindM_lift. reflexivity. }
    destruct (py_setitem (reconstructions ps) (n - i) _) as [frames'|];
      cbn [bind agrees_state].
    + rewrite (bindM_Ok _ _ _ _ _ Hin). unfold Heap.ret. cbn [agrees_state].
      eexists. split; [reflexivity|]. unfold sim. cbn.
      assert (Hlt : (recs < length h)%nat) by (apply nth_error_Some; congruence).
      repeat split; auto.
      * destruct Hx' as [d' Hx']. exists d'.
        rewrite nth_error_list_set_neq; [exact Hx'|]. rewrite length_app. lia.
      * eapply nth_error_list_set_eq. exact Hrecs2.
    + rewrite (bindM_Err _ _ _ _ _ Hin). reflexivity.
  - rewrite (bindM_Ok _ _ _ _ _ (eq_refl : Heap.ret tt h2 = _)).
    unfold Heap.ret. cbn [bind agrees_state].
    eexists. split; [reflexivity|]. unfold sim. cbn. repeat split; auto.
Qed.

Lemma sequential_body_agrees beta alpha_bar sigma h s ps ti :
  sim_sample h s ps ->
  agrees_state sim_sample
    (Heap.sequential_body (quiet net) rng beta alpha_bar sigma s ti h)
    (sequential_body net rng beta alpha_bar sigma ps ti).
Proof.
  intros (Hx & Hd & Ht & Hr). unfold Heap.sequential_body, sequential_body.
  rewrite (bindM_Ok _ _ _ _ _ (call_net_quiet net _ _ _ _ Hx)).
  rewrite (bindM_Ok _ _ _ _ _ (entries_holds _ _ _ (holds_grow _ _ _ _ Hx))).
  rewrite (bindM_Ok _ _ _ _ _ (entries_holds _ _ _ (holds_alloc _ _ _))).
  rewrite bindM_lift.
  destruct (py_index beta ti) as [b|]; cbn [bind agrees_state]; [|reflexivity].
  rewrite bindM_lift.
  destruct (py_index alpha_bar ti) as [a_ti|]; cbn [bind agrees_state]; [|reflexivity].
  rewrite bindM_lift.
  destruct (py_index sigma ti) as [s_ti|]; cbn [bind agrees_state]; [|reflexivity].
  rewrite (bindM_Ok _ _ _ _ _ (eq_refl : Heap.alloc _ _ = _)).
  unfold Heap.ret. cbn [agrees_state]. rewrite Hd, Hr.
  eexists. split; [reflexivity|]. unfold sim_sample. cbn.
  repeat split; auto. apply holds_alloc.
Qed.

Lemma reconstruct_sequentially_agrees h noisy_image v t variance_schedule sigma :
  holds h noisy_image v ->
  agrees holds
    (Heap.reconstruct_sequentially get_alpha_bar (quiet net) rng noisy_image t
       variance_schedule sigma h)
    (reconstruct_sequentially get_alpha_bar net rng v t variance_schedule sigma).
Proof.
  intros Hv. unfold Heap.reconstruct_sequentially, reconstruct_sequentially.
  rewrite bindM_lift.
  destruct (sigma_schedule sigma t) as [l|]; cbn [bind agrees]; [|reflexivity].
  destruct (torch_Tensor_holds h noisy_image v Hv) as (x0 & ext & Hrun & Hx0).
  rewrite (bindM_Ok _ _ _ _ _ Hrun).
  pose proof (py_for_agrees sim_sample
                (Heap.sequential_body (quiet net) rng variance_schedule
                   (get_alpha_bar variance_schedule) l)
                (sequential_body net rng variance_schedule
                   (get_alpha_bar variance_schedule) l)
                (py_reversed_range 1 t)
                (fun h s ps v H => sequential_body_agrees _ _ _ h s ps v H)
                (h ++ ext) (Heap.mkLoop x0 O None)
                (mkLoop v [] O None)) as Hloop.
  assert (Hinit : sim_sample (h ++ ext) (Heap.mkLoop x0 O None) (mkLoop v [] O None)).
  { unfold sim_sample. cbn. repeat split. exact Hx0. }
  specialize (Hloop Hinit).
  unfold Heap.bindM at 1.
  destruct (Heap.py_for _ _ _ _) as [[s'|e] h']; cbn [agrees_state] in Hloop.
  - destruct Hloop as (ps' & -> & Hx & Hd & Ht & Hr).
    cbn [bind]. unfold Heap.del_t_tensor, del_t_tensor. rewrite Ht.
    destruct (t_tensor ps'); cbn [bind].
    + rewrite (bindM_Ok _ _ _ _ _ (eq_refl : Heap.ret tt h' = _)).
      rewrite (bindM_Ok _ _ _ _ _ (entries_holds _ _ _ Hx)).
      unfold Heap.alloc, agrees. eexists. split; [reflexivity | apply holds_alloc].
    + reflexivity.
  - now rewrite Hloop.
Qed.

(** The same for [reconstruct]: the array returned holds the last sample,
    or the frames. *)
Lemma reconstruct_agrees h noisy_image v t variance_schedule step_size overstep sigma rs :
  holds h noisy_image v ->
  agrees holds_output
    (Heap.reconstruct get_alpha_bar (quiet net) rng noisy_image t variance_schedule
       step_size overstep sigma rs h)
    (reconstruct get_alpha_bar net rng v t variance_schedule step_size overstep sigma rs).
Proof.
  intros Hv. unfold Heap.reconstruct, reconstruct.
  rewrite bindM_lift.
  destruct (sigma_schedule sigma t) as [l|]; cbn [bind agrees]; [|reflexivity].
  rewrite bindM_lift.
  destruct (py_floordiv t step_size) as [n|]; cbn [bind agrees]; [|reflexivity].
  rewrite (bindM_Ok _ _ _ _ _ (entries_holds _ _ _ Hv)).
  rewrite bindM_lift.
  destruct (np_zeros n) as [zs|]; cbn [bind agrees]; [|reflexivity].
  rewrite (bindM_Ok _ _ _ _ _ (eq_refl : Heap.alloc _ _ = _)).
  rewrite (bindM_Ok _ _ _ _ _ (float_rows_alloc _ _ _)).
  rewrite bindM_lift.
  destruct (py_setitem _ 0 v) as [rows'|] eqn:Eset; cbn [bind agrees]; [|reflexivity].
  destruct (py_setitem_head _ _ _ Eset) as [tl ->].
  rewrite first_row.
  rewrite (bindM_Ok _ _ _ _ _ (eq_refl : Heap.put _ _ _ = _)).
  rewrite list_set_last.
  rewrite (bindM_Ok _ _ _ _ _ (float_rows_alloc _ _ _)).
  rewrite (bindM_Ok _ _ _ _ _ (eq_refl : Heap.alloc _ _ = _)).
  set (h1 := h ++ [Heap.FloatRows Heap.float64 (v :: tl)]).
  set (h2 := h1 ++ [Heap.FloatRows Heap.float32 (firstn 1 (v :: tl))]).
  assert (Hrows : Heap.float_rows (length h) h2 = (Ok (v :: tl), h2)).
  { unfold Heap.float_rows, h2, h1.
    rewrite nth_error_app1 by (rewrite length_app; simpl; lia).
    rewrite nth_error_app2 by lia. now rewrite Nat.sub_diag. }
  rewrite (bindM_Ok _ _ _ _ _ Hrows).
  rewrite (bindM_Ok _ _ _ _ _ (eq_refl : Heap.alloc _ _ = _)).
  set (h3 := h2 ++ [Heap.ByteRows _]).
  pose proof (py_for_agrees (sim (length h2))
                (Heap.reconstruct_body (quiet net) rng (get_alpha_bar variance_schedule) l
                   n step_size overstep rs (length h2))
                (reconstruct_body net rng (get_alpha_bar variance_schedule) l n step_size
                   overstep rs)
                (py_reversed_range 1 n)
                (fun h s ps i H => reconstruct_body_agrees _ _ _ _ _ _ _ h s ps i H)
                h3 (Heap.mkLoop (length h1) O None)
                (mkLoop v (map quantize64 (v :: tl)) O None)) as Hloop.
  assert (Hinit : sim (length h2) h3 (Heap.mkLoop (length h1) O None)
                    (mkLoop v (map quantize64 (v :: tl)) O None)).
  { unfold sim, holds.
    cbn [Heap.x x Heap.draws draws Heap.t_tensor t_tensor reconstructions].
    repeat split.
    - exists Heap.float32. unfold h3, h2.
      rewrite nth_error_app1 by (rewrite !length_app; simpl; lia).
      rewrite nth_error_app2 by lia. now rewrite Nat.sub_diag.
    - unfold h3. rewrite nth_error_app2 by lia. now rewrite Nat.sub_diag. }
  specialize (Hloop Hinit).
  unfold Heap.bindM at 1.
  destruct (Heap.py_for _ _ _ _) as [[s'|e] h']; cbn [agrees_state] in Hloop.
  - destruct Hloop as (ps' & -> & Hx & Hd & Ht & Hr).
    cbn [bind]. unfold Heap.del_t_tensor, del_t_tensor. rewrite Ht.
    destruct (t_tensor ps'); cbn [bind].
    + rewrite (bindM_Ok _ _ _ _ _ (eq_refl : Heap.ret tt h' = _)).
      destruct rs.
      * unfold Heap.ret, agrees. eexists. split; [reflexivity | exact Hr].
      * rewrite (bindM_Ok _ _ _ _ _ (entries_holds _ _ _ Hx)).
        unfold Heap.alloc, agrees. eexists. split; [reflexivity | apply holds_alloc].
    + reflexivity.
  - now rewrite Hloop.
Qed.

End Agreement.

(** * Further properties of the routines *)

(** ** Exceptions at the edges of the arguments *)

Section Edges.

Variable get_alpha_bar : list R -> list R.
Variable net : list R -> Z -> list R.
Variable rng : nat -> nat -> R.

Context {fmt : FloatFormat}.

(** X1: whenever [t // step_size] is 1, that is [step_size <= t < 2*step_size]
    for a stride of one or more, [reconstruct] makes no iteration and ends in
    [UnboundLocalError] at [del t_tensor], with or without
    [return_sequences]. *)
Theorem reconstruct_one_block_unbound
  noisy_image t variance_schedule step_size overstep sigma return_sequences :
  (1 <= step_size <= t)%Z -> (t < 2 * step_size)%Z ->
  reconstruct get_alpha_bar net rng noisy_image t variance_schedule step_size
    overstep sigma return_sequences = Err UnboundLocalError.
Proof. intros H1 H2. now apply reconstruct_single_iteration_unbound. Qed.

(** X2: a stride of zero is a division by zero at [t // step_size], for
    every timestep [t >= 0]. *)
Theorem reconstruct_zero_stride
  noisy_image t variance_schedule overstep sigma return_sequences :
  (0 <= t)%Z ->
  reconstruct get_alpha_bar net rng noisy_image t variance_schedule 0
    overstep sigma return_sequences = Err ZeroDivisionError.
Proof.
  intros Ht. unfold reconstruct.
  destruct (sigma_schedule_Ok sigma t Ht) as [l ->]. reflexivity.
Qed.

(** X3: for a negative timestep and a [sigma] left to its default or given
    as a scalar, both samplers fail with [ValueError], at [np.zeros(t)] or
    [np.ones(t)], before the schedule is read. *)
Theorem negative_timestep_value_error
  noisy_image t variance_schedule step_size overstep sigma return_sequences :
  (t < 0)%Z -> sigma_is_broadcast sigma ->
  reconstruct get_alpha_bar net rng noisy_image t variance_schedule step_size
    overstep sigma return_sequences = Err ValueError
  /\ reconstruct_sequentially get_alpha_bar net rng noisy_image t variance_schedule
       sigma = Err ValueError.
Proof.
  intros Ht Hs. unfold reconstruct, reconstruct_sequentially.
  assert (E : sigma_schedule sigma t = Err ValueError).
  { destruct sigma as [|s|l]; [| |contradiction]; cbn [sigma_schedule];
      unfold np_zeros, np_ones;
      replace (t <? 0)%Z with true by (symmetry; apply Z.ltb_lt; lia); reflexivity. }
  rewrite E. split; reflexivity.
Qed.

(** X4: a schedule too short for the first timestep of the loop is an
    [IndexError]: in [reconstruct] when [alpha_bar] has no entry
    [(t // step_size - 1) * step_size], in [reconstruct_sequentially] when
    [beta] has no entry [t - 1]. *)
Theorem schedule_too_short
  noisy_image t variance_schedule step_size overstep sigma return_sequences :
  (1 <= step_size)%Z -> (2 * step_size <= t)%Z ->
  ((Z.of_nat (length (get_alpha_bar variance_schedule))
    <= (t / step_size - 1) * step_size)%Z ->
   reconstruct get_alpha_bar net rng noisy_image t variance_schedule step_size
     overstep sigma return_sequences = Err IndexError)
  /\ ((Z.of_nat (length variance_schedule) <= t - 1)%Z ->
      reconstruct_sequentially get_alpha_bar net rng noisy_image t variance_schedule
        sigma = Err IndexError).
Proof.
  intros Hstep Ht.
  destruct (sigma_schedule_Ok sigma t) as [l El]; [lia|].
  assert (Hout : forall (A : Type) (ls : list A) (i : Z),
             (0 <= i)%Z -> (Z.of_nat (length ls) <= i)%Z -> py_index ls i = Err IndexError).
  { intros A ls i Hi Hlen. unfold py_index.
    replace (i <? 0)%Z with false by (symmetry; apply Z.ltb_ge; lia).
    replace (i <? Z.of_nat (length ls))%Z with false by (symmetry; apply Z.ltb_ge; lia).
    now rewrite andb_false_r. }
  split.
  - intros Hlen. unfold reconstruct. rewrite El. cbn [bind].
    unfold py_floordiv.
    replace (step_size =? 0)%Z with false by (symmetry; apply Z.eqb_neq; lia).
    cbn [bind]. set (n := (t / step_size)%Z) in *.
    assert (Hn : (2 <= n)%Z) by (unfold n; apply Z.div_le_lower_bound; lia).
    unfold np_zeros. replace (n <? 0)%Z with false by (symmetry; apply Z.ltb_ge; lia).
    cbn [bind]. rewrite py_setitem_first by lia. cbn [bind].
    rewrite py_reversed_range_cons by lia. cbn [py_for].
    unfold reconstruct_body at 1. rewrite Hout by nia. reflexivity.
  - intros Hlen. unfold reconstruct_sequentially. rewrite El. cbn [bind].
    rewrite py_reversed_range_cons by lia. cbn [py_for].
    unfold sequential_body at 1. rewrite Hout by lia. reflexivity.
Qed.

(** X5: a [sigma] given as a sequence with no entry at the first timestep
    of the loop is an [IndexError] too, once the schedule has one. *)
Theorem sigma_too_short
  noisy_image t variance_schedule step_size overstep (sigma : list R)
  return_sequences :
  (1 <= step_size)%Z -> (2 * step_size <= t)%Z ->
  (t - step_size < Z.of_nat (length (get_alpha_bar variance_schedule)))%Z ->
  (Z.of_nat (length sigma) <= (t / step_size - 1) * step_size)%Z ->
  reconstruct get_alpha_bar net rng noisy_image t variance_schedule step_size
    overstep (SigmaSeq sigma) return_sequences = Err IndexError.
Proof.
  intros Hstep Ht Hab Hlen. unfold reconstruct. cbn [sigma_schedule bind].
  unfold py_floordiv.
  replace (step_size =? 0)%Z with false by (symmetry; apply Z.eqb_neq; lia).
  cbn [bind]. set (n := (t / step_size)%Z) in *.
  assert (Hn : (2 <= n)%Z) by (unfold n; apply Z.div_le_lower_bound; lia).
  assert (Hle : (step_size * n <= t)%Z) by (unfold n; apply Z.mul_div_le; lia).
  unfold np_zeros. replace (n <? 0)%Z with false by (symmetry; apply Z.ltb_ge; lia).
  cbn [bind]. rewrite py_setitem_first by lia. cbn [bind].
  rewrite py_reversed_range_cons by lia. cbn [py_for].
  unfold reconstruct_body at 1.
  rewrite (py_index_Ok (get_alpha_bar variance_schedule) ((n - 1) * step_size) 0) by nia.
  cbn [bind].
  rewrite (py_index_Ok (get_alpha_bar variance_schedule)
             ((n - 1) * step_size - step_size) 0) by nia.
  cbn [bind]. unfold py_index.
  replace ((n - 1) * step_size <? 0)%Z with false by (symmetry; apply Z.ltb_ge; nia).
  replace ((n - 1) * step_size <? Z.of_nat (length sigma))%Z with false
    by (symmetry; apply Z.ltb_ge; lia).
  rewrite andb_false_r. reflexivity.
Qed.

End Edges.

Lemma reconstruct_one_block_unbound_witness :
  reconstruct compute_cumulative_retention probe_net (fun _ _ => 1) [1 / 2; 1 / 4] 5
    (repeat (1 / 10) 6) 3 (1 / 2) (SigmaScalar 1) true = Err UnboundLocalError.
Proof.
  apply (reconstruct_one_block_unbound compute_cumulative_retention probe_net
           (fun _ _ => 1)); lia.
Defined.

Lemma reconstruct_zero_stride_witness :
  reconstruct compute_cumulative_retention probe_net (fun _ _ => 1) [1 / 2; 1 / 4] 5
    (repeat (1 / 10) 6) 0 (1 / 2) SigmaNone false = Err ZeroDivisionError.
Proof.
  apply (reconstruct_zero_stride compute_cumulative_retention probe_net
           (fun _ _ => 1)); lia.
Defined.

Lemma negative_timestep_value_error_witness :
  reconstruct compute_cumulative_retention probe_net (fun _ _ => 1) [1 / 2; 1 / 4] (-3)
    (repeat (1 / 10) 6) 1 (1 / 2) (SigmaScalar 1) false = Err ValueError
  /\ reconstruct_sequentially compute_cumulative_retention probe_net (fun _ _ => 1)
       [1 / 2; 1 / 4] (-3) (repeat (1 / 10) 6) (SigmaScalar 1) = Err ValueError.
Proof.
  apply (negative_timestep_value_error compute_cumulative_retention probe_net
           (fun _ _ => 1)); [lia | exact I].
Defined.

Lemma schedule_too_short_witness :
  reconstruct compute_cumulative_retention probe_net (fun _ _ => 1) [1 / 2; 1 / 4] 8
    (repeat (1 / 10) 3) 2 (1 / 2) SigmaNone false = Err IndexError
  /\ reconstruct_sequentially compute_cumulative_retention probe_net (fun _ _ => 1)
       [1 / 2; 1 / 4] 8 (repeat (1 / 10) 3) SigmaNone = Err IndexError.
Proof.
  destruct (schedule_too_short compute_cumulative_retention probe_net (fun _ _ => 1)
              [1 / 2; 1 / 4] 8 (repeat (1 / 10) 3) 2 (1 / 2) SigmaNone false)
    as [H1 H2]; [lia | lia |].
  split; [apply H1 | apply H2]; simpl; lia.
Defined.

Lemma sigma_too_short_witness :
  reconstruct compute_cumulative_retention probe_net (fun _ _ => 1) [1 / 2; 1 / 4] 6
    (repeat (1 / 10) 6) 2 (1 / 2) (SigmaSeq [0; 0; 0]) true = Err IndexError.
Proof.
  apply (sigma_too_short compute_cumulative_retention probe_net (fun _ _ => 1));
    simpl; lia.
Defined.

(** ** Runs that return: shape and range *)

Lemma length_map2 {A B C : Type} (f : A -> B -> C) (l : list A) (m : list B) :
  length m = length l -> length (map2 f l m) = length l.
Proof.
  revert m. induction l as [|a l IH]; intros [|b m] H; simpl in *;
    try discriminate; auto.
Qed.

Lemma length_map3 {A B C D : Type} (f : A -> B -> C -> D)
  (l : list A) (m : list B) (n : list C) :
  length m = length l -> length n = length l -> length (map3 f l m n) = length l.
Proof.
  revert m n. induction l as [|a l IH]; intros [|b m] [|c n] Hm Hn; simpl in *;
    try discriminate; auto.
Qed.

Lemma last_default {A : Type} (l : list A) (d d' : A) :
  l <> [] -> last l d = last l d'.
Proof.
  induction l as [|a l IH]; intros Hne; [congruence|].
  destruct l as [|b l]; [reflexivity|].
  change (last (a :: b :: l) d) with (last (b :: l) d).
  change (last (a :: b :: l) d') with (last (b :: l) d').
  apply IH. discriminate.
Qed.

Lemma last_satisfies {A : Type} (P : A -> Prop) (l : list A) (d : A) :
  P d -> Forall P l -> P (last l d).
Proof.
  intros Hd Hl. revert d Hd. induction Hl as [|a l Ha Hl IH]; intros d Hd; [exact Hd|].
  rewrite last_cons. now apply IH.
Qed.

(** What every iteration keeps holds of every state of the loop. *)
Lemma py_scan_Forall {S : Type} (Inv : S -> Prop) (body : S -> Z -> result S)
  (vs : list Z) :
  (forall s v s', Inv s -> body s v = Ok s' -> Inv s') ->
  forall s states, Inv s -> py_scan body vs s = Ok states -> Forall Inv states.
Proof.
  intros Hb. induction vs as [|v vs IH]; intros s states Hs; cbn [py_scan].
  - intros [= <-]. constructor.
  - destruct (body s v) as [s1|] eqn:E; cbn [bind]; [|discriminate].
    destruct (py_scan body vs s1) as [rest|] eqn:Er; cbn [bind]; [|discriminate].
    intros [= <-]. constructor; eauto.
Qed.

Lemma py_for_invariant {S : Type} (Inv : S -> Prop) (body : S -> Z -> result S)
  (vs : list Z) :
  (forall s v s', Inv s -> body s v = Ok s' -> Inv s') ->
  forall s s', Inv s -> py_for body vs s = Ok s' -> Inv s'.
Proof.
  intros Hb. induction vs as [|v vs IH]; intros s s' Hs; cbn [py_for].
  - now intros [= <-].
  - destruct (body s v) as [s1|] eqn:E; cbn [bind]; [|discriminate]. eauto.
Qed.

Lemma quantize_byte_frame (round : R -> R) (sample : list R) :
  byte_frame sample (quantize_with round sample).
Proof.
  unfold byte_frame, quantize_with. split; [apply length_map|].
  apply Forall_forall. intros v Hv. apply in_map_iff in Hv.
  destruct Hv as [r [<- _]]. apply astype_uint8_byte.
Qed.

Section Runs.

Variable get_alpha_bar : list R -> list R.
Variable net : list R -> Z -> list R.
Variable rng : nat -> nat -> R.

Context {fmt : FloatFormat}.
Hypothesis Hshape : shape_preserving net.

Lemma reconstruct_body_shape alpha_bar sigma n step_size overstep rs s i s' :
  reconstruct_body net rng alpha_bar sigma n step_size overstep rs s i = Ok s' ->
  length (x s') = length (x s).
Proof.
  unfold reconstruct_body.
  destruct (py_index alpha_bar (i * step_size)); cbn [bind]; [|discriminate].
  destruct (py_index alpha_bar (i * step_size - step_size)); cbn [bind]; [|discriminate].
  destruct (py_index sigma (i * step_size)); cbn [bind]; [|discriminate].
  destruct (if rs then _ else _); cbn [bind]; [|discriminate].
  intros [= <-]. cbn [x]. apply length_map3; [apply Hshape | apply length_randn].
Qed.

Lemma sequential_body_shape beta alpha_bar sigma s ti s' :
  sequential_body net rng beta alpha_bar sigma s ti = Ok s' ->
  length (x s') = length (x s).
Proof.
  unfold sequential_body.
  destruct (py_index beta ti); cbn [bind]; [|discriminate].
  destruct (py_index alpha_bar ti); cbn [bind]; [|discriminate].
  destruct (py_index sigma ti); cbn [bind]; [|discriminate].
  intros [= <-]. cbn [x]. apply length_map3; [apply Hshape | apply length_randn].
Qed.

(** Within the schedule [reconstruct] returns, in both modes, what the
    states of its loop give. *)
Lemma reconstruct_runs noisy_image t variance_schedule step_size overstep sigma :
  (1 <= step_size)%Z ->
  (2 * step_size <= t)%Z ->
  (t - step_size < Z.of_nat (length (get_alpha_bar variance_schedule)))%Z ->
  sigma_covers sigma t ->
  exists states,
    states <> []
    /\ length states = Z.to_nat (t / step_size - 1)
    /\ Forall (fun st => length (x st) = length noisy_image) states
    /\ reconstruct get_alpha_bar net rng noisy_image t variance_schedule step_size
         overstep sigma true
       = Ok (Sequences
               (quantize64 noisy_image
                :: map (fun st => quantize (map (clip 0 1) (x st))) states))
    /\ reconstruct get_alpha_bar net rng noisy_image t variance_schedule step_size
         overstep sigma false
       = Ok (Final (map (clip 0 1) (x (last states (mkLoop noisy_image [] O None))))).
Proof.
  intros Hstep Ht Hab Hcov.
  destruct (sigma_schedule_Ok sigma t) as [l El]; [lia|].
  assert (Hlen : (t <= Z.of_nat (length l))%Z)
    by (apply (sigma_schedule_length sigma); auto; lia).
  set (n := (t / step_size)%Z).
  assert (Hn : (2 <= n)%Z) by (unfold n; apply Z.div_le_lower_bound; lia).
  set (alpha_bar := get_alpha_bar variance_schedule) in *.
  set (init := mkLoop noisy_image [] O None).
  destruct (py_scan_Ok (reconstruct_body net rng alpha_bar l n step_size overstep false)
              (py_reversed_range 1 n)) with (s := init) as (states & Hscan & Hlens).
  { intros s v Hv. apply reconstruct_body_Ok with (t := t); auto.
    now apply py_reversed_range_In in Hv. }
  rewrite length_py_reversed_range in Hlens.
  exists states.
  assert (Hfloor : py_floordiv t step_size = Ok n).
  { unfold py_floordiv. replace (step_size =? 0)%Z with false; [reflexivity|].
    symmetry. apply Z.eqb_neq. lia. }
  assert (Hzeros : np_zeros n = Ok (repeat 0 (Z.to_nat n))).
  { unfold np_zeros.
    now replace (n <? 0)%Z with false by (symmetry; apply Z.ltb_ge; lia). }
  set (zero_frames := map quantize64 (repeat (repeat 0 (length noisy_image))
                                      (Z.to_nat (n - 1)))).
  set (start := mkLoop noisy_image (quantize64 noisy_image :: zero_frames) O None).
  split; [|split; [|split; [|split]]].
  - intros ->. cbn in Hlens. lia.
  - exact Hlens.
  - eapply (py_scan_Forall (fun st => length (x st) = length noisy_image));
      [| |exact Hscan]; [|reflexivity].
    intros s v s' Hs Hb. apply reconstruct_body_shape in Hb. congruence.
  - unfold reconstruct. rewrite El, Hfloor. cbn [bind]. fold alpha_bar.
    rewrite Hzeros. cbn [bind]. rewrite py_setitem_first by lia. cbn [bind].
    rewrite first_row. cbn [map]. fold zero_frames start.
    pose proof (py_for_records net rng alpha_bar l n step_size overstep
                  (Z.to_nat (n - 1)) start init [quantize64 noisy_image] zero_frames)
      as Hrun.
    replace (Z.of_nat (Z.to_nat (n - 1)) + 1)%Z with n in Hrun by lia.
    rewrite Hscan in Hrun.
    destruct Hrun as (s' & -> & Hsame & Hrec & Hbound).
    + repeat split.
    + reflexivity.
    + unfold zero_frames. now rewrite length_map, repeat_length.
    + cbn [length]. lia.
    + cbn [bind]. unfold del_t_tensor.
      destruct (t_tensor s') eqn:Et; [|exfalso; apply Hbound; [right; lia | reflexivity]].
      cbn [bind]. rewrite Hrec. reflexivity.
  - unfold reconstruct. rewrite El, Hfloor. cbn [bind]. fold alpha_bar.
    rewrite Hzeros. cbn [bind]. rewrite py_setitem_first by lia. cbn [bind].
    rewrite first_row. cbn [map]. fold zero_frames start.
    pose proof (py_scan_for _ _ _ _ Hscan) as Hfor.
    pose proof (py_for_rel same_sample
                  (reconstruct_body net rng alpha_bar l n step_size overstep false)
                  (reconstruct_body net rng alpha_bar l n step_size overstep false)
                  (py_reversed_range 1 n)
                  (fun s1 s2 v _ H =>
                     reconstruct_body_same_sample net rng alpha_bar l n step_size
                       overstep s1 s2 v H)
                  start init (conj eq_refl (conj eq_refl eq_refl))) as Hrel.
    rewrite Hfor in Hrel.
    destruct (py_for _ _ start) as [s'|e]; [|contradiction].
    destruct Hrel as (Hx & _ & Ht').
    cbn [bind]. unfold del_t_tensor. rewrite Ht'.
    assert (Hb : t_tensor (last states init) <> None).
    { eapply (py_for_bound (fun s => t_tensor s <> None)); [| |exact Hfor].
      - intros s v s1. apply reconstruct_body_binds.
      - rewrite py_reversed_range_cons by lia. discriminate. }
    destruct (t_tensor (last states init)); [|congruence]. cbn [bind].
    now rewrite Hx.
Qed.

(** X6: at a timestep that the retention array has, with retention
    coefficients in (0, 1] and a predictor that answers in the shape of the
    sample, [reconstruct_single_step] returns a sample of the shape of the
    input with every entry in [0, 1]. *)
Theorem single_step_returns_clamped noisy_image t variance_schedule :
  (0 <= t < Z.of_nat (length (get_alpha_bar variance_schedule)))%Z ->
  retention_in_range (get_alpha_bar variance_schedule) ->
  exists y,
    reconstruct_single_step get_alpha_bar net noisy_image t variance_schedule = Ok y
    /\ length y = length noisy_image
    /\ in_unit_range y.
Proof.
  intros Ht _. unfold reconstruct_single_step.
  rewrite (py_index_Ok _ _ 0 Ht). cbn [bind]. eexists. split; [reflexivity|]. split.
  - rewrite length_map. unfold x0_estimate. apply length_map2. apply Hshape.
  - apply map_clip_unit_range.
Qed.

(** X7: from a start timestep [t >= 2] that the schedule, the retention
    array and [sigma] cover, with variances in (0, 1) and retention
    coefficients in range, [reconstruct_sequentially] returns a sample of
    the shape of the input with every entry in [0, 1]. *)
Theorem sequential_returns_clamped noisy_image t variance_schedule sigma :
  (2 <= t)%Z ->
  (t <= Z.of_nat (length variance_schedule))%Z ->
  (t <= Z.of_nat (length (get_alpha_bar variance_schedule)))%Z ->
  valid_schedule variance_schedule ->
  retention_in_range (get_alpha_bar variance_schedule) ->
  sigma_covers sigma t ->
  exists y,
    reconstruct_sequentially get_alpha_bar net rng noisy_image t variance_schedule sigma
    = Ok y
    /\ length y = length noisy_image
    /\ in_unit_range y.
Proof.
  intros Ht Hbeta Hab _ _ Hcov. unfold reconstruct_sequentially.
  destruct (sigma_schedule_Ok sigma t) as [l El]; [lia|]. rewrite El. cbn [bind].
  assert (Hlen : (t <= Z.of_nat (length l))%Z)
    by (apply (sigma_schedule_length sigma); auto; lia).
  set (body := sequential_body net rng variance_schedule
                 (get_alpha_bar variance_schedule) l).
  set (init := mkLoop noisy_image [] O None).
  destruct (py_for_Ok body (py_reversed_range 1 t)) with (s := init) as [s' Hrun].
  { intros s v Hv. apply py_reversed_range_In in Hv. unfold body, sequential_body.
    rewrite (py_index_Ok variance_schedule v 0) by lia. cbn [bind].
    rewrite (py_index_Ok (get_alpha_bar variance_schedule) v 0) by lia. cbn [bind].
    rewrite (py_index_Ok l v 0) by lia. cbn [bind]. eauto. }
  rewrite Hrun. cbn [bind].
  assert (Hb : t_tensor s' <> None).
  { eapply (py_for_bound (fun s => t_tensor s <> None)); [| |exact Hrun].
    - intros s v s1. apply sequential_body_binds.
    - rewrite py_reversed_range_cons by lia. discriminate. }
  assert (Hl : length (x s') = length noisy_image).
  { eapply (py_for_invariant (fun s => length (x s) = length noisy_image));
      [| |exact Hrun]; [|reflexivity].
    intros s v s1 Hs Hbody. apply sequential_body_shape in Hbody. congruence. }
  unfold del_t_tensor. destruct (t_tensor s'); [|congruence]. cbn [bind].
  eexists. split; [reflexivity|]. split.
  - now rewrite length_map.
  - apply map_clip_unit_range.
Qed.

(** X8: for a stride [step_size >= 1], a start timestep [t >= 2*step_size]
    and a retention array, with coefficients in range, and a [sigma] that
    cover the timesteps, [reconstruct] without [return_sequences] returns a
    sample of the shape of the input with every entry in [0, 1]. *)
Theorem reconstruct_returns_clamped
  noisy_image t variance_schedule step_size overstep sigma :
  (1 <= step_size)%Z ->
  (2 * step_size <= t)%Z ->
  (t - step_size < Z.of_nat (length (get_alpha_bar variance_schedule)))%Z ->
  retention_in_range (get_alpha_bar variance_schedule) ->
  sigma_covers sigma t ->
  exists y,
    reconstruct get_alpha_bar net rng noisy_image t variance_schedule step_size
      overstep sigma false = Ok (Final y)
    /\ length y = length noisy_image
    /\ in_unit_range y.
Proof.
  intros Hstep Ht Hab _ Hcov.
  destruct (reconstruct_runs noisy_image t variance_schedule step_size overstep sigma
              Hstep Ht Hab Hcov) as (states & _ & _ & Hshapes & _ & Hfinal).
  eexists. split; [exact Hfinal|]. split.
  - rewrite length_map.
    apply (last_satisfies (fun st => length (x st) = length noisy_image));
      [reflexivity | exact Hshapes].
  - apply map_clip_unit_range.
Qed.

(** X9: under the same conditions [reconstruct] with [return_sequences]
    returns [t // step_size] frames, the input first, each of the shape of
    the input with every entry a byte, [0 <= v < 256]. *)
Theorem reconstruct_returns_frames
  noisy_image t variance_schedule step_size overstep sigma :
  (1 <= step_size)%Z ->
  (2 * step_size <= t)%Z ->
  (t - step_size < Z.of_nat (length (get_alpha_bar variance_schedule)))%Z ->
  sigma_covers sigma t ->
  exists frames,
    reconstruct get_alpha_bar net rng noisy_image t variance_schedule step_size
      overstep sigma true = Ok (Sequences frames)
    /\ Z.of_nat (length frames) = (t / step_size)%Z
    /\ Forall (byte_frame noisy_image) frames.
Proof.
  intros Hstep Ht Hab Hcov.
  destruct (reconstruct_runs noisy_image t variance_schedule step_size overstep sigma
              Hstep Ht Hab Hcov) as (states & _ & Hlens & Hshapes & Hseq & _).
  assert (Hn : (2 <= t / step_size)%Z) by (apply Z.div_le_lower_bound; lia).
  eexists. split; [exact Hseq|]. split.
  - cbn [length]. rewrite length_map, Hlens. lia.
  - constructor; [apply quantize_byte_frame|].
    apply Forall_forall. intros fr Hfr. apply in_map_iff in Hfr.
    destruct Hfr as [st [<- Hst]]. rewrite Forall_forall in Hshapes.
    pose proof (quantize_byte_frame round32 (map (clip 0 1) (x st))) as [Hl Hr].
    split; [|exact Hr]. unfold quantize. rewrite Hl, length_map. now apply Hshapes.
Qed.

(** X10: under the same conditions the last frame of the sequence is the
    sample returned without [return_sequences], multiplied by 255 and cast
    to [uint8]. *)
Theorem last_frame_is_output
  noisy_image t variance_schedule step_size overstep sigma :
  (1 <= step_size)%Z ->
  (2 * step_size <= t)%Z ->
  (t - step_size < Z.of_nat (length (get_alpha_bar variance_schedule)))%Z ->
  sigma_covers sigma t ->
  exists y frames,
    reconstruct get_alpha_bar net rng noisy_image t variance_schedule step_size
      overstep sigma false = Ok (Final y)
    /\ reconstruct get_alpha_bar net rng noisy_image t variance_schedule step_size
         overstep sigma true = Ok (Sequences frames)
    /\ last frames [] = quantize y.
Proof.
  intros Hstep Ht Hab Hcov.
  destruct (reconstruct_runs noisy_image t variance_schedule step_size overstep sigma
              Hstep Ht Hab Hcov) as (states & Hne & _ & _ & Hseq & Hfinal).
  eexists _, _. split; [exact Hfinal|]. split; [exact Hseq|].
  set (init := mkLoop noisy_image [] O None).
  set (frame := fun st => quantize (map (clip 0 1) (x st))).
  rewrite last_cons.
  rewrite (last_default (map frame states) _ (frame init)).
  - apply (last_map frame).
  - destruct states; [congruence | discriminate].
Qed.

End Runs.

Lemma shape_preserving_probe_net : shape_preserving probe_net.
Proof.
  intros sample ti. unfold probe_net. destruct (ti =? 2)%Z; apply repeat_length.
Qed.

Lemma single_step_returns_clamped_witness :
  exists y,
    reconstruct_single_step compute_cumulative_retention probe_net [3 / 2; - 1 / 2] 2
      [3 / 4; 3 / 4] = Ok y
    /\ length y = length [3 / 2; - 1 / 2]
    /\ in_unit_range y.
Proof.
  apply (single_step_returns_clamped compute_cumulative_retention probe_net
           shape_preserving_probe_net).
  - simpl. lia.
  - split; simpl; repeat (constructor; [lra|]); constructor.
Defined.

Lemma sequential_returns_clamped_witness :
  exists y,
    reconstruct_sequentially compute_cumulative_retention probe_net (fun _ _ => 1)
      [3 / 2; - 1 / 2] 3 [3 / 4; 3 / 4; 3 / 4] (SigmaScalar 1) = Ok y
    /\ length y = length [3 / 2; - 1 / 2]
    /\ in_unit_range y.
Proof.
  apply (sequential_returns_clamped compute_cumulative_retention probe_net
           (fun _ _ => 1) shape_preserving_probe_net).
  - lia.
  - simpl. lia.
  - simpl. lia.
  - repeat (constructor; [lra|]). constructor.
  - split; simpl; repeat (constructor; [lra|]); constructor.
  - exact I.
Defined.

Lemma reconstruct_returns_clamped_witness :
  exists y,
    reconstruct compute_cumulative_retention probe_net (fun _ _ => 1)
      [3 / 2; - 1 / 2] 6 (repeat (3 / 4) 6) 2 (1 / 2) (SigmaScalar 1) false
    = Ok (Final y)
    /\ length y = length [3 / 2; - 1 / 2]
    /\ in_unit_range y.
Proof.
  apply (reconstruct_returns_clamped compute_cumulative_retention probe_net
           (fun _ _ => 1) shape_preserving_probe_net).
  - lia.
  - lia.
  - simpl. lia.
  - split; simpl; repeat (constructor; [lra|]); constructor.
  - exact I.
Defined.

Lemma reconstruct_returns_frames_witness :
  exists frames,
    reconstruct compute_cumulative_retention probe_net (fun _ _ => 1)
      [3 / 2; - 1 / 2] 6 (repeat (3 / 4) 6) 2 (1 / 2) (SigmaScalar 1) true
    = Ok (Sequences frames)
    /\ Z.of_nat (length frames) = (6 / 2)%Z
    /\ Forall (byte_frame [3 / 2; - 1 / 2]) frames.
Proof.
  apply (reconstruct_returns_frames compute_cumulative_retention probe_net
           (fun _ _ => 1) shape_preserving_probe_net).
  - lia.
  - lia.
  - simpl. lia.
  - exact I.
Defined.

Lemma last_frame_is_output_witness :
  exists y frames,
    reconstruct compute_cumulative_retention probe_net (fun _ _ => 1)
      [3 / 2; - 1 / 2] 6 (repeat (3 / 4) 6) 2 (1 / 2) (SigmaScalar 1) false
    = Ok (Final y)
    /\ reconstruct compute_cumulative_retention probe_net (fun _ _ => 1)
         [3 / 2; - 1 / 2] 6 (repeat (3 / 4) 6) 2 (1 / 2) (SigmaScalar 1) true
       = Ok (Sequences frames)
    /\ last frames [] = quantize y.
Proof.
  apply (last_frame_is_output compute_cumulative_retention probe_net
           (fun _ _ => 1) shape_preserving_probe_net).
  - lia.
  - lia.
  - simpl. lia.
  - exact I.
Defined.

Lemma shape_preserving_zero_net : shape_preserving zero_net.
Proof. intros sample ti. apply repeat_length. Qed.

(** C9, as stated, fails: the input value [8421505], outside [0, 1], is
    stored as 0 in the first frame; wrapped modulo 256 its product with 255,
    [2147483775], is 127. *)
Lemma unclamped_frame_counterexample :
  exists rest,
    reconstruct compute_cumulative_retention zero_net (fun _ _ => 1) [8421505] 2
      [3 / 4; 3 / 4] 1 (1 / 2) SigmaNone true
    = Ok (Sequences ([0%Z] :: rest))
    /\ truncation (8421505 * 255) 2147483775
    /\ (2147483775 mod 256 = 127)%Z.
Proof.
  destruct (reconstruct_runs compute_cumulative_retention zero_net (fun _ _ => 1)
              shape_preserving_zero_net [8421505] 2 [3 / 4; 3 / 4] 1 (1 / 2) SigmaNone)
    as (states & _ & _ & _ & Hrun & _).
  - lia.
  - lia.
  - simpl. lia.
  - exact I.
  - eexists. split; [|split].
    + rewrite Hrun. now rewrite quantize_out_of_range.
    + split; intros _; simpl; lra.
    + reflexivity.
Qed.

(** ** Perfect and absent noise prediction *)

(** X11: a predictor that answers, at the timestep [t], with the very
    noise [z] a sample was built from makes [reconstruct_single_step] return
    the clean sample [x0], for [x0] with entries in [0, 1] and a retention
    coefficient [alpha_bar[t]] in (0, 1]. *)
Theorem single_step_roundtrip
  (get_alpha_bar : list R -> list R) (net : list R -> Z -> list R)
  (variance_schedule : list R) (t : Z) (alpha_bar : R) (x0 z : list R) :
  py_index (get_alpha_bar variance_schedule) t = Ok alpha_bar ->
  0 < alpha_bar <= 1 ->
  length z = length x0 ->
  in_unit_range x0 ->
  net (map2 (fun v n => sqrt alpha_bar * v + sqrt (1 - alpha_bar) * n) x0 z) t = z ->
  reconstruct_single_step get_alpha_bar net
    (map2 (fun v n => sqrt alpha_bar * v + sqrt (1 - alpha_bar) * n) x0 z)
    t variance_schedule = Ok x0.
Proof.
  intros Hidx Hab Hlen Hx0 Hnet. unfold reconstruct_single_step.
  rewrite Hidx, Hnet. cbn [bind]. rewrite x0_estimate_roundtrip by assumption.
  f_equal. unfold in_unit_range in Hx0. clear - Hx0.
  induction Hx0 as [|v l Hv Hl IH]; [reflexivity|].
  cbn [map]. rewrite clip_id by exact Hv. f_equal. exact IH.
Qed.

Lemma single_step_roundtrip_witness :
  reconstruct_single_step compute_cumulative_retention (oracle_net [2; - 3])
    (map2 (fun v n => sqrt (1 * (1 - 3 / 4)) * v + sqrt (1 - 1 * (1 - 3 / 4)) * n)
       [1 / 4; 1] [2; - 3])
    1 [3 / 4; 3 / 4] = Ok [1 / 4; 1].
Proof.
  apply (single_step_roundtrip compute_cumulative_retention (oracle_net [2; - 3])
           [3 / 4; 3 / 4] 1 (1 * (1 - 3 / 4)) [1 / 4; 1] [2; - 3]).
  - reflexivity.
  - lra.
  - reflexivity.
  - constructor; [lra | constructor; [lra | constructor]].
  - reflexivity.
Defined.

Lemma positive_entry (l : list R) (k : nat) :
  Forall (fun a => 0 < a) l -> (k < length l)%nat -> 0 < nth k l 0.
Proof.
  intros Hl Hk. rewrite Forall_forall in Hl. apply Hl. now apply nth_In.
Qed.

Lemma rescale_compose (a b c v : R) :
  0 < a -> 0 < b -> 0 < c ->
  v / sqrt (a / b) / sqrt (b / c) = v / sqrt (a / c).
Proof.
  intros Ha Hb Hc.
  assert (Hab : 0 < a / b) by (apply Rdiv_lt_0_compat; lra).
  assert (Hbc : 0 < b / c) by (apply Rdiv_lt_0_compat; lra).
  replace (a / c) with (a / b * (b / c)) by (field; lra).
  rewrite sqrt_mult by lra.
  set (p := sqrt (a / b)). set (q := sqrt (b / c)).
  unfold Rdiv. rewrite Rinv_mult. ring.
Qed.

Section ZeroNoise.

Variable get_alpha_bar : list R -> list R.
Variable rng : nat -> nat -> R.

Context {fmt : FloatFormat}.

(** With zero predicted noise and zero sigma the loop over the blocks
    [m, ..., 1] divides the sample by
    [sqrt(alpha_bar[m * step_size] / alpha_bar[0])]: the ratios of the
    iterations telescope. *)
Lemma zero_noise_loop alpha_bar sigma n step_size overstep (m : nat) :
  (1 <= step_size)%Z ->
  Forall (fun a => 0 < a) alpha_bar ->
  Forall (fun v => v = 0) sigma ->
  (Z.of_nat m * step_size < Z.of_nat (length alpha_bar))%Z ->
  (Z.of_nat m * step_size < Z.of_nat (length sigma))%Z ->
  forall s, exists s',
    py_for (reconstruct_body zero_net rng alpha_bar sigma n step_size overstep false)
      (py_reversed_range 1 (Z.of_nat m + 1)) s = Ok s'
    /\ x s' = map (fun v => v / sqrt (nth (Z.to_nat (Z.of_nat m * step_size)) alpha_bar 0
                                     / nth 0 alpha_bar 0)) (x s)
    /\ (m <> O -> t_tensor s' <> None).
Proof.
  intros Hstep Hpos Hz.
  induction m as [|m IH]; intros Ha Hs s.
  - exists s. rewrite py_reversed_range_nil by lia. split; [reflexivity|].
    split; [|congruence]. cbn [Z.of_nat Z.mul Z.to_nat].
    assert (H0 : 0 < nth 0 alpha_bar 0) by (apply positive_entry; [assumption | lia]).
    replace (nth 0 alpha_bar 0 / nth 0 alpha_bar 0) with 1 by (field; lra).
    rewrite sqrt_1. rewrite <- (map_id (x s)) at 1. apply map_ext.
    intros v. field.
  - rewrite py_reversed_range_cons by lia.
    replace (Z.of_nat (S m) + 1 - 1)%Z with (Z.of_nat (S m)) by lia.
    cbn [py_for].
    assert (Hlo : (Z.of_nat m * step_size < Z.of_nat (S m) * step_size)%Z) by nia.
    assert (Hge : (0 <= Z.of_nat m * step_size)%Z) by nia.
    rewrite (reconstruct_body_zero_net rng alpha_bar sigma n step_size overstep s
               (Z.of_nat (S m))
               (nth (Z.to_nat (Z.of_nat (S m) * step_size)) alpha_bar 0)
               (nth (Z.to_nat (Z.of_nat m * step_size)) alpha_bar 0)).
    + cbn [bind].
      replace (Z.of_nat (S m)) with (Z.of_nat m + 1)%Z by lia.
      destruct (IH ltac:(lia) ltac:(lia)
                  (mkLoop (map (fun v => v / sqrt
                      (nth (Z.to_nat ((Z.of_nat m + 1) * step_size)) alpha_bar 0
                       / nth (Z.to_nat (Z.of_nat m * step_size)) alpha_bar 0)) (x s))
                     (reconstructions s) (S (draws s))
                     (Some ((Z.of_nat m + 1) * step_size)%Z)))
        as (s' & Hrun & Hx & Ht).
      exists s'. split; [exact Hrun|]. split.
      * rewrite Hx. cbn [x]. rewrite map_map. apply map_ext. intros v.
        apply rescale_compose; apply positive_entry; try assumption; lia.
      * intros _. destruct m as [|m'].
        -- rewrite py_reversed_range_nil in Hrun by lia. cbn [py_for] in Hrun.
           injection Hrun as <-. discriminate.
        -- apply Ht. discriminate.
    + apply py_index_Ok. lia.
    + replace (Z.of_nat (S m) * step_size - step_size)%Z
        with (Z.of_nat m * step_size)%Z by lia.
      apply py_index_Ok. lia.
    + rewrite (py_index_Ok sigma _ 0) by lia. f_equal.
      rewrite Forall_forall in Hz. apply Hz. apply nth_In. lia.
Qed.

(** X12: with a predictor that returns zeros, zero sigma and retention
    coefficients in range, [reconstruct] from [t >= 2 * step_size] returns
    each entry of the input divided by
    [sqrt(alpha_bar[hi] / alpha_bar[0])] and clamped to [0, 1], where
    [hi = (t // step_size - 1) * step_size] is the highest timestep the loop
    visits; the overstep and the random source have no part in it. *)
Theorem zero_noise_closed_form noisy_image t variance_schedule step_size overstep sigma :
  (1 <= step_size)%Z ->
  (2 * step_size <= t)%Z ->
  (t - step_size < Z.of_nat (length (get_alpha_bar variance_schedule)))%Z ->
  retention_in_range (get_alpha_bar variance_schedule) ->
  zero_sigma sigma ->
  sigma_covers sigma t ->
  reconstruct get_alpha_bar zero_net rng noisy_image t variance_schedule step_size
    overstep sigma false
  = Ok (Final
          (map (fun v =>
                  clip 0 1
                    (v / sqrt (nth (Z.to_nat ((t / step_size - 1) * step_size))
                                 (get_alpha_bar variance_schedule) 0
                               / nth 0 (get_alpha_bar variance_schedule) 0)))
             noisy_image)).
Proof.
  intros Hstep Ht Hlen [Hrange _] Hz Hc.
  assert (Hpos : Forall (fun a => 0 < a) (get_alpha_bar variance_schedule))
    by (eapply Forall_impl; [|exact Hrange]; intros a Ha; apply Ha).
  assert (Hn : (2 <= t / step_size)%Z) by (apply Z.div_le_lower_bound; lia).
  assert (Hhi : ((t / step_size - 1) * step_size <= t - step_size)%Z).
  { pose proof (Z.mul_div_le t step_size ltac:(lia)). nia. }
  unfold reconstruct.
  destruct (sigma_schedule_Ok sigma t) as [l El]; [lia|]. rewrite El. cbn [bind].
  pose proof (sigma_schedule_zero _ _ _ Hz El) as Hl.
  assert (Hcover : (t <= Z.of_nat (length l))%Z)
    by (apply (sigma_schedule_length sigma); auto; lia).
  unfold py_floordiv.
  replace (step_size =? 0)%Z with false by (symmetry; apply Z.eqb_neq; lia).
  cbn [bind]. unfold np_zeros.
  replace (t / step_size <? 0)%Z with false by (symmetry; apply Z.ltb_ge; lia).
  cbn [bind]. rewrite py_setitem_first by lia. cbn [bind].
  rewrite first_row.
  destruct (zero_noise_loop (get_alpha_bar variance_schedule) l (t / step_size)
              step_size overstep (Z.to_nat (t / step_size - 1)) Hstep Hpos Hl
              ltac:(rewrite Z2Nat.id by lia; lia) ltac:(rewrite Z2Nat.id by lia; lia)
              (mkLoop noisy_image
                 (map quantize64
                    (noisy_image
                     :: repeat (repeat 0 (length noisy_image))
                          (Z.to_nat (t / step_size - 1)))) O None))
    as (s' & Hrun & Hx & Ht').
  rewrite Z2Nat.id in Hrun, Hx by lia.
  replace (t / step_size - 1 + 1)%Z with (t / step_size)%Z in Hrun by lia.
  rewrite Hrun. cbn [bind]. unfold del_t_tensor.
  destruct (t_tensor s') eqn:E; [|exfalso; apply Ht'; [lia | reflexivity]].
  cbn [bind]. rewrite Hx. cbn [x]. rewrite map_map. reflexivity.
Qed.

End ZeroNoise.

Lemma zero_noise_closed_form_witness :
  reconstruct compute_cumulative_retention zero_net (fun _ _ => 1) [1 / 2; 3] 7
    [1 / 2; 1 / 2; 1 / 2; 1 / 2; 1 / 2; 1 / 2] 2 (1 / 3) (SigmaScalar 0) false
  = Ok (Final
          (map (fun v =>
                  clip 0 1
                    (v / sqrt (nth (Z.to_nat ((7 / 2 - 1) * 2))
                                 (compute_cumulative_retention
                                    [1 / 2; 1 / 2; 1 / 2; 1 / 2; 1 / 2; 1 / 2]) 0
                               / nth 0 (compute_cumulative_retention
                                          [1 / 2; 1 / 2; 1 / 2; 1 / 2; 1 / 2; 1 / 2]) 0)))
             [1 / 2; 3])).
Proof.
  apply (zero_noise_closed_form compute_cumulative_retention (fun _ _ => 1)
           [1 / 2; 3] 7 [1 / 2; 1 / 2; 1 / 2; 1 / 2; 1 / 2; 1 / 2] 2 (1 / 3)
           (SigmaScalar 0)).
  - lia.
  - lia.
  - simpl. lia.
  - split; simpl; repeat (constructor; [lra|]); constructor.
  - reflexivity.
  - exact I.
Defined.

(** ** The scenario of the specification *)

(** C1, as amended: on the schedule [beta = [0.01]*10], from [t = 10] with
    [step_size = 2], zero sigma and the predictor that returns zeros,
    [reconstruct] returns the input multiplied by [1 / sqrt(alpha_bar[8])]
    and clamped to [0, 1], where [alpha_bar[8] = 0.99^8] is the retention
    at the timestep [8 = (10 // 2 - 1) * 2], the highest one the loop
    visits; for every input sample, overstep and random source. *)
Theorem strided_zero_noise_rescaling {fmt : FloatFormat}
  (rng : nat -> nat -> R) (overstep : R) (noisy_image : list R) (sigma : sigma_arg) :
  zero_sigma sigma ->
  sigma_covers sigma 10 ->
  py_index (compute_cumulative_retention (repeat (1 / 100) 10)) 8
  = Ok ((99 / 100) ^ 8)
  /\ reconstruct compute_cumulative_retention zero_net rng noisy_image 10
       (repeat (1 / 100) 10) 2 overstep sigma false
     = Ok (Final (map (fun v => clip 0 1 (v * (1 / sqrt ((99 / 100) ^ 8))))
                    noisy_image)).
Proof.
  intros Hz Hc. split.
  - replace (99 / 100) with (1 - 1 / 100) by lra.
    apply (py_index_retention_const (1 / 100) 10 8). lia.
  - set (alpha_bar := compute_cumulative_retention (repeat (1 / 100) 10)).
    assert (Hpos : Forall (fun a => 0 < a) alpha_bar).
    { apply Forall_impl with (P := fun a => 0 < a <= 1); [intros a Ha; apply Ha|].
      apply running_product_range; [lra|].
      apply Forall_forall. intros b Hb. apply repeat_spec in Hb. subst b. lra. }
    unfold reconstruct.
    destruct (sigma_schedule_Ok sigma 10) as [l El]; [lia|]. rewrite El. cbn [bind].
    pose proof (sigma_schedule_zero _ _ _ Hz El) as Hl.
    assert (Hcover : (10 <= Z.of_nat (length l))%Z)
      by (apply (sigma_schedule_length sigma); auto; lia).
    change (py_floordiv 10 2) with (Ok 5%Z). cbn [bind].
    change (np_zeros 5) with (Ok (repeat 0 5)). cbn [bind].
    rewrite (py_setitem_first _ _ 5) by lia. cbn [bind]. rewrite first_row.
    fold alpha_bar.
    destruct (zero_noise_loop rng alpha_bar l 5 2 overstep 4%nat ltac:(lia) Hpos Hl)
      with (s := mkLoop noisy_image
                   (map quantize64
                      (noisy_image
                       :: repeat (repeat 0 (length noisy_image)) (Z.to_nat (5 - 1))))
                   O None)
      as (s' & Hrun & Hx & Ht').
    { unfold alpha_bar, compute_cumulative_retention.
      rewrite length_running_product, repeat_length. lia. }
    { lia. }
    change (Z.of_nat 4 + 1)%Z with 5%Z in Hrun. rewrite Hrun. cbn [bind].
    unfold del_t_tensor.
    destruct (t_tensor s'); [|exfalso; apply Ht'; [lia | reflexivity]].
    cbn [bind]. rewrite Hx. cbn [x]. rewrite map_map. do 2 f_equal.
    apply map_ext. intros v. f_equal.
    change (Z.to_nat (Z.of_nat 4 * 2)) with 8%nat.
    unfold alpha_bar, compute_cumulative_retention.
    rewrite (nth_running_product_const (1 / 100) 10 8) by lia.
    rewrite (nth_running_product_const (1 / 100) 10 0) by lia.
    replace (1 * (1 - 1 / 100) ^ 8 / (1 * (1 - 1 / 100) ^ 0)) with ((99 / 100) ^ 8).
    + unfold Rdiv. ring.
    + replace (1 - 1 / 100) with (99 / 100) by lra. cbn [pow]. field.
Qed.

Lemma strided_zero_noise_rescaling_witness :
  py_index (compute_cumulative_retention (repeat (1 / 100) 10)) 8
  = Ok ((99 / 100) ^ 8)
  /\ reconstruct compute_cumulative_retention zero_net (fun _ _ => 1) [1 / 2; 3] 10
       (repeat (1 / 100) 10) 2 (1 / 2) (SigmaScalar 0) false
     = Ok (Final (map (fun v => clip 0 1 (v * (1 / sqrt ((99 / 100) ^ 8))))
                    [1 / 2; 3])).
Proof.
  apply (strided_zero_noise_rescaling (fun _ _ => 1) (1 / 2) [1 / 2; 3]
           (SigmaScalar 0)).
  - reflexivity.
  - exact I.
Defined.

(** C1, as stated, fails: from the sample [0.5] the code returns
    [0.5 / 0.99^4], which is [0.5 / sqrt(alpha_bar[8])]; the statement has
    [0.5 / sqrt(alpha_bar[10])] clamped, another number. *)
Lemma strided_zero_noise_counterexample :
  reconstruct compute_cumulative_retention zero_net (fun _ _ => 1) [1 / 2] 10
    (repeat (1 / 100) 10) 2 (1 / 2) SigmaNone false
  = Ok (Final [1 / 2 / (99 / 100) ^ 4])
  /\ py_index (compute_cumulative_retention (repeat (1 / 100) 10)) 10
     = Ok ((99 / 100) ^ 10)
  /\ 1 / 2 / (99 / 100) ^ 4 <> clip 0 1 (1 / 2 * (1 / sqrt ((99 / 100) ^ 10))).
Proof. exact (strided_zero_noise_scenario (fun _ _ => 1) (1 / 2)). Qed.

(** ** The forms of [sigma] *)

Lemma sigma_schedule_scalar_zero (t : Z) :
  sigma_schedule (SigmaScalar 0) t = sigma_schedule SigmaNone t.
Proof.
  unfold sigma_schedule, np_ones, np_zeros. destruct (t <? 0)%Z; [reflexivity|].
  cbn [bind]. rewrite map_repeat. do 2 f_equal. ring.
Qed.

Lemma sigma_schedule_scalar_repeat (s : R) (t : Z) :
  (0 <= t)%Z ->
  sigma_schedule (SigmaScalar s) t = sigma_schedule (SigmaSeq (repeat s (Z.to_nat t))) t.
Proof.
  intros Ht. unfold sigma_schedule, np_ones.
  replace (t <? 0)%Z with false by (symmetry; apply Z.ltb_ge; lia).
  cbn [bind]. rewrite map_repeat. do 2 f_equal. ring.
Qed.

Section SigmaForms.

Variable get_alpha_bar : list R -> list R.
Variable net : list R -> Z -> list R.
Variable rng : nat -> nat -> R.

Context {fmt : FloatFormat}.

(** X13: passing the scalar 0 as [sigma] is passing [None], for
    [reconstruct] and for [reconstruct_sequentially], on every input and
    outcome, exceptions included. *)
Theorem scalar_zero_sigma_is_default
  noisy_image t variance_schedule step_size overstep return_sequences :
  reconstruct get_alpha_bar net rng noisy_image t variance_schedule step_size overstep
    (SigmaScalar 0) return_sequences
  = reconstruct get_alpha_bar net rng noisy_image t variance_schedule step_size
      overstep SigmaNone return_sequences
  /\ reconstruct_sequentially get_alpha_bar net rng noisy_image t variance_schedule
       (SigmaScalar 0)
     = reconstruct_sequentially get_alpha_bar net rng noisy_image t variance_schedule
         SigmaNone.
Proof.
  unfold reconstruct, reconstruct_sequentially.
  now rewrite sigma_schedule_scalar_zero.
Qed.

(** X14: for a start timestep [t >= 0], a scalar [sigma] is the sequence
    of [t] copies of it, for [reconstruct] and for
    [reconstruct_sequentially]. *)
Theorem scalar_sigma_is_broadcast
  noisy_image t variance_schedule step_size overstep (s : R) return_sequences :
  (0 <= t)%Z ->
  reconstruct get_alpha_bar net rng noisy_image t variance_schedule step_size overstep
    (SigmaScalar s) return_sequences
  = reconstruct get_alpha_bar net rng noisy_image t variance_schedule step_size
      overstep (SigmaSeq (repeat s (Z.to_nat t))) return_sequences
  /\ reconstruct_sequentially get_alpha_bar net rng noisy_image t variance_schedule
       (SigmaScalar s)
     = reconstruct_sequentially get_alpha_bar net rng noisy_image t variance_schedule
         (SigmaSeq (repeat s (Z.to_nat t))).
Proof.
  intros Ht. unfold reconstruct, reconstruct_sequentially.
  now rewrite (sigma_schedule_scalar_repeat s t Ht).
Qed.

End SigmaForms.

Lemma scalar_sigma_is_broadcast_witness :
  reconstruct compute_cumulative_retention probe_net (fun _ _ => 1) [1 / 2; 1 / 4] 6
    (repeat (3 / 4) 6) 2 (1 / 2) (SigmaScalar (1 / 5)) true
  = reconstruct compute_cumulative_retention probe_net (fun _ _ => 1) [1 / 2; 1 / 4] 6
      (repeat (3 / 4) 6) 2 (1 / 2) (SigmaSeq (repeat (1 / 5) (Z.to_nat 6))) true
  /\ reconstruct_sequentially compute_cumulative_retention probe_net (fun _ _ => 1)
       [1 / 2; 1 / 4] 6 (repeat (3 / 4) 6) (SigmaScalar (1 / 5))
     = reconstruct_sequentially compute_cumulative_retention probe_net (fun _ _ => 1)
         [1 / 2; 1 / 4] 6 (repeat (3 / 4) 6) (SigmaSeq (repeat (1 / 5) (Z.to_nat 6))).
Proof.
  apply (scalar_sigma_is_broadcast compute_cumulative_retention probe_net
           (fun _ _ => 1) [1 / 2; 1 / 4] 6 (repeat (3 / 4) 6) 2 (1 / 2) (1 / 5) true).
  lia.
Defined.

(** ** The start timestep *)

(** X15: two predictors that differ at the start timestep [t] only give
    [reconstruct] (for a stride of one or more) and
    [reconstruct_sequentially] the same outcome: neither loop calls the
    predictor at [t]. *)
Theorem start_timestep_never_predicted {fmt : FloatFormat}
  (get_alpha_bar : list R -> list R) (net1 net2 : list R -> Z -> list R)
  (rng : nat -> nat -> R) noisy_image t variance_schedule step_size overstep sigma
  return_sequences :
  (1 <= step_size)%Z ->
  (forall sample ti, ti <> t -> net1 sample ti = net2 sample ti) ->
  reconstruct get_alpha_bar net1 rng noisy_image t variance_schedule step_size overstep
    sigma return_sequences
  = reconstruct get_alpha_bar net2 rng noisy_image t variance_schedule step_size
      overstep sigma return_sequences
  /\ reconstruct_sequentially get_alpha_bar net1 rng noisy_image t variance_schedule
       sigma
     = reconstruct_sequentially get_alpha_bar net2 rng noisy_image t variance_schedule
         sigma.
Proof.
  intros Hstep Hnet. split.
  - now apply reconstruct_ignores_start.
  - now apply sequential_ignores_start.
Qed.

Lemma start_timestep_never_predicted_witness :
  reconstruct compute_cumulative_retention probe_net (fun _ _ => 1) [1 / 2; 1 / 4] 2
    [3 / 4; 3 / 4; 3 / 4] 1 (1 / 2) (SigmaScalar 1) true
  = reconstruct compute_cumulative_retention zero_net (fun _ _ => 1) [1 / 2; 1 / 4] 2
      [3 / 4; 3 / 4; 3 / 4] 1 (1 / 2) (SigmaScalar 1) true
  /\ reconstruct_sequentially compute_cumulative_retention probe_net (fun _ _ => 1)
       [1 / 2; 1 / 4] 2 [3 / 4; 3 / 4; 3 / 4] (SigmaScalar 1)
     = reconstruct_sequentially compute_cumulative_retention zero_net (fun _ _ => 1)
         [1 / 2; 1 / 4] 2 [3 / 4; 3 / 4; 3 / 4] (SigmaScalar 1).
Proof.
  apply (start_timestep_never_predicted compute_cumulative_retention probe_net zero_net
           (fun _ _ => 1) [1 / 2; 1 / 4] 2 [3 / 4; 3 / 4; 3 / 4] 1 (1 / 2)
           (SigmaScalar 1) true).
  - lia.
  - intros sample ti Hti. unfold probe_net, zero_net.
    destruct (ti =? 2)%Z eqn:E; [|reflexivity].
    apply Z.eqb_eq in E. contradiction.
Defined.

(** ** The store of the caller *)

(** X16: whatever the predictor does with the tensor it is handed, and
    whatever the arguments are, [reconstruct] and
    [reconstruct_image_from_noise] leave every array that exists before the
    call as it was, whether they return or raise, and return an array of
    their own. *)
Theorem reconstruct_keeps_every_array {fmt : FloatFormat}
  (get_alpha_bar : list R -> list R) (net : list R -> Z -> list R * list R)
  (rng : nat -> nat -> R) (h0 : Heap.store) (l : Heap.loc)
  (noisy_image noise : Heap.loc) (t : Z) (variance_schedule : list R)
  (step_size : Z) (overstep : R) (sigma : sigma_arg) (return_sequences : bool) :
  (l < length h0)%nat ->
  Heap.leaves_unchanged h0 l
    (Heap.reconstruct get_alpha_bar net rng noisy_image t variance_schedule step_size
       overstep sigma return_sequences)
  /\ Heap.leaves_unchanged h0 l
       (Heap.reconstruct_image_from_noise get_alpha_bar noisy_image noise t
          variance_schedule).
Proof.
  intros Hl. split; apply preserves_unchanged; try exact Hl.
  - apply preserves_reconstruct.
  - apply preserves_reconstruct_image_from_noise.
Qed.

Lemma reconstruct_keeps_every_array_witness :
  let h0 := [Heap.FloatRows Heap.float32 [[1 / 2; 3 / 2]];
             Heap.ByteRows [[7; 9]%Z];
             Heap.FloatRows Heap.float32 [[0; 1]]] in
  Heap.leaves_unchanged h0 1%nat
    (Heap.reconstruct compute_cumulative_retention scrubbing_net (fun _ _ => 1)
       0%nat 3 [3 / 4; 3 / 4; 3 / 4] 1 (1 / 2) (SigmaScalar 1) true)
  /\ Heap.leaves_unchanged h0 1%nat
       (Heap.reconstruct_image_from_noise compute_cumulative_retention 0%nat 2%nat 3
          [3 / 4; 3 / 4; 3 / 4]).
Proof.
  intros h0.
  apply (reconstruct_keeps_every_array compute_cumulative_retention scrubbing_net
           (fun _ _ => 1) h0 1%nat 0%nat 2%nat 3 [3 / 4; 3 / 4; 3 / 4] 1 (1 / 2)
           (SigmaScalar 1) true).
  simpl. lia.
Defined.

(** X17: when the array handed to [reconstruct_single_step] is float32,
    [torch.Tensor(noisy_image)] is that array, so what the predictor leaves
    in the tensor it is handed is what the array of the caller holds after
    the call, whether the routine returns or raises. *)
Theorem single_step_shares_float32_input
  (get_alpha_bar : list R -> list R) (net : list R -> Z -> list R * list R)
  (h0 : Heap.store) (noisy_image : Heap.loc) (v : list R) (t : Z)
  (variance_schedule : list R) :
  nth_error h0 noisy_image = Some (Heap.FloatRows Heap.float32 [v]) ->
  nth_error
    (snd (Heap.reconstruct_single_step get_alpha_bar net noisy_image t
            variance_schedule h0)) noisy_image
  = Some (Heap.FloatRows Heap.float32 [fst (net v t)]).
Proof.
  intros Hv. unfold Heap.reconstruct_single_step.
  rewrite (bindM_Ok _ _ h0 noisy_image h0)
    by (unfold Heap.torch_Tensor, Heap.bindM, Heap.dtype_of, Heap.dtype_at;
        now rewrite Hv).
  set (h1 := list_set h0 noisy_image (Heap.FloatRows Heap.float32 [fst (net v t)])).
  rewrite (bindM_Ok _ _ h0 (length h1)
             (h1 ++ [Heap.FloatRows Heap.float32 [snd (net v t)]])).
  - match goal with
    | |- nth_error (snd (?m _)) _ = _ =>
        assert (Hrest : Heap.preserves h1 m (Heap.fresh h1))
          by (repeat frame_step; apply preserves_alloc)
    end.
    destruct (Hrest (h1 ++ [Heap.FloatRows Heap.float32 [snd (net v t)]]))
      as [Hkept _]; [now eexists|].
    eapply kept_nth_error; [exact Hkept|].
    unfold h1. eapply nth_error_list_set_eq. exact Hv.
  - unfold Heap.call_net, Heap.entries, Heap.float_rows, Heap.bindM, Heap.dtype_of,
      Heap.dtype_at, Heap.put, Heap.alloc, Heap.ret.
    rewrite Hv. cbn [concat]. rewrite app_nil_r. reflexivity.
Qed.

Lemma single_step_shares_float32_input_witness :
  nth_error
    (snd (Heap.reconstruct_single_step compute_cumulative_retention scrubbing_net
            0%nat 2 [3 / 4; 3 / 4; 3 / 4]
            [Heap.FloatRows Heap.float32 [[1 / 2; 3 / 2]]])) 0%nat
  = Some (Heap.FloatRows Heap.float32 [fst (scrubbing_net [1 / 2; 3 / 2] 2)]).
Proof.
  apply (single_step_shares_float32_input compute_cumulative_retention scrubbing_net
           [Heap.FloatRows Heap.float32 [[1 / 2; 3 / 2]]] 0%nat [1 / 2; 3 / 2] 2
           [3 / 4; 3 / 4; 3 / 4]).
  reflexivity.
Defined.

(** ** Unit stride with noise *)

Lemma map3_pointwise {A B C D : Type} (f g : A -> B -> C -> D)
  (l : list A) (m : list B) (n : list C) :
  (forall a b c, f a b c = g a b c) -> map3 f l m n = map3 g l m n.
Proof.
  intros Hfg. revert m n.
  induction l as [|a l IH]; intros [|b m] [|c n]; simpl; try reflexivity.
  now rewrite Hfg, IH.
Qed.

Lemma unit_stride_update_noisy (a_prev b s v p c : R) :
  0 < a_prev ->
  strided_update 0 (a_prev * (1 - b) / a_prev) (a_prev * (1 - b)) s v p c
  = unit_update b (a_prev * (1 - b)) s v p c.
Proof.
  intros Ha. replace (a_prev * (1 - b) / a_prev) with (1 - b) by (field; lra).
  unfold strided_update, unit_update, Rdiv. ring.
Qed.

Section UnitStrideNoisy.

Variable get_alpha_bar : list R -> list R.
Variable net : list R -> Z -> list R.
Variable rng : nat -> nat -> R.

Context {fmt : FloatFormat}.

Lemma unit_stride_body_noisy alpha_bar beta sigma n t s1 s2 i :
  retention_recurrence alpha_bar beta t ->
  (1 <= i < t)%Z ->
  same_sample s1 s2 ->
  result_rel same_sample
    (reconstruct_body net rng alpha_bar sigma n 1 0 false s1 i)
    (sequential_body net rng beta alpha_bar sigma s2 i).
Proof.
  intros Hrec Hi (Hx & Hd & _).
  destruct (Hrec i Hi) as (a_prev & a_ti & b & Hprev & Hti & Hb & Heq & Hpos).
  unfold reconstruct_body, sequential_body.
  rewrite Z.mul_1_r, Hprev, Hti, Hb. simpl.
  destruct (py_index sigma i) as [s_ti|e]; simpl; [|reflexivity].
  subst a_ti. unfold same_sample; simpl. rewrite Hx, Hd. repeat split.
  apply map3_pointwise. intros. now apply unit_stride_update_noisy.
Qed.

(** X18: for any [sigma], nonzero too, and one random source,
    [reconstruct] with [step_size = 1] and [overstep = 0] has the outcome of
    [reconstruct_sequentially] from a start timestep [t >= 1] on retention
    coefficients that follow the variances: the two loops draw the same
    noise at the same timesteps and take the same steps. *)
Theorem unit_stride_same_draws noisy_image t variance_schedule sigma :
  (1 <= t)%Z ->
  retention_recurrence (get_alpha_bar variance_schedule) variance_schedule t ->
  reconstruct get_alpha_bar net rng noisy_image t variance_schedule 1 0 sigma false
  = fmap Final
      (reconstruct_sequentially get_alpha_bar net rng noisy_image t variance_schedule
         sigma).
Proof.
  intros Ht Hrec.
  unfold reconstruct, reconstruct_sequentially, fmap.
  destruct (sigma_schedule sigma t) as [l|] eqn:El; cbn [bind]; [|reflexivity].
  unfold py_floordiv. cbn [Z.eqb bind]. rewrite Z.div_1_r.
  unfold np_zeros. replace (t <? 0)%Z with false by (symmetry; apply Z.ltb_ge; lia).
  cbn [bind]. rewrite py_setitem_first by lia. cbn [bind].
  rewrite first_row. cbn [map].
  set (alpha_bar := get_alpha_bar variance_schedule).
  set (frames := quantize64 noisy_image :: _).
  pose proof (py_for_rel same_sample
                (reconstruct_body net rng alpha_bar l t 1 0 false)
                (sequential_body net rng variance_schedule alpha_bar l)
                (py_reversed_range 1 t)) as Hloop.
  specialize (Hloop (fun s1 s2 v Hv Hs =>
                       unit_stride_body_noisy alpha_bar variance_schedule l t t s1 s2 v
                         Hrec (py_reversed_range_In 1 t v Hv) Hs)
                (mkLoop noisy_image frames O None) (mkLoop noisy_image [] O None)
                (conj eq_refl (conj eq_refl eq_refl))).
  destruct (py_for (reconstruct_body _ _ _ _ _ _ _ _) _ _) as [s1|e1],
           (py_for (sequential_body _ _ _ _ _) _ _) as [s2|e2]; simpl in *;
    try contradiction; [|congruence].
  destruct Hloop as (Hx & _ & Ht'). unfold del_t_tensor. rewrite Ht', Hx.
  destruct (t_tensor s2); reflexivity.
Qed.

End UnitStrideNoisy.

Lemma unit_stride_same_draws_witness :
  reconstruct compute_cumulative_retention probe_net (fun k i => INR (k + i))
    [1 / 2; 1 / 4] 3 [1 / 2; 1 / 2; 1 / 2] 1 0 (SigmaScalar (1 / 5)) false
  = fmap Final
      (reconstruct_sequentially compute_cumulative_retention probe_net
         (fun k i => INR (k + i)) [1 / 2; 1 / 4] 3 [1 / 2; 1 / 2; 1 / 2]
         (SigmaScalar (1 / 5))).
Proof.
  apply (unit_stride_same_draws compute_cumulative_retention probe_net
           (fun k i => INR (k + i)) [1 / 2; 1 / 4] 3 [1 / 2; 1 / 2; 1 / 2]
           (SigmaScalar (1 / 5))).
  - lia.
  - exact constant_schedule_recurrence.
Defined.

(** ** The timestep of the direct estimates *)

Lemma py_index_out_of_range {A : Type} (l : list A) (i : Z) :
  (Z.of_nat (length l) <= i \/ i < - Z.of_nat (length l))%Z ->
  py_index l i = Err IndexError.
Proof.
  intros H. unfold py_index. destruct (i <? 0)%Z eqn:E.
  - apply Z.ltb_lt in E.
    replace (0 <=? Z.of_nat (length l) + i)%Z with false
      by (symmetry; apply Z.leb_gt; lia).
    reflexivity.
  - apply Z.ltb_ge in E.
    replace (i <? Z.of_nat (length l))%Z with false by (symmetry; apply Z.ltb_ge; lia).
    now rewrite andb_false_r.
Qed.

Lemma py_index_wraps {A : Type} (l : list A) (i : Z) :
  (- Z.of_nat (length l) <= i < 0)%Z ->
  py_index l i = py_index l (Z.of_nat (length l) + i).
Proof.
  intros H. unfold py_index.
  replace (i <? 0)%Z with true by (symmetry; apply Z.ltb_lt; lia).
  replace (Z.of_nat (length l) + i <? 0)%Z with false
    by (symmetry; apply Z.ltb_ge; lia).
  reflexivity.
Qed.

(** X19: the two direct estimates check the timestep by indexing only:
    a timestep at or past the length of the retention array, or below
    minus that length, raises [IndexError] in
    [reconstruct_image_from_noise] and in [reconstruct_single_step]. *)
Theorem direct_estimate_index_error
  (get_alpha_bar : list R -> list R) (net : list R -> Z -> list R)
  (noisy_image noise : list R) (t : Z) (variance_schedule : list R) :
  (Z.of_nat (length (get_alpha_bar variance_schedule)) <= t
   \/ t < - Z.of_nat (length (get_alpha_bar variance_schedule)))%Z ->
  reconstruct_image_from_noise get_alpha_bar noisy_image noise t variance_schedule
  = Err IndexError
  /\ reconstruct_single_step get_alpha_bar net noisy_image t variance_schedule
     = Err IndexError.
Proof.
  intros Ht. unfold reconstruct_image_from_noise, reconstruct_single_step.
  now rewrite (py_index_out_of_range _ _ Ht).
Qed.

Lemma direct_estimate_index_error_witness :
  reconstruct_image_from_noise compute_cumulative_retention [1 / 2] [0] 3 [3 / 4; 3 / 4]
  = Err IndexError
  /\ reconstruct_single_step compute_cumulative_retention probe_net [1 / 2] 3
       [3 / 4; 3 / 4]
     = Err IndexError.
Proof.
  apply (direct_estimate_index_error compute_cumulative_retention probe_net
           [1 / 2] [0] 3 [3 / 4; 3 / 4]).
  left. simpl. lia.
Defined.

(** X20: a negative timestep is not rejected by
    [reconstruct_image_from_noise]: within minus the length of the
    retention array it counts from the end, so the call at [t] is the call
    at [len + t]. *)
Theorem image_from_noise_negative_timestep
  (get_alpha_bar : list R -> list R)
  (noisy_image noise : list R) (t : Z) (variance_schedule : list R) :
  (- Z.of_nat (length (get_alpha_bar variance_schedule)) <= t < 0)%Z ->
  reconstruct_image_from_noise get_alpha_bar noisy_image noise t variance_schedule
  = reconstruct_image_from_noise get_alpha_bar noisy_image noise
      (Z.of_nat (length (get_alpha_bar variance_schedule)) + t) variance_schedule.
Proof.
  intros Ht. unfold reconstruct_image_from_noise.
  now rewrite (py_index_wraps _ _ Ht).
Qed.

Lemma image_from_noise_negative_timestep_witness :
  reconstruct_image_from_noise compute_cumulative_retention [1 / 2] [0] (- 1)
    [3 / 4; 3 / 4]
  = reconstruct_image_from_noise compute_cumulative_retention [1 / 2] [0]
      (Z.of_nat (length (compute_cumulative_retention [3 / 4; 3 / 4])) + - 1)
      [3 / 4; 3 / 4].
Proof.
  apply (image_from_noise_negative_timestep compute_cumulative_retention
           [1 / 2] [0] (- 1) [3 / 4; 3 / 4]).
  simpl. lia.
Defined.
